(** * deep_disk_check.py: the unmount / verify / repair / remount sweep

    A shallow embedding of [src/deep_disk_check.py] and the properties of
    its per-disk state machine, its cleanup routine and its summary.

    Conventions of the embedding.
    - Text is ASCII: [string] holds what Python holds in a [str] (or in a
      [bytes] for the commands run without [text=True]).
    - Everything outside the interpreter (the [diskutil] and [which]
      commands, opening the error log) is answered by an oracle that sees
      the history of earlier answers, so a theorem quantified over the
      oracle speaks of every behaviour of the machine.
    - A function of the script is a state transformer that returns a value
      or raises; the two module globals, the two logs and the standard
      streams are the fields of the state.
    - The error log starts empty and only this run writes to it.
    - A process is [main] followed by the exit handler, whose own
      [SystemExit] the interpreter ignores.  A signal is handled by running
      the handler in the state the run has reached, and then the exit
      handler.  The properties of the states are properties of the
      boundaries of the calls; where a state inside a function matters, it
      is the state after the first lines of its body
      ([unmount_disk_command], [cleanup_sweep], [finish_summary]).  The
      start-up of [main] ([parse_arguments], [setup_logging]) and a signal
      that arrives before the handlers are registered are outside the
      model. *)

From Stdlib Require Import List String Ascii Bool Arith ZArith Lia.
Import ListNotations.
Open Scope string_scope.
Open Scope list_scope.

(* ================================================================== *)
(** * Python string primitives used by the script (ASCII) *)
(* ================================================================== *)

Definition nl : string := String "010"%char EmptyString.

Definition code (c : ascii) : nat := nat_of_ascii c.

(** [str.isspace] on ASCII: TAB..CR, FS..US and the blank. *)
Definition is_space (c : ascii) : bool :=
  let n := code c in
  (((9 <=? n) && (n <=? 13)) || ((28 <=? n) && (n <=? 32)))%nat.

(** Whitespace of [bytes.strip]: TAB..CR and the blank. *)
Definition is_space_bytes (c : ascii) : bool :=
  let n := code c in
  (((9 <=? n) && (n <=? 13)) || (n =? 32))%nat.

(** Line boundaries of [str.splitlines] on ASCII (CR LF is handled apart). *)
Definition is_linebreak (c : ascii) : bool :=
  let n := code c in
  (((10 <=? n) && (n <=? 13)) || ((28 <=? n) && (n <=? 30)))%nat.

(** [s.startswith(p)] *)
Definition startswith (p s : string) : bool := String.prefix p s.

(** [sub in s] *)
Fixpoint contains (sub s : string) : bool :=
  String.prefix sub s ||
  match s with
  | EmptyString => false
  | String _ s' => contains sub s'
  end.

Section Strip.
Variable sp : ascii -> bool.

Fixpoint lstrip_with (s : string) : string :=
  match s with
  | EmptyString => EmptyString
  | String c s' => if sp c then lstrip_with s' else s
  end.

Fixpoint rstrip_with (s : string) : string :=
  match s with
  | EmptyString => EmptyString
  | String c s' =>
      match rstrip_with s' with
      | EmptyString => if sp c then EmptyString else String c EmptyString
      | r => String c r
      end
  end.

Definition strip_with (s : string) : string := rstrip_with (lstrip_with s).
End Strip.

(** [str.strip()] and [bytes.strip()] *)
Definition strip : string -> string := strip_with is_space.
Definition strip_bytes : string -> string := strip_with is_space_bytes.

Definition lower_char (c : ascii) : ascii :=
  let n := code c in
  if ((65 <=? n) && (n <=? 90))%nat then ascii_of_nat (n + 32) else c.

(** [str.lower()] *)
Fixpoint lower (s : string) : string :=
  match s with
  | EmptyString => EmptyString
  | String c s' => String (lower_char c) (lower s')
  end.

(** [str.splitlines()] *)
Fixpoint splitlines (s : string) : list string :=
  match s with
  | EmptyString => []
  | String c s' =>
      if is_linebreak c then
        match s' with
        | String c' s'' =>
            if ((code c =? 13) && (code c' =? 10))%nat
            then EmptyString :: splitlines s''
            else EmptyString :: splitlines s'
        | EmptyString => [EmptyString]
        end
      else
        match splitlines s' with
        | [] => [String c EmptyString]
        | l :: ls => String c l :: ls
        end
  end.

(** [str.split()] : the maximal runs of non-blank characters *)
Fixpoint split_ws (s : string) : list string :=
  match s with
  | EmptyString => []
  | String c s' =>
      if is_space c then split_ws s'
      else
        match s' with
        | EmptyString => [String c EmptyString]
        | String c' _ =>
            if is_space c' then String c EmptyString :: split_ws s'
            else
              match split_ws s' with
              | [] => [String c EmptyString]
              | w :: ws => String c w :: ws
              end
        end
  end.

(** [str.split(sep)] for a separator of one character *)
Fixpoint split_char (sep : ascii) (s : string) : list string :=
  match s with
  | EmptyString => [EmptyString]
  | String c s' =>
      if Ascii.eqb c sep then EmptyString :: split_char sep s'
      else
        match split_char sep s' with
        | [] => [String c EmptyString]
        | l :: ls => String c l :: ls
        end
  end.

(** [sep.join(l)] *)
Definition join (sep : string) (l : list string) : string := String.concat sep l.

(** [x in l] for a list of strings *)
Definition in_list (x : string) (l : list string) : bool :=
  existsb (String.eqb x) l.

(** ** [repr] of a [bytes] object, as an f-string prints it *)

Definition quote1 : ascii := "039"%char.
Definition quote2 : ascii := "034"%char.
Definition backslash : ascii := "092"%char.

Definition hex_digit (n : nat) : ascii :=
  nth n (list_ascii_of_string "0123456789abcdef") "0"%char.

Definition has_char (c : ascii) (s : string) : bool :=
  existsb (Ascii.eqb c) (list_ascii_of_string s).

Definition escape_byte (q c : ascii) : string :=
  let n := code c in
  if Ascii.eqb c q || Ascii.eqb c backslash then String backslash (String c EmptyString)
  else if (n =? 9)%nat then String backslash "t"
  else if (n =? 10)%nat then String backslash "n"
  else if (n =? 13)%nat then String backslash "r"
  else if ((n <? 32) || (127 <=? n))%nat
       then String backslash
              (String "x" (String (hex_digit (n / 16))
                                  (String (hex_digit (n mod 16)) EmptyString)))
  else String c EmptyString.

Definition bytes_repr (b : string) : string :=
  let q := if has_char quote1 b && negb (has_char quote2 b) then quote2 else quote1 in
  "b" ++ String q (String.concat EmptyString
                     (map (escape_byte q) (list_ascii_of_string b)))
      ++ String q EmptyString.

(* ================================================================== *)
(** * Configuration *)
(* ================================================================== *)

Definition REQUIRED_COMMANDS : list string :=
  ["diskutil"; "grep"; "awk"; "mkdir"; "touch"; "tee"; "date"; "echo"; "sleep"].

Definition SUPPORTED_FILESYSTEMS : list string :=
  ["apfs"; "hfs"; "msdos"; "exfat"; "udf"; "ufs"; "ntfs";
   "fat32"; "ext4"; "btrfs"; "xfs"; "iso9660"; "smbfs";
   "davfs2"; "fuseblk"; "fuse"].

(** The run mode: the strings ["normal"] and ["dry"] of the script. *)
Inductive run_mode : Type := normal | dry.

Definition mode_name (m : run_mode) : string :=
  match m with normal => "normal" | dry => "dry" end.

Definition is_dry (m : run_mode) : bool :=
  match m with dry => true | normal => false end.

(** The parsed command line ([argparse] namespace). *)
Record Args : Type := mkArgs { dry_run : bool; non_interactive : bool }.

(* ================================================================== *)
(** * The environment of a run *)
(* ================================================================== *)

(** What the script asks of the machine. *)
Inductive call : Type :=
| Which (cmd : string)            (* which <cmd> *)
| ListExternal                    (* diskutil list external physical *)
| ListAll                         (* diskutil list *)
| Info (disk : string)            (* diskutil info <disk> *)
| UnmountDisk (disk : string)     (* diskutil unmountDisk <disk> *)
| MountDisk (disk : string)       (* diskutil mountDisk <disk> *)
| VerifyVolume (disk : string)    (* diskutil verifyVolume <disk> *)
| RepairVolume (disk : string)    (* diskutil repairVolume <disk> *)
| ReadErrorLog                    (* open(error_log_file, 'r').read() *)
| AppendErrorLog.                 (* open(error_log_file, 'a') *)

(** The answer: exit status zero with the captured output, or a failure
    ([CalledProcessError], or the [OSError] of a file) with its text. *)
Inductive result : Type :=
| Ok (out : string)
| Err (err : string).

Definition event : Type := (call * result)%type.

Record Env : Type := mkEnv {
  world : list event -> call -> result;  (* answer, given the history *)
  env_PATH : string;                     (* os.environ.get('PATH', '') *)
  euid : nat;                            (* os.geteuid() *)
  clock : list event -> string           (* asctime, given the history *)
}.

Inductive level : Type := INFO | ERROR.

(** A line of the informational log (it is mirrored on the console). *)
Record log_record : Type := mkRecord {
  asctime : string; levelname : level; message : string }.

(** What has been written to the error log file: the records of
    [error_logger] and the three texts [append_summary] writes. *)
Inductive chunk : Type :=
| ErrorRecord (asctime message : string)
| SummaryHeader
| SummaryIssues
| SummaryClean.

Definition render (c : chunk) : string :=
  match c with
  | ErrorRecord t m => t ++ " - ERROR - " ++ m ++ nl
  | SummaryHeader => nl ++ "===== Summary of Recommendations =====" ++ nl
  | SummaryIssues =>
      "Some disks encountered issues that require manual intervention. Please review the above errors and take appropriate actions." ++ nl
  | SummaryClean => "All disk checks completed without errors." ++ nl
  end.

Record State : Type := mkState {
  UNMOUNTED_DISKS : list string;
  CLEANUP_DONE : bool;
  trace : list event;            (* the calls made so far, oldest first *)
  spec_log : list log_record;    (* spec-<timestamp>.log *)
  error_file : list chunk;       (* error-<timestamp>.log *)
  stdin : list string;           (* the lines input() has still to read *)
  stdout : list string           (* what print() and input() have shown *)
}.

(** The state once [setup_logging] has returned. *)
Definition initial_state (input : list string) : State :=
  mkState [] false [] [] [] input [].

(** The text of the error log file. *)
Definition file_content (s : State) : string :=
  String.concat EmptyString (map render (error_file s)).

(** The errors-only channel: the messages logged through [error_logger]. *)
Definition error_channel (s : State) : list string :=
  flat_map (fun c => match c with ErrorRecord _ m => [m] | _ => [] end)
           (error_file s).

(** The calls made so far, without their answers. *)
Definition calls (s : State) : list call := map fst (trace s).

(* ================================================================== *)
(** * Values, exceptions and the monad of the script *)
(* ================================================================== *)

Inductive exit_arg : Type :=
| ExitCode (n : Z)        (* sys.exit(n) *)
| ExitMsg (m : string).   (* sys.exit("...") *)

Inductive exn : Type :=
| SystemExit (a : exit_arg)
| IndexError
| ValueError
| EOFError.

Inductive res (A : Type) : Type :=
| Ret (a : A)
| Raise (e : exn).
Arguments Ret {A} a.
Arguments Raise {A} e.

Definition M (A : Type) : Type := State -> res A * State.

Definition ret {A} (a : A) : M A := fun s => (Ret a, s).

Definition raise {A} (e : exn) : M A := fun s => (Raise e, s).

Definition bind {A B} (m : M A) (k : A -> M B) : M B :=
  fun s =>
    match m s with
    | (Ret a, s') => k a s'
    | (Raise e, s') => (Raise e, s')
    end.

Declare Scope py_scope.
Delimit Scope py_scope with py.
Notation "x <- m ;; k" := (bind m (fun x => k))
  (at level 100, m at next level, right associativity) : py_scope.
Notation "m ;; k" := (bind m (fun _ => k))
  (at level 100, right associativity) : py_scope.
Open Scope py_scope.

Definition get {A} (f : State -> A) : M A := fun s => (Ret (f s), s).

Definition modify (f : State -> State) : M unit := fun s => (Ret tt, f s).

Definition set_UNMOUNTED_DISKS (l : list string) (s : State) : State :=
  mkState l (CLEANUP_DONE s) (trace s) (spec_log s) (error_file s) (stdin s) (stdout s).
Definition set_CLEANUP_DONE (b : bool) (s : State) : State :=
  mkState (UNMOUNTED_DISKS s) b (trace s) (spec_log s) (error_file s) (stdin s) (stdout s).
Definition set_trace (t : list event) (s : State) : State :=
  mkState (UNMOUNTED_DISKS s) (CLEANUP_DONE s) t (spec_log s) (error_file s) (stdin s) (stdout s).
Definition set_spec_log (l : list log_record) (s : State) : State :=
  mkState (UNMOUNTED_DISKS s) (CLEANUP_DONE s) (trace s) l (error_file s) (stdin s) (stdout s).
Definition set_error_file (l : list chunk) (s : State) : State :=
  mkState (UNMOUNTED_DISKS s) (CLEANUP_DONE s) (trace s) (spec_log s) l (stdin s) (stdout s).
Definition set_stdin (l : list string) (s : State) : State :=
  mkState (UNMOUNTED_DISKS s) (CLEANUP_DONE s) (trace s) (spec_log s) (error_file s) l (stdout s).
Definition set_stdout (l : list string) (s : State) : State :=
  mkState (UNMOUNTED_DISKS s) (CLEANUP_DONE s) (trace s) (spec_log s) (error_file s) (stdin s) l.

(** [list.remove(x)]: drops the first occurrence; [None] is [ValueError]. *)
Fixpoint list_remove (x : string) (l : list string) : option (list string) :=
  match l with
  | [] => None
  | y :: l' =>
      if String.eqb y x then Some l'
      else match list_remove x l' with
           | Some r => Some (y :: r)
           | None => None
           end
  end.

(* ================================================================== *)
(** * The functions of the script *)
(* ================================================================== *)

Section Script.

Variable env : Env.

(** [subprocess.run(..., check=True)] and the two [open] of the error log:
    the machine answers and the call is recorded. *)
Definition run_cmd (c : call) : M result :=
  fun s =>
    let r := world env (trace s) c in
    (Ret r, set_trace (trace s ++ [(c, r)]) s).

(** The time stamp of the next log write. *)
Definition now (s : State) : string := clock env (trace s).

(** [spec_logger.info(message)] and [spec_logger.error(message)] *)
Definition spec_write (l : level) (msg : string) : M unit :=
  fun s => (Ret tt, set_spec_log (spec_log s ++ [mkRecord (now s) l msg]) s).

(** [error_logger.error(message)] *)
Definition error_write (msg : string) : M unit :=
  fun s => (Ret tt, set_error_file (error_file s ++ [ErrorRecord (now s) msg]) s).

(** [f.write(...)] on the error log opened for appending *)
Definition file_write (c : chunk) : M unit :=
  modify (fun s => set_error_file (error_file s ++ [c]) s).

(** [print(text)] *)
Definition print (text : string) : M unit :=
  modify (fun s => set_stdout (stdout s ++ [text]) s).

Definition log_info (msg : string) : M unit := spec_write INFO msg.

Definition log_error (msg : string) : M unit :=
  error_write msg ;; spec_write ERROR msg.

(** [subprocess.call(['which', command], ...) == 0] *)
Definition command_exists (command : string) : M bool :=
  r <- run_cmd (Which command) ;;
  match r with Ok _ => ret true | Err _ => ret false end.

Fixpoint find_missing (cmds missing_cmds : list string) : M (list string) :=
  match cmds with
  | [] => ret missing_cmds
  | cmd :: rest =>
      ok <- command_exists cmd ;;
      if negb ok then find_missing rest (missing_cmds ++ [cmd])
      else find_missing rest missing_cmds
  end.

Fixpoint log_missing (missing_cmds : list string) : M unit :=
  match missing_cmds with
  | [] => ret tt
  | cmd :: rest =>
      log_error ("Required command '" ++ cmd ++ "' not found or not executable.") ;;
      log_missing rest
  end.

Definition check_required_commands : M unit :=
  missing_cmds <- find_missing REQUIRED_COMMANDS [] ;;
  match missing_cmds with
  | [] => ret tt
  | _ :: _ =>
      log_missing missing_cmds ;;
      log_error ("Current PATH: " ++ env_PATH env) ;;
      log_error "One or more required commands are missing. Please install them or ensure they are in your PATH." ;;
      raise (SystemExit (ExitMsg "Missing required commands. Check error logs for details."))
  end.

Definition ensure_root : M unit :=
  if negb (euid env =? 0)%nat then
    log_error "This script must be run as root. Please use sudo." ;;
    raise (SystemExit (ExitMsg "Insufficient permissions. Exiting."))
  else ret tt.

(** [get_filesystem]: the first line holding ["Type (Bundle)"] decides;
    [line.split(":")[1]] raises [IndexError] when that line has no colon. *)
Definition get_filesystem (disk : string) : M string :=
  r <- run_cmd (Info disk) ;;
  match r with
  | Ok out =>
      match find (contains "Type (Bundle)") (splitlines out) with
      | Some line =>
          match nth_error (split_char ":" line) 1 with
          | Some field =>
              let fs_type := lower (strip field) in
              log_info ("Detected filesystem type for " ++ disk ++ ": " ++ fs_type) ;;
              ret fs_type
          | None => raise IndexError
          end
      | None =>
          log_error ("Filesystem type not found for " ++ disk ++ ".") ;;
          ret "unknown"
      end
  | Err e =>
      log_error ("Failed to get filesystem info for " ++ disk ++ ". Error: " ++ strip e) ;;
      ret "unknown"
  end.

(** The first word of a line, [line.split()[0]].  At both places where the
    script takes it the line is known to hold a non-blank character (see
    [split_ws_startswith] and [split_ws_contains]), so the index is in
    range. *)
Definition first_word (line : string) : string := hd EmptyString (split_ws line).

Definition is_partition_line (line : string) : bool :=
  contains "Apple_APFS" line || contains "Apple_HFS" line.

Definition is_system_disk (disk : string) : M bool :=
  r <- run_cmd ListAll ;;
  match r with
  | Ok out =>
      let system_partitions :=
        map first_word (filter is_partition_line (splitlines out)) in
      if existsb (fun sys_disk => startswith disk sys_disk) system_partitions then
        log_info (disk ++ " is identified as a system disk.") ;;
        ret true
      else ret false
  | Err e =>
      log_error ("Failed to determine if " ++ disk ++ " is a system disk. Error: " ++ strip e) ;;
      ret false
  end.

(** The loop of [get_external_disks] over the lines of the listing. *)
Fixpoint collect_disks (lines disks : list string) : M (list string) :=
  match lines with
  | [] => ret disks
  | line :: rest =>
      if startswith "/dev/disk" line then
        let disk := first_word line in
        sys <- is_system_disk disk ;;
        if negb sys then collect_disks rest (disks ++ [disk])
        else collect_disks rest disks
      else collect_disks rest disks
  end.

Definition get_external_disks : M (list string) :=
  r <- run_cmd ListExternal ;;
  match r with
  | Ok out =>
      disks <- collect_disks (splitlines out) [] ;;
      log_info ("Found external disks: " ++
                match disks with [] => "None" | _ :: _ => join ", " disks end) ;;
      ret disks
  | Err e =>
      log_error ("Failed to list external physical disks. Error: " ++ strip e) ;;
      ret []
  end.

(** The loop of [unmount_disk] over the lines of [diskutil info]: the
    first line that starts with ["Mounted:"] decides. *)
Fixpoint mounted_in (lines : list string) : bool :=
  match lines with
  | [] => false
  | line :: rest =>
      if startswith "Mounted:" line then contains "Yes" line
      else mounted_in rest
  end.

Definition unmount_disk (disk : string) (mode : run_mode) : M bool :=
  r <- run_cmd (Info disk) ;;
  match r with
  | Ok out =>
      if mounted_in (splitlines out) then
        if is_dry mode then
          log_info ("Dry run: Would attempt to unmount " ++ disk ++ ".") ;;
          ret true
        else
          log_info (disk ++ " is mounted. Attempting to unmount...") ;;
          u <- run_cmd (UnmountDisk disk) ;;
          match u with
          | Ok _ =>
              log_info (disk ++ " unmounted successfully.") ;;
              modify (fun s => set_UNMOUNTED_DISKS (UNMOUNTED_DISKS s ++ [disk]) s) ;;
              ret true
          | Err e =>
              log_error ("Unable to unmount " ++ disk ++
                         ". It may be in use. Skipping verification. Error: " ++
                         bytes_repr (strip_bytes e)) ;;
              ret false
          end
      else
        log_info (disk ++ " is not mounted. No need to unmount.") ;;
        ret true
  | Err e =>
      log_error ("Unable to unmount " ++ disk ++
                 ". It may be in use. Skipping verification. Error: " ++ strip e) ;;
      ret false
  end.

(** [UNMOUNTED_DISKS.remove(disk)] *)
Definition remove_unmounted (disk : string) : M unit :=
  fun s =>
    match list_remove disk (UNMOUNTED_DISKS s) with
    | Some l => (Ret tt, set_UNMOUNTED_DISKS l s)
    | None => (Raise ValueError, s)
    end.

Definition mount_disk (disk : string) (mode : run_mode) : M unit :=
  if is_dry mode then
    log_info ("Dry run: Would attempt to remount " ++ disk ++ ".")
  else
    log_info ("Attempting to remount " ++ disk ++ "...") ;;
    r <- run_cmd (MountDisk disk) ;;
    match r with
    | Ok _ =>
        log_info (disk ++ " remounted successfully.") ;;
        remove_unmounted disk
    | Err e =>
        log_error ("Unable to remount " ++ disk ++
                   ". You may need to remount it manually. Error: " ++
                   bytes_repr (strip_bytes e))
    end.

Definition verify_filesystem (disk fs_type : string) (mode : run_mode) : M unit :=
  if negb (in_list fs_type SUPPORTED_FILESYSTEMS) then
    log_error ("Unsupported or unknown filesystem type '" ++ fs_type ++ "' for " ++
               disk ++ ". Skipping verification.")
  else if is_dry mode then
    log_info ("Dry run: Would verify " ++ disk ++ " with filesystem type " ++ fs_type ++ ".")
  else
    log_info ("Verifying " ++ disk ++ " with filesystem type " ++ fs_type ++ "...") ;;
    v <- run_cmd (VerifyVolume disk) ;;
    match v with
    | Ok _ => log_info (disk ++ " verification succeeded.")
    | Err e =>
        log_error (disk ++ " verification found issues: " ++ bytes_repr (strip_bytes e)) ;;
        log_info ("Attempting to repair " ++ disk ++ "...") ;;
        p <- run_cmd (RepairVolume disk) ;;
        match p with
        | Ok _ => log_info (disk ++ " repair succeeded.")
        | Err e' =>
            log_error ("Error: " ++ disk ++
                       " repair failed. Manual intervention may be required: " ++
                       bytes_repr (strip_bytes e'))
        end
    end.

(** [append_summary]: any exception of the two [open] is caught and
    logged, and then nothing is appended. *)
Definition append_summary : M unit :=
  r <- run_cmd ReadErrorLog ;;
  match r with
  | Err e => log_error ("Failed to append summary to error log: " ++ e)
  | Ok _ =>
      error_content <- get file_content ;;
      a <- run_cmd AppendErrorLog ;;
      match a with
      | Err e => log_error ("Failed to append summary to error log: " ++ e)
      | Ok _ =>
          file_write SummaryHeader ;;
          if contains "ERROR" error_content then
            file_write SummaryIssues ;;
            log_info "Summary: Some errors were encountered during the disk check. Please review the error logs for details."
          else
            file_write SummaryClean ;;
            log_info "Summary: No errors detected. All disk checks passed successfully."
      end
  end.

(** The loop of [cleanup] over [UNMOUNTED_DISKS.copy()]. *)
Fixpoint remount_all (disks : list string) : M unit :=
  match disks with
  | [] => ret tt
  | disk :: rest => mount_disk disk normal ;; remount_all rest
  end.

(** [cleanup] always ends in [sys.exit(1)]. *)
Definition cleanup : M unit :=
  done <- get CLEANUP_DONE ;;
  (if negb done then
     log_info "Script interrupted or exiting. Performing cleanup." ;;
     copy <- get UNMOUNTED_DISKS ;;
     remount_all copy ;;
     append_summary ;;
     modify (set_CLEANUP_DONE true)
   else ret tt) ;;
  raise (SystemExit (ExitCode 1)).

Definition menu_text : list string :=
  [(nl ++ "Select an option:")%string; "1) Run normally";
   "2) Dry run (simulate actions without making changes)"; "3) Exit"].

Fixpoint print_all (texts : list string) : M unit :=
  match texts with
  | [] => ret tt
  | t :: rest => print t ;; print_all rest
  end.

(** [show_interactive_menu], by recursion on the lines still to be read;
    [input] raises [EOFError] when there is none.  The mode chosen is
    returned instead of being stored in [mode_container]. *)
Fixpoint menu_loop (lines : list string) : M run_mode :=
  print_all menu_text ;;
  print "Enter your choice [1-3]: " ;;
  match lines with
  | [] => raise EOFError
  | line :: rest =>
      modify (set_stdin rest) ;;
      let choice := strip line in
      if String.eqb choice "1" then ret normal
      else if String.eqb choice "2" then ret dry
      else if String.eqb choice "3" then
        print "Exiting." ;; raise (SystemExit (ExitCode 0))
      else
        print "Invalid choice. Please enter a number between 1 and 3." ;;
        menu_loop rest
  end.

Definition show_interactive_menu : M run_mode :=
  lines <- get stdin ;; menu_loop lines.

(** The body of the loop of [main] over the disks, from the test of the
    filesystem type on: each [continue] of the script is a branch that
    returns. *)
Definition check_classified (mode : run_mode) (disk fs_type : string) : M unit :=
  if String.eqb fs_type "unknown" then
    log_error ("Unable to determine filesystem type for " ++ disk ++ ". Skipping verification.")
  else
    unmounted <- unmount_disk disk mode ;;
    if negb unmounted then ret tt
    else
      verify_filesystem disk fs_type mode ;;
      l <- get UNMOUNTED_DISKS ;;
      (if in_list disk l then mount_disk disk mode else ret tt) ;;
      log_info ("Done with " ++ disk ++ ".").

(** The whole body of the loop. *)
Definition check_disk (mode : run_mode) (disk : string) : M unit :=
  log_info "----------------------------------------" ;;
  log_info ("Checking " ++ disk ++ "...") ;;
  fs_type <- get_filesystem disk ;;
  check_classified mode disk fs_type.

Fixpoint check_disks (mode : run_mode) (disks : list string) : M unit :=
  match disks with
  | [] => ret tt
  | disk :: rest => check_disk mode disk ;; check_disks mode rest
  end.

(** The [if not disks: ... else: for disk in disks: ...] of [main]. *)
Definition check_all (mode : run_mode) (disks : list string) : M unit :=
  match disks with
  | [] => log_info "No external disks found to check."
  | _ :: _ => check_disks mode disks
  end.

(** The end of [main]: the summary is appended, the flag is set and the
    script exits with status 0. *)
Definition finish_run : M unit :=
  log_info "----------------------------------------" ;;
  log_info "Disk Check Completed." ;;
  append_summary ;;
  modify (set_CLEANUP_DONE true) ;;
  raise (SystemExit (ExitCode 0)).

(** [main] from the line that logs the mode to its [sys.exit(0)]. *)
Definition run_checks (mode : run_mode) : M unit :=
  log_info ("Starting disk checks in '" ++ mode_name mode ++ "' mode.") ;;
  disks <- get_external_disks ;;
  check_all mode disks ;;
  finish_run.

(** The choice of the mode in [main]: the flags first, the menu last. *)
Definition select_mode (args : Args) : M run_mode :=
  if non_interactive args then ret normal
  else if dry_run args then ret dry
  else show_interactive_menu.

(** [main] from source line 317 on: after [parse_arguments] and
    [setup_logging] have returned (they give [args] and the initial state)
    and after the registration of the handlers (which [run_process] and
    [on_signal] below account for).  A start-up that does not return (the
    exit of [argparse] with status 2 on a wrong command line, an [OSError]
    of [setup_logging]) ends the process before any line modelled here. *)
Definition main (args : Args) : M unit :=
  check_required_commands ;;
  ensure_root ;;
  mode <- select_mode args ;;
  run_checks mode.

(** ** The process around [main]

    The exit status of the interpreter: that of the [SystemExit] which
    ends [main] (a message counts as 1), and 1 for any other exception. *)
Definition exit_status (r : res unit) : Z :=
  match r with
  | Ret _ => 0
  | Raise (SystemExit (ExitCode n)) => n
  | Raise (SystemExit (ExitMsg _)) => 1
  | Raise _ => 1
  end.

(** The exit handler registered with [atexit]: [cleanup] runs when the
    interpreter shuts down, and the [SystemExit] it raises there is
    ignored by the interpreter, which keeps the status it had. *)
Definition at_exit (r : res unit) : State -> Z * State :=
  fun s => (exit_status r, snd (cleanup s)).

(** A whole run that no signal interrupts. *)
Definition run_process (args : Args) (input : list string) : Z * State :=
  let (r, s) := main args (initial_state input) in at_exit r s.

(** SIGINT or SIGTERM handled while the run is in state [s]: the handler
    runs [cleanup]; what it raises unwinds [main] (no [except] clause of
    the script catches a [SystemExit]) and ends the process, whose exit
    handler then runs. *)
Definition on_signal (s : State) : Z * State :=
  let (r, s') := cleanup s in at_exit r s'.

End Script.

(* ================================================================== *)
(** * Sample environments, used to run the script on concrete inputs *)
(* ================================================================== *)

Definition call_eq_dec (a b : call) : {a = b} + {a <> b}.
Proof. decide equality; apply string_dec. Defined.

(** How many times the call [c] was made in the history [h]. *)
Definition times_called (c : call) (h : list event) : nat :=
  List.length (filter (fun ev => if call_eq_dec (fst ev) c then true else false) h).

Definition sample_clock (h : list event) : string := "2024-01-01 00:00:00,000".

(** Root on a machine where every command is found; the disks answer as
    [w] says. *)
Definition env_of (w : list event -> call -> result) : Env :=
  mkEnv w "/usr/bin:/bin:/usr/sbin:/sbin" 0 sample_clock.

Definition flag_normal : Args := mkArgs false true.
Definition flag_dry : Args := mkArgs true false.

Definition listing_one : string :=
  "/dev/disk2 (external, physical):" ++ nl ++
  "   #:                       TYPE NAME                    SIZE       IDENTIFIER" ++ nl.

Definition listing_twice : string := listing_one ++ listing_one.

Definition info_of (fs : string) (mounted : string) : string :=
  "Device Node: /dev/disk2" ++ nl ++
  "Type (Bundle): " ++ fs ++ nl ++
  "Mounted: " ++ mounted ++ nl.

(** One APFS disk, mounted, and every command succeeds. *)
Definition world_healthy (h : list event) (c : call) : result :=
  match c with
  | ListExternal => Ok listing_one
  | Info _ => Ok (info_of "APFS" "Yes")
  | _ => Ok EmptyString
  end.

(** One mounted disk of a type that is not in the allow-list. *)
Definition world_zfs (h : list event) (c : call) : result :=
  match c with
  | ListExternal => Ok listing_one
  | Info _ => Ok (info_of "zfs" "Yes")
  | _ => Ok EmptyString
  end.

(** One mounted APFS disk that cannot be remounted. *)
Definition world_stuck (h : list event) (c : call) : result :=
  match c with
  | ListExternal => Ok listing_one
  | Info _ => Ok (info_of "apfs" "Yes")
  | MountDisk _ => Err "timed out"
  | _ => Ok EmptyString
  end.

(** The listing names the disk twice; its first remount fails and the
    later ones succeed. *)
Definition world_twice (h : list event) (c : call) : result :=
  match c with
  | ListExternal => Ok listing_twice
  | Info _ => Ok (info_of "apfs" "Yes")
  | MountDisk d =>
      if (times_called (MountDisk d) h =? 0)%nat then Err "timed out"
      else Ok EmptyString
  | _ => Ok EmptyString
  end.

(** One mounted APFS disk on which verification and repair both fail. *)
Definition world_broken (h : list event) (c : call) : result :=
  match c with
  | ListExternal => Ok listing_one
  | Info _ => Ok (info_of "apfs" "Yes")
  | VerifyVolume _ => Err "invalid b-tree"
  | RepairVolume _ => Err "cannot repair"
  | _ => Ok EmptyString
  end.

(** One mounted APFS disk that is busy: it cannot be unmounted. *)
Definition world_busy (h : list event) (c : call) : result :=
  match c with
  | ListExternal => Ok listing_one
  | Info _ => Ok (info_of "apfs" "Yes")
  | UnmountDisk _ => Err "disk in use"
  | _ => Ok EmptyString
  end.

(** The enumeration command fails. *)
Definition world_no_listing (h : list event) (c : call) : result :=
  match c with
  | ListExternal => Err "could not list"
  | _ => Ok EmptyString
  end.

(** The enumeration succeeds and [diskutil list] fails. *)
Definition world_no_partitions (h : list event) (c : call) : result :=
  match c with
  | ListExternal => Ok listing_one
  | ListAll => Err "could not list"
  | Info _ => Ok (info_of "apfs" "No")
  | _ => Ok EmptyString
  end.

(** [grep] is not installed. *)
Definition world_no_grep (h : list event) (c : call) : result :=
  match c with
  | Which cmd => if String.eqb cmd "grep" then Err EmptyString else Ok EmptyString
  | _ => Ok EmptyString
  end.

(* ================================================================== *)
(** * Vocabulary of the properties *)
(* ================================================================== *)

(** The four calls that change the state of a disk. *)
Definition is_mutating (c : call) : bool :=
  match c with
  | UnmountDisk _ | MountDisk _ | VerifyVolume _ | RepairVolume _ => true
  | _ => false
  end.

(** The run has unmounted [d] and has not remounted it since: the history
    holds a successful unmount of [d] that no successful remount of [d]
    follows. *)
Definition unmounted_by_run (d : string) (t : list event) : Prop :=
  exists t1 o t2,
    t = t1 ++ (UnmountDisk d, Ok o) :: t2 /\
    forall o', ~ In (MountDisk d, Ok o') t2.

(** The same, computed along the history. *)
Definition pending_step (d : string) (b : bool) (ev : event) : bool :=
  match ev with
  | (UnmountDisk d', Ok _) => if String.eqb d' d then true else b
  | (MountDisk d', Ok _) => if String.eqb d' d then false else b
  | _ => b
  end.

Definition pending (d : string) (t : list event) : bool :=
  fold_left (pending_step d) t false.

(** The disks a listing names: the first word of each line that starts
    with ["/dev/disk"]. *)
Definition candidates (out : string) : list string :=
  map first_word (filter (startswith "/dev/disk") (splitlines out)).

(** Every listing the machine may give names each disk once. *)
Definition distinct_listing (env : Env) : Prop :=
  forall h out, world env h ListExternal = Ok out -> NoDup (candidates out).

(** The error log can always be opened, for reading and for appending. *)
Definition log_io_ok (env : Env) : Prop :=
  forall h, (exists o, world env h ReadErrorLog = Ok o) /\
            (exists o, world env h AppendErrorLog = Ok o).

(** Every required command is found. *)
Definition commands_found (env : Env) : Prop :=
  forall h cmd, exists o, world env h (Which cmd) = Ok o.

(** No [diskutil info] answer has a type line without a colon. *)
Definition type_lines_wellformed (env : Env) : Prop :=
  forall h d out line,
    world env h (Info d) = Ok out ->
    In line (splitlines out) ->
    contains "Type (Bundle)" line = true ->
    contains ":" line = true.

(** The recommendation as the specification words it: manual review when
    the errors-only channel is not empty, all passed when it is. *)
Definition recommendation (errors : list string) : chunk :=
  match errors with
  | [] => SummaryClean
  | _ :: _ => SummaryIssues
  end.

Definition recommendation_line (errors : list string) : string :=
  match errors with
  | [] => "Summary: No errors detected. All disk checks passed successfully."
  | _ :: _ => "Summary: Some errors were encountered during the disk check. Please review the error logs for details."
  end.

(** The number of summary blocks in the error log. *)
Definition summaries (s : State) : nat :=
  List.length (filter (fun c => match c with SummaryHeader => true | _ => false end)
                      (error_file s)).

(** The messages of the informational log. *)
Definition messages (s : State) : list string := map message (spec_log s).



(** Whatever its result, [m] takes a state to an [R]-related state. *)
Definition steps {A} (R : State -> State -> Prop) (m : M A) : Prop :=
  forall s, R s (snd (m s)).

(** [m] raises no exception but those of [P]. *)
Definition may_raise {A} (P : exn -> Prop) (m : M A) : Prop :=
  forall s e, fst (m s) = Raise e -> P e.

(** [m] never raises. *)
Definition total {A} (m : M A) : Prop := may_raise (fun _ => False) m.

(** The members of the Unmounted-Set are the disks the run has unmounted
    and not remounted, each held once. *)
Definition set_invariant (s : State) : Prop :=
  NoDup (UNMOUNTED_DISKS s) /\
  forall d, In d (UNMOUNTED_DISKS s) <-> unmounted_by_run d (trace s).

(** A call that is a successful unmount or a successful remount. *)
Definition moves_disk (ev : event) : bool :=
  match ev with
  | (UnmountDisk _, Ok _) | (MountDisk _, Ok _) => true
  | _ => false
  end.

(** Steps that leave the list and the reading of the history alone. *)
Definition same_set (s s' : State) : Prop :=
  UNMOUNTED_DISKS s' = UNMOUNTED_DISKS s /\
  forall d, pending d (trace s') = pending d (trace s).

(** The done-flag and the summaries are left alone, the two logs and the
    history only grow. *)
Definition sweep_frame (s s' : State) : Prop :=
  CLEANUP_DONE s' = CLEANUP_DONE s /\
  summaries s' = summaries s /\
  (exists l, error_channel s' = error_channel s ++ l) /\
  (exists l, messages s' = messages s ++ l) /\
  (exists l, trace s' = trace s ++ l).



(** The error logged when the repair of [d] fails with the text [e]. *)
Definition manual_msg (d e : string) : string :=
  ("Error: " ++ d ++ " repair failed. Manual intervention may be required: "
   ++ bytes_repr (strip_bytes e))%string.

(** The error logged when the unmount command of [d] fails with [e]. *)
Definition unmount_msg (d e : string) : string :=
  ("Unable to unmount " ++ d ++
   ". It may be in use. Skipping verification. Error: "
   ++ bytes_repr (strip_bytes e))%string.

(** The error logged for a type that is not in the allow-list. *)
Definition unsupported_msg (d fs : string) : string :=
  ("Unsupported or unknown filesystem type '" ++ fs ++ "' for " ++ d ++
   ". Skipping verification.")%string.

(** The two logs only grow. *)
Definition logs_grow (s s' : State) : Prop :=
  (exists l, messages s' = messages s ++ l) /\
  (exists l, error_channel s' = error_channel s ++ l).


(** ** Vocabulary of the further properties *)

(** The commands that [which] did not find, in the order of the probes. *)
Definition failed_commands (evs : list event) : list string :=
  flat_map (fun ev => match ev with (Which cmd, Err _) => [cmd] | _ => [] end) evs.

(** The error logged for a required command that is missing. *)
Definition missing_msg (cmd : string) : string :=
  ("Required command '" ++ cmd ++ "' not found or not executable.")%string.

(** The three lines the menu accepts, once stripped. *)
Definition is_choice (line : string) : bool :=
  in_list (strip line) ["1"; "2"; "3"].

(** What the menu shows for a line it does not accept. *)
Definition menu_retry : list string :=
  menu_text ++ ["Enter your choice [1-3]: ";
                "Invalid choice. Please enter a number between 1 and 3."].

(** The disk a [diskutil] command on one disk is about. *)
Definition target (c : call) : option string :=
  match c with
  | Info d | UnmountDisk d | MountDisk d | VerifyVolume d | RepairVolume d => Some d
  | _ => None
  end.


(** A chunk of the error log that is a record of [error_logger]. *)
Definition is_record (c : chunk) : bool :=
  match c with ErrorRecord _ _ => true | _ => false end.

(** No blank in the text. *)
Definition no_blank (s : string) : bool :=
  forallb (fun c => negb (is_space c)) (list_ascii_of_string s).

(** [diskutil list] shows a partition of the external disk. *)
Definition world_system (h : list event) (c : call) : result :=
  match c with
  | ListExternal => Ok listing_one
  | ListAll => Ok ("/dev/disk2s1 Apple_APFS Container disk3" ++ nl)
  | Info _ => Ok (info_of "apfs" "Yes")
  | _ => Ok EmptyString
  end.

(** The error logged when the verification of [d] fails with [e]. *)
Definition issues_msg (d e : string) : string :=
  (d ++ " verification found issues: " ++ bytes_repr (strip_bytes e))%string.

(** The error logged when the remount of [d] fails with [e]. *)
Definition remount_msg (d e : string) : string :=
  ("Unable to remount " ++ d ++
   ". You may need to remount it manually. Error: " ++
   bytes_repr (strip_bytes e))%string.

(** The error log cannot be read. *)
Definition world_no_log (h : list event) (c : call) : result :=
  match c with
  | ReadErrorLog => Err "Permission denied"
  | _ => Ok EmptyString
  end.


(** The five commands on the disk [d] are all among [okc]. *)
Definition disk_calls (okc : call -> Prop) (d : string) : Prop :=
  okc (Info d) /\ okc (UnmountDisk d) /\ okc (VerifyVolume d) /\
  okc (RepairVolume d) /\ okc (MountDisk d).

(** The history grows by calls that are all among [okc]. *)
Definition within (okc : call -> Prop) (s s' : State) : Prop :=
  exists evs, trace s' = trace s ++ evs /\ Forall (fun ev => okc (fst ev)) evs.


(** Every command on a disk was on a disk of [P], and the list holds
    disks of [P] only. *)
Definition on_disks (P : string -> Prop) (c : call) : Prop :=
  forall d, target c = Some d -> P d.

Definition touched_only (P : string -> Prop) (s : State) : Prop :=
  Forall (on_disks P) (calls s) /\ Forall P (UNMOUNTED_DISKS s).

(** The error log holds records only. *)
Definition only_records (s : State) : Prop :=
  forallb is_record (error_file s) = true.

(** The part of [main] that comes before the summary. *)
Definition sweep_of_main (env : Env) (args : Args) : M unit :=
  check_required_commands env ;;
  ensure_root env ;;
  mode <- select_mode args ;;
  log_info env ("Starting disk checks in '" ++ mode_name mode ++ "' mode.") ;;
  disks <- get_external_disks env ;;
  check_all env mode disks.

(** A call of [diskutil]. *)
Definition is_diskutil (c : call) : bool :=
  match c with
  | Which _ | ReadErrorLog | AppendErrorLog => false
  | _ => true
  end.

(** The partitions [is_system_disk] compares a disk with, and its test. *)
Definition system_partitions (out : string) : list string :=
  map first_word (filter is_partition_line (splitlines out)).

Definition listed_as_system (out d : string) : bool :=
  existsb (fun sys_disk => startswith d sys_disk) (system_partitions out).

(** A name that starts with ["/dev/disk"] and holds no blank. *)
Definition device_path (d : string) : Prop :=
  startswith "/dev/disk" d = true /\ no_blank d = true.

(** The ways [main] ends once its start-up has returned. *)
Definition main_end (e : exn) : Prop :=
  e = SystemExit (ExitCode 0) \/
  e = SystemExit (ExitMsg "Missing required commands. Check error logs for details.") \/
  e = SystemExit (ExitMsg "Insufficient permissions. Exiting.") \/
  e = IndexError \/
  e = EOFError.

(** The error log ends with one summary, which follows records only and
    recommends according to them. *)
Definition closed_log (s : State) : Prop :=
  exists recs,
    forallb is_record recs = true /\
    error_file s = recs ++ [SummaryHeader; recommendation (error_channel s)].

(** An internal disk holds the system; the external disk is another one. *)
Definition world_internal (h : list event) (c : call) : result :=
  match c with
  | ListExternal => Ok listing_one
  | ListAll => Ok ("/dev/disk1s1 Apple_APFS Container disk3" ++ nl)
  | Info _ => Ok (info_of "apfs" "Yes")
  | _ => Ok EmptyString
  end.

(** Steps that keep the property [I] of the state. *)
Definition keeps (I : State -> Prop) (s s' : State) : Prop := I s -> I s'.

(** The history grows by calls among [okc], and the list changes for the
    disks among [okd] only. *)
Definition frame_within (okc : call -> Prop) (okd : string -> Prop)
           (s s' : State) : Prop :=
  within okc s s' /\
  forall x, ~ okd x ->
            count_occ string_dec (UNMOUNTED_DISKS s') x =
            count_occ string_dec (UNMOUNTED_DISKS s) x.

(** No summary has been written and the done-flag is not set. *)
Definition unsummarised (s : State) : Prop :=
  only_records s /\ CLEANUP_DONE s = false.

(** The first run of characters that are not blanks, for a text that
    starts with one. *)
Fixpoint word_of (s : string) : string :=
  match s with
  | EmptyString => EmptyString
  | String c s' => if is_space c then EmptyString else String c (word_of s')
  end.

(** The events of the turn of the disk [d]: its [diskutil info] first,
    then commands on [d] only. *)
Definition turn_of (d : string) (evs : list event) : Prop :=
  exists r rest,
    evs = (Info d, r) :: rest /\
    Forall (fun ev => target (fst ev) = Some d) rest.

(** The standard input and output are left alone. *)
Definition silent (s s' : State) : Prop :=
  stdin s' = stdin s /\ stdout s' = stdout s.

(** [unmount_disk] in normal mode, for a mounted disk, up to the return
    of the unmount command (source lines 175 to 186): the state in which
    a signal finds the run before the append of line 188. *)
Definition unmount_disk_command (env : Env) (disk : string) : M result :=
  run_cmd env (Info disk) ;;
  log_info env (disk ++ " is mounted. Attempting to unmount...") ;;
  run_cmd env (UnmountDisk disk).

(** [cleanup] with the flag unset, up to the end of its loop (source
    lines 262 to 264). *)
Definition cleanup_sweep (env : Env) : M unit :=
  log_info env "Script interrupted or exiting. Performing cleanup." ;;
  copy <- get UNMOUNTED_DISKS ;;
  remount_all env copy.

(** The end of [main] up to its summary (source lines 364 to 368), before
    the flag is set on line 371. *)
Definition finish_summary (env : Env) : M unit :=
  log_info env "----------------------------------------" ;;
  log_info env "Disk Check Completed." ;;
  append_summary env.

(* ================================================================== *)
(** * Facts on the string primitives *)
(* ================================================================== *)

Lemma prefix_append (p s : string) : String.prefix p (p ++ s) = true.
Proof.
  induction p as [|c p IH]; simpl.
  - destruct s; reflexivity.
  - destruct (ascii_dec c c) as [_|N]; [exact IH | now elim N].
Qed.

Lemma contains_prefix (sub s : string) :
  String.prefix sub s = true -> contains sub s = true.
Proof. intros H. destruct s; cbn [contains]; rewrite H; reflexivity. Qed.

Lemma contains_skip (sub a s : string) :
  contains sub s = true -> contains sub (a ++ s) = true.
Proof.
  intros H. induction a as [|c a IH]; simpl; [exact H|].
  rewrite IH. apply orb_true_r.
Qed.

Lemma contains_middle (sub a b : string) : contains sub (a ++ sub ++ b) = true.
Proof. apply contains_skip, contains_prefix, prefix_append. Qed.

Lemma has_char_append (c : ascii) (a b : string) :
  has_char c (a ++ b) = has_char c a || has_char c b.
Proof.
  unfold has_char. induction a as [|x a IH]; simpl; [reflexivity|].
  rewrite IH. apply orb_assoc.
Qed.

(** A text without the letter E does not hold the word ERROR. *)
Lemma no_E_no_ERROR (s : string) :
  has_char "E" s = false -> contains "ERROR" s = false.
Proof.
  unfold has_char. induction s as [|c s IH]; intros H; [reflexivity|].
  cbn [list_ascii_of_string existsb] in H.
  apply orb_false_iff in H. destruct H as [Hc Hs].
  cbn [contains]. rewrite (IH Hs), orb_false_r.
  cbn [String.prefix]. destruct (ascii_dec "E" c) as [E|_]; [|reflexivity].
  subst c. rewrite Ascii.eqb_refl in Hc. discriminate Hc.
Qed.

Lemma concat_empty_cons (x : string) (xs : list string) :
  String.concat EmptyString (x :: xs) = (x ++ String.concat EmptyString xs)%string.
Proof.
  destruct xs as [|y ys]; simpl; [|reflexivity].
  induction x as [|c x IH]; simpl; [reflexivity | now rewrite <- IH].
Qed.

Lemma render_record_has_ERROR (t m : string) :
  contains "ERROR" (render (ErrorRecord t m)) = true.
Proof.
  unfold render. change (" - ERROR - " ++ m ++ nl)%string
    with (" - " ++ "ERROR" ++ (" - " ++ m ++ nl))%string.
  apply contains_skip. apply contains_skip. apply contains_prefix, prefix_append.
Qed.

Lemma contains_append_l (sub a b : string) :
  contains sub a = true -> contains sub (a ++ b) = true.
Proof.
  assert (P : forall p x y, String.prefix p x = true -> String.prefix p (x ++ y) = true).
  { induction p as [|c p IH]; intros x y H; [destruct (x ++ y)%string; reflexivity|].
    destruct x as [|d x]; simpl in *; [discriminate|].
    destruct (ascii_dec c d); [now apply IH | discriminate]. }
  induction a as [|c a IH]; intros H.
  - cbn [contains] in H. rewrite orb_false_r in H. cbn [String.append].
    apply contains_prefix.
    destruct sub; [destruct b; reflexivity | discriminate H].
  - cbn [contains] in H. apply orb_true_iff in H.
    cbn [String.append contains]. destruct H as [H|H].
    + pose proof (P _ _ b H) as H'. cbn [String.append] in H'.
      rewrite H'. reflexivity.
    + rewrite (IH H). apply orb_true_r.
Qed.

(** The test of [append_summary] on the text of the file is a test on
    the errors-only channel. *)
Lemma content_has_ERROR (l : list chunk) :
  contains "ERROR" (String.concat EmptyString (map render l)) =
  match flat_map (fun c => match c with ErrorRecord _ m => [m] | _ => [] end) l with
  | [] => false
  | _ :: _ => true
  end.
Proof.
  assert (Clean : forall l',
            flat_map (fun c => match c with ErrorRecord _ m => [m] | _ => [] end) l' = [] ->
            has_char "E" (String.concat EmptyString (map render l')) = false).
  { induction l' as [|c l' IH]; intros H; [reflexivity|].
    cbn [map]. rewrite concat_empty_cons, has_char_append.
    destruct c; cbn [flat_map app] in H; try discriminate H;
      rewrite (IH H), orb_false_r; vm_compute; reflexivity. }
  induction l as [|c l IH]; [reflexivity|].
  cbn [map]. rewrite concat_empty_cons.
  destruct c as [t m| | |]; cbn [flat_map app].
  - apply contains_append_l, render_record_has_ERROR.
  - destruct (flat_map _ l) eqn:E.
    + apply no_E_no_ERROR. rewrite has_char_append, (Clean l E). vm_compute; reflexivity.
    + apply contains_skip. exact IH.
  - destruct (flat_map _ l) eqn:E.
    + apply no_E_no_ERROR. rewrite has_char_append, (Clean l E). vm_compute; reflexivity.
    + apply contains_skip. exact IH.
  - destruct (flat_map _ l) eqn:E.
    + apply no_E_no_ERROR. rewrite has_char_append, (Clean l E). vm_compute; reflexivity.
    + apply contains_skip. exact IH.
Qed.

(* ================================================================== *)
(** * Running the monad *)
(* ================================================================== *)

Lemma bind_ret {A B} (m : M A) (k : A -> M B) (s s' : State) (a : A) :
  m s = (Ret a, s') -> bind m k s = k a s'.
Proof. intros H. unfold bind. rewrite H. reflexivity. Qed.

Lemma bind_raise {A B} (m : M A) (k : A -> M B) (s s' : State) (e : exn) :
  m s = (Raise e, s') -> bind m k s = (Raise e, s').
Proof. intros H. unfold bind. rewrite H. reflexivity. Qed.

Lemma bind_assoc {A B C} (m : M A) (f : A -> M B) (g : B -> M C) (s : State) :
  bind (bind m f) g s = bind m (fun a => bind (f a) g) s.
Proof. unfold bind. destruct (m s) as [[a|e] s']; reflexivity. Qed.

Lemma bind_ret_l {A B} (a : A) (k : A -> M B) (s : State) :
  bind (ret a) k s = k a s.
Proof. reflexivity. Qed.

Lemma bind_get {A B} (f : State -> A) (k : A -> M B) (s : State) :
  bind (get f) k s = k (f s) s.
Proof. reflexivity. Qed.

Lemma bind_modify {B} (f : State -> State) (k : unit -> M B) (s : State) :
  bind (modify f) k s = k tt (f s).
Proof. reflexivity. Qed.

Lemma bind_log_info {B} (env : Env) (msg : string) (k : unit -> M B) (s : State) :
  bind (log_info env msg) k s = k tt (snd (log_info env msg s)).
Proof. reflexivity. Qed.

Lemma bind_log_error {B} (env : Env) (msg : string) (k : unit -> M B) (s : State) :
  bind (log_error env msg) k s = k tt (snd (log_error env msg s)).
Proof. reflexivity. Qed.

Lemma bind_run_cmd {B} (env : Env) (c : call) (k : result -> M B) (s : State) :
  bind (run_cmd env c) k s =
  k (world env (trace s) c)
    (set_trace (trace s ++ [(c, world env (trace s) c)]) s).
Proof. reflexivity. Qed.

Lemma snd_bind_raise {A B} (m : M A) (e : exn) (s : State) :
  snd (bind m (fun _ => @raise B e) s) = snd (m s).
Proof. unfold bind. destruct (m s) as [[a|e'] s']; reflexivity. Qed.

Lemma fst_bind_raise {A B} (m : M A) (e : exn) (s : State) (a : A) :
  fst (m s) = Ret a -> fst (bind m (fun _ => @raise B e) s) = Raise e.
Proof. unfold bind. destruct (m s) as [[a'|e'] s']; cbn; [reflexivity | discriminate]. Qed.

Lemma bind_fst_ret {A B} (m : M A) (k : A -> M B) (s : State) (a : A) :
  fst (m s) = Ret a -> bind m k s = k a (snd (m s)).
Proof. unfold bind. destruct (m s) as [r s']. cbn. intros ->. reflexivity. Qed.

Lemma bind_fst_raise {A B} (m : M A) (k : A -> M B) (s : State) (e : exn) :
  fst (m s) = Raise e -> bind m k s = (Raise e, snd (m s)).
Proof. unfold bind. destruct (m s) as [r s']. cbn. intros ->. reflexivity. Qed.

Lemma total_fst {A} (m : M A) (s : State) :
  total m -> exists a, fst (m s) = Ret a.
Proof.
  intros T. specialize (T s). destruct (fst (m s)) as [a|e].
  - exists a. reflexivity.
  - destruct (T e eq_refl).
Qed.

Lemma total_ret {A} (m : M A) (s : State) :
  total m -> exists a, m s = (Ret a, snd (m s)).
Proof.
  intros T. specialize (T s). destruct (m s) as [[a|e] s']; cbn in *.
  - exists a. reflexivity.
  - destruct (T e eq_refl).
Qed.

Lemma total_bind_ret {A B} (m : M A) (k : A -> M B) (s : State) :
  total m -> exists a, m s = (Ret a, snd (m s)) /\ bind m k s = k a (snd (m s)).
Proof.
  intros T. destruct (total_ret m s T) as [a Ha]. exists a.
  split; [exact Ha|]. unfold bind. rewrite Ha. reflexivity.
Qed.

(** Unfolds the primitive operations of the script. *)
Ltac unfold_ops :=
  unfold log_error, log_info, spec_write, error_write, file_write, print,
    remove_unmounted, command_exists, run_cmd, modify, get, raise, ret, bind,
    now in *.

(** Computes the fields of a state built by the setters. *)
Ltac proj :=
  cbn [fst snd UNMOUNTED_DISKS CLEANUP_DONE trace spec_log error_file stdin stdout
       set_UNMOUNTED_DISKS set_CLEANUP_DONE set_trace set_spec_log set_error_file
       set_stdin set_stdout negb is_dry] in *.

Ltac exec := unfold_ops; proj.

(** ** Steps along a preorder on states *)

Section Steps.

Variable env : Env.
Variable R : State -> State -> Prop.

Hypothesis R_refl : forall s, R s s.
Hypothesis R_trans : forall a b c, R a b -> R b c -> R a c.

Lemma steps_ret {A} (a : A) : steps R (ret a).
Proof. intros s. apply R_refl. Qed.

Lemma steps_raise {A} (e : exn) : steps R (@raise A e).
Proof. intros s. apply R_refl. Qed.

Lemma steps_get {A} (f : State -> A) : steps R (get f).
Proof. intros s. apply R_refl. Qed.

Lemma steps_bind {A B} (m : M A) (k : A -> M B) :
  steps R m -> (forall a, steps R (k a)) -> steps R (bind m k).
Proof.
  intros Hm Hk s. unfold bind. specialize (Hm s).
  destruct (m s) as [[a|e] s']; cbn in *; [|exact Hm].
  eapply R_trans; [exact Hm | apply Hk].
Qed.

Hypothesis R_spec : forall l msg, steps R (spec_write env l msg).
Hypothesis R_error : forall msg, steps R (error_write env msg).
Hypothesis R_print : forall t, steps R (print t).
Hypothesis R_stdin : forall l, steps R (modify (set_stdin l)).
Hypothesis R_query : forall c, is_mutating c = false -> steps R (run_cmd env c).

Lemma steps_log_info (msg : string) : steps R (log_info env msg).
Proof. apply R_spec. Qed.

Lemma steps_log_error (msg : string) : steps R (log_error env msg).
Proof. apply steps_bind; [apply R_error | intros; apply R_spec]. Qed.

(** Breaks a goal [steps R m] along the structure of [m]. *)
Ltac steps_tac :=
  repeat first
    [ apply steps_ret | apply steps_raise | apply steps_get
    | apply steps_log_info | apply steps_log_error | apply R_print | apply R_stdin
    | apply R_query; reflexivity
    | apply steps_bind; [|intros]
    | match goal with
      | |- steps _ (match ?x with _ => _ end) => destruct x
      end ].

Lemma steps_command_exists (c : string) : steps R (command_exists env c).
Proof. unfold command_exists. steps_tac. Qed.

Lemma steps_find_missing (cmds acc : list string) :
  steps R (find_missing env cmds acc).
Proof.
  revert acc. induction cmds as [|c cmds IH]; intros acc; cbn [find_missing].
  - steps_tac.
  - apply steps_bind; [apply steps_command_exists|]. intros ok.
    destruct (negb ok); apply IH.
Qed.

Lemma steps_log_missing (l : list string) : steps R (log_missing env l).
Proof. induction l as [|c l IH]; cbn [log_missing]; steps_tac. exact IH. Qed.

Lemma steps_check_required_commands : steps R (check_required_commands env).
Proof.
  unfold check_required_commands.
  apply steps_bind; [apply steps_find_missing|]. intros l.
  destruct l; steps_tac. apply steps_log_missing.
Qed.

Lemma steps_ensure_root : steps R (ensure_root env).
Proof. unfold ensure_root. steps_tac. Qed.

Lemma steps_get_filesystem (d : string) : steps R (get_filesystem env d).
Proof. unfold get_filesystem. steps_tac. Qed.

Lemma steps_is_system_disk (d : string) : steps R (is_system_disk env d).
Proof. unfold is_system_disk. steps_tac. Qed.

Lemma steps_collect_disks (lines acc : list string) :
  steps R (collect_disks env lines acc).
Proof.
  revert acc. induction lines as [|l lines IH]; intros acc; cbn [collect_disks].
  - steps_tac.
  - destruct (startswith "/dev/disk" l); [|apply IH].
    apply steps_bind; [apply steps_is_system_disk|]. intros b.
    destruct (negb b); apply IH.
Qed.

Lemma steps_get_external_disks : steps R (get_external_disks env).
Proof.
  unfold get_external_disks. steps_tac. apply steps_collect_disks.
Qed.

Lemma steps_print_all (l : list string) : steps R (print_all l).
Proof. induction l as [|t l IH]; cbn [print_all]; steps_tac. exact IH. Qed.

Lemma steps_menu_loop (lines : list string) : steps R (menu_loop lines).
Proof.
  induction lines as [|l lines IH]; cbn [menu_loop].
  - steps_tac; try apply steps_print_all.
  - apply steps_bind; [apply steps_print_all|]. intros _.
    apply steps_bind; [apply R_print|]. intros _.
    apply steps_bind; [apply R_stdin|]. intros _.
    repeat match goal with |- steps _ (if ?b then _ else _) => destruct b end;
      steps_tac. exact IH.
Qed.

Lemma steps_show_interactive_menu : steps R show_interactive_menu.
Proof.
  unfold show_interactive_menu. apply steps_bind; [apply steps_get|].
  intros l. apply steps_menu_loop.
Qed.






Hypothesis R_file : forall c, steps R (file_write c).

Lemma steps_append_summary : steps R (append_summary env).
Proof.
  unfold append_summary. steps_tac; apply R_file.
Qed.

End Steps.

(** ** Which exceptions a function may raise *)

Lemma may_raise_ret {A} (P : exn -> Prop) (a : A) : may_raise P (ret a).
Proof. intros s e H. discriminate H. Qed.

Lemma may_raise_get {A} (P : exn -> Prop) (f : State -> A) : may_raise P (get f).
Proof. intros s e H. discriminate H. Qed.

Lemma may_raise_modify (P : exn -> Prop) (f : State -> State) : may_raise P (modify f).
Proof. intros s e H. discriminate H. Qed.

Lemma may_raise_raise {A} (P : exn -> Prop) (e : exn) : P e -> may_raise P (@raise A e).
Proof. intros H s e' E. injection E as <-. exact H. Qed.

Lemma may_raise_bind {A B} (P : exn -> Prop) (m : M A) (k : A -> M B) :
  may_raise P m -> (forall a, may_raise P (k a)) -> may_raise P (bind m k).
Proof.
  intros Hm Hk s e. unfold bind. specialize (Hm s).
  destruct (m s) as [[a|e'] s']; cbn in *.
  - apply Hk.
  - intros E. injection E as <-. apply Hm. reflexivity.
Qed.

Lemma may_raise_weaken {A} (P Q : exn -> Prop) (m : M A) :
  (forall e, P e -> Q e) -> may_raise P m -> may_raise Q m.
Proof. intros H Hm s e E. apply H, (Hm s e E). Qed.

Section Raises.

Variable env : Env.
Variable P : exn -> Prop.

Lemma may_raise_run_cmd (c : call) : may_raise P (run_cmd env c).
Proof. intros s e H. discriminate H. Qed.

Lemma may_raise_log_info (msg : string) : may_raise P (log_info env msg).
Proof. intros s e H. discriminate H. Qed.

Lemma may_raise_log_error (msg : string) : may_raise P (log_error env msg).
Proof. intros s e H. discriminate H. Qed.

Lemma may_raise_print (t : string) : may_raise P (print t).
Proof. intros s e H. discriminate H. Qed.

Lemma may_raise_file_write (c : chunk) : may_raise P (file_write c).
Proof. intros s e H. discriminate H. Qed.

(** Breaks a goal [may_raise P m] along the structure of [m]. *)
Ltac raise_tac :=
  repeat first
    [ apply may_raise_ret | apply may_raise_get | apply may_raise_modify
    | apply may_raise_log_info | apply may_raise_log_error
    | apply may_raise_print | apply may_raise_file_write
    | apply may_raise_run_cmd
    | apply may_raise_bind; [|intros]
    | match goal with
      | |- may_raise _ (match ?x with _ => _ end) => destruct x
      end ].

Lemma may_raise_command_exists (c : string) : may_raise P (command_exists env c).
Proof. unfold command_exists. raise_tac. Qed.

Lemma may_raise_find_missing (cmds acc : list string) :
  may_raise P (find_missing env cmds acc).
Proof.
  revert acc. induction cmds as [|c cmds IH]; intros acc; cbn [find_missing].
  - apply may_raise_ret.
  - apply may_raise_bind; [apply may_raise_command_exists|]. intros ok.
    destruct (negb ok); apply IH.
Qed.

Lemma may_raise_log_missing (l : list string) : may_raise P (log_missing env l).
Proof.
  induction l as [|c l IH]; cbn [log_missing].
  - apply may_raise_ret.
  - apply may_raise_bind; [apply may_raise_log_error | intros _; exact IH].
Qed.

Lemma may_raise_is_system_disk (d : string) : may_raise P (is_system_disk env d).
Proof. unfold is_system_disk. raise_tac. Qed.

Lemma may_raise_collect_disks (lines acc : list string) :
  may_raise P (collect_disks env lines acc).
Proof.
  revert acc. induction lines as [|l lines IH]; intros acc; cbn [collect_disks].
  - apply may_raise_ret.
  - destruct (startswith "/dev/disk" l); [|apply IH].
    apply may_raise_bind; [apply may_raise_is_system_disk|]. intros b.
    destruct (negb b); apply IH.
Qed.

Lemma may_raise_get_external_disks : may_raise P (get_external_disks env).
Proof.
  unfold get_external_disks.
  apply may_raise_bind; [apply may_raise_run_cmd|]. intros [out|e].
  - apply may_raise_bind; [apply may_raise_collect_disks|]. intros l. raise_tac.
  - raise_tac.
Qed.

Lemma may_raise_unmount_disk (d : string) (mode : run_mode) :
  may_raise P (unmount_disk env d mode).
Proof. unfold unmount_disk. raise_tac. Qed.

Lemma may_raise_verify_filesystem (d fs : string) (mode : run_mode) :
  may_raise P (verify_filesystem env d fs mode).
Proof. unfold verify_filesystem. raise_tac. Qed.

Lemma may_raise_append_summary : may_raise P (append_summary env).
Proof. unfold append_summary. raise_tac. Qed.

(** [get_filesystem] raises nothing but the [IndexError] of a type line
    without a colon. *)
Lemma may_raise_get_filesystem (d : string) :
  P IndexError -> may_raise P (get_filesystem env d).
Proof.
  intros H. unfold get_filesystem.
  raise_tac. apply may_raise_raise. exact H.
Qed.

End Raises.

(* ================================================================== *)
(** * The list that holds the Unmounted-Set *)
(* ================================================================== *)

Lemma in_list_In (x : string) (l : list string) : in_list x l = true <-> In x l.
Proof.
  unfold in_list. rewrite existsb_exists. split.
  - intros [y [Hy E]]. apply String.eqb_eq in E. now subst y.
  - intros H. exists x. split; [exact H | apply String.eqb_refl].
Qed.

Lemma in_list_snoc (x : string) (l : list string) : in_list x (l ++ [x]) = true.
Proof. apply in_list_In, in_or_app. right. left. reflexivity. Qed.

Lemma list_remove_In (x : string) (l : list string) :
  In x l -> exists l', list_remove x l = Some l'.
Proof.
  induction l as [|y l IH]; intros H; [destruct H|]. cbn [list_remove].
  destruct (String.eqb y x) eqn:E; [eexists; reflexivity|].
  destruct H as [H|H]; [subst y; rewrite String.eqb_refl in E; discriminate E|].
  destruct (IH H) as [l' Hl']. rewrite Hl'. eexists; reflexivity.
Qed.

(** Removing takes one occurrence away and leaves the others. *)
Lemma list_remove_count (x : string) (l l' : list string) :
  list_remove x l = Some l' ->
  forall y, count_occ string_dec l y =
            (count_occ string_dec l' y + if string_dec x y then 1 else 0)%nat.
Proof.
  revert l'. induction l as [|z l IH]; intros l' H y; [discriminate H|].
  cbn [list_remove] in H. destruct (String.eqb z x) eqn:E.
  - apply String.eqb_eq in E. subst z. injection H as <-.
    cbn [count_occ]. destruct (string_dec x y); lia.
  - destruct (list_remove x l) as [r|] eqn:Hr; [|discriminate H].
    injection H as <-. specialize (IH r eq_refl y).
    cbn [count_occ]. destruct (string_dec z y); lia.
Qed.

Lemma list_remove_NoDup (x : string) (l l' : list string) :
  list_remove x l = Some l' -> NoDup l ->
  NoDup l' /\ forall y, In y l' <-> In y l /\ y <> x.
Proof.
  intros H N. pose proof (list_remove_count x l l' H) as C.
  assert (N' : NoDup l').
  { apply (NoDup_count_occ string_dec). intros y.
    apply (proj1 (NoDup_count_occ string_dec l)) with (x := y) in N.
    specialize (C y). lia. }
  split; [exact N'|]. intros y. specialize (C y).
  rewrite (count_occ_In string_dec l' y), (count_occ_In string_dec l y).
  pose proof (proj1 (NoDup_count_occ string_dec l) N y) as B.
  destruct (string_dec x y) as [E|E].
  - subst y. split; [lia | intros [_ F]; now elim F].
  - split; [intros G; split; [lia | congruence] | intros [G _]; lia].
Qed.

Lemma list_remove_snoc_fresh (x : string) (l : list string) :
  ~ In x l -> list_remove x (l ++ [x]) = Some l.
Proof.
  induction l as [|y l IH]; intros H; cbn [list_remove app].
  - rewrite String.eqb_refl. reflexivity.
  - destruct (String.eqb y x) eqn:E.
    + apply String.eqb_eq in E. subst y. elim H. left. reflexivity.
    + rewrite IH; [reflexivity|]. intros G. apply H. right. exact G.
Qed.

(* ================================================================== *)
(** * Reading the history *)
(* ================================================================== *)

Lemma pending_snoc (d : string) (t : list event) (ev : event) :
  pending d (t ++ [ev]) = pending_step d (pending d t) ev.
Proof. unfold pending. rewrite fold_left_app. reflexivity. Qed.

Lemma pending_step_true (d : string) (b : bool) (ev : event) :
  pending_step d b ev = true <->
  (exists o, ev = (UnmountDisk d, Ok o)) \/
  (b = true /\ forall o, ev <> (MountDisk d, Ok o)).
Proof.
  destruct ev as [c r]. unfold pending_step.
  destruct c as [x| | |x|x|x|x|x| |]; destruct r as [o|e];
    try (split; [intros H; right; split; [exact H | intros o' E; discriminate E]
                | intros [[o' E]|[H _]]; [discriminate E | exact H]]).
  - destruct (String.eqb x d) eqn:E.
    + apply String.eqb_eq in E. subst x. split; [|reflexivity].
      intros _. left. exists o. reflexivity.
    + split.
      * intros H. right. split; [exact H | intros o' F; discriminate F].
      * intros [[o' F]|[H _]]; [|exact H].
        injection F as -> _. rewrite String.eqb_refl in E. discriminate E.
  - destruct (String.eqb x d) eqn:E.
    + apply String.eqb_eq in E. subst x. split; [discriminate|].
      intros [[o' F]|[_ H]]; [discriminate F | elim (H o); reflexivity].
    + split.
      * intros H. right. split; [exact H|]. intros o' F.
        injection F as -> _. rewrite String.eqb_refl in E. discriminate E.
      * intros [[o' F]|[H _]]; [discriminate F | exact H].
Qed.

(** The computed reading of the history is the stated one. *)
Lemma pending_spec (d : string) (t : list event) :
  pending d t = true <-> unmounted_by_run d t.
Proof.
  induction t as [|ev t IH] using rev_ind.
  - split; [discriminate|]. intros [t1 [o [t2 [E _]]]].
    destruct t1; discriminate E.
  - rewrite pending_snoc, pending_step_true. split.
    + intros [[o E]|[B N]].
      * subst ev. exists t, o, []. split; [reflexivity | intros o' []].
      * apply IH in B. destruct B as [t1 [o [t2 [E F]]]]. subst t.
        exists t1, o, (t2 ++ [ev]). split; [now rewrite <- app_assoc|].
        intros o' G. apply in_app_or in G. destruct G as [G|[G|[]]].
        -- exact (F o' G).
        -- exact (N o' G).
    + intros [t1 [o [t2 [E F]]]].
      destruct t2 as [|ev' t2 _] using rev_ind.
      * apply app_inj_tail in E. destruct E as [_ E]. left. exists o. exact E.
      * right. change (t1 ++ (UnmountDisk d, Ok o) :: t2 ++ [ev'])
          with (t1 ++ ((UnmountDisk d, Ok o) :: t2) ++ [ev']) in E.
        rewrite app_assoc in E. apply app_inj_tail in E. destruct E as [E1 E2].
        subst ev'. split.
        -- apply IH. exists t1, o, t2. split; [exact E1|].
           intros o' G. apply (F o'). apply in_or_app. left. exact G.
        -- intros o' G. apply (F o'). apply in_or_app. right. left. exact G.
Qed.

(** A call that is neither a successful unmount nor a successful remount
    leaves the reading as it is. *)
Lemma pending_step_neutral (d : string) (b : bool) (ev : event) :
  moves_disk ev = false -> pending_step d b ev = b.
Proof.
  destruct ev as [c r]. destruct c; destruct r; cbn; try reflexivity; discriminate.
Qed.

(* ================================================================== *)
(** * The Unmounted-Set along a run *)
(* ================================================================== *)

Lemma set_invariant_pending (s : State) :
  set_invariant s <->
  NoDup (UNMOUNTED_DISKS s) /\
  forall d, In d (UNMOUNTED_DISKS s) <-> pending d (trace s) = true.
Proof.
  unfold set_invariant. split; intros [N H]; (split; [exact N|]); intros d;
    rewrite (H d); [symmetry|]; apply pending_spec.
Qed.

Lemma same_set_invariant (s s' : State) :
  same_set s s' -> set_invariant s -> set_invariant s'.
Proof.
  intros [U P] I. apply set_invariant_pending in I. apply set_invariant_pending.
  rewrite U. destruct I as [N H]. split; [exact N|].
  intros d. rewrite P. apply H.
Qed.

Section SetSteps.

Variable env : Env.

Lemma same_set_refl (s : State) : same_set s s.
Proof. split; reflexivity. Qed.

Lemma same_set_trans (a b c : State) : same_set a b -> same_set b c -> same_set a c.
Proof.
  intros [U1 P1] [U2 P2]. split; [congruence|].
  intros d. rewrite P2. apply P1.
Qed.

Lemma same_set_run_cmd (c : call) :
  (forall r, moves_disk (c, r) = false) -> steps same_set (run_cmd env c).
Proof.
  intros H s. split; [reflexivity|]. intros d.
  unfold run_cmd. cbn [snd trace set_trace].
  rewrite pending_snoc. apply pending_step_neutral, H.
Qed.

Lemma same_set_spec (l : level) (msg : string) : steps same_set (spec_write env l msg).
Proof. intros s. split; reflexivity. Qed.

Lemma same_set_error (msg : string) : steps same_set (error_write env msg).
Proof. intros s. split; reflexivity. Qed.

Lemma same_set_print (t : string) : steps same_set (print t).
Proof. intros s. split; reflexivity. Qed.

Lemma same_set_stdin (l : list string) : steps same_set (modify (set_stdin l)).
Proof. intros s. split; reflexivity. Qed.

Lemma same_set_file (c : chunk) : steps same_set (file_write c).
Proof. intros s. split; reflexivity. Qed.

Lemma same_set_done (b : bool) : steps same_set (modify (set_CLEANUP_DONE b)).
Proof. intros s. split; reflexivity. Qed.

Lemma same_set_query (c : call) : is_mutating c = false -> steps same_set (run_cmd env c).
Proof.
  intros H. apply same_set_run_cmd. intros r.
  destruct c; try reflexivity; discriminate H.
Qed.

Lemma same_set_log_info (msg : string) : steps same_set (log_info env msg).
Proof. apply same_set_spec. Qed.

Lemma same_set_log_error (msg : string) : steps same_set (log_error env msg).
Proof. intros s. split; reflexivity. Qed.

(** Verification and repair do not change what is mounted by the run. *)
Lemma same_set_verify_filesystem (d fs : string) (mode : run_mode) :
  steps same_set (verify_filesystem env d fs mode).
Proof.
  unfold verify_filesystem.
  destruct (negb (in_list fs SUPPORTED_FILESYSTEMS)); [apply same_set_log_error|].
  destruct (is_dry mode); [apply same_set_log_info|].
  apply (steps_bind same_set same_set_trans); [apply same_set_log_info|]. intros _.
  apply (steps_bind same_set same_set_trans);
    [apply same_set_run_cmd; intros r; reflexivity|].
  intros [o|e]; [apply same_set_log_info|].
  apply (steps_bind same_set same_set_trans); [apply same_set_log_error|]. intros _.
  apply (steps_bind same_set same_set_trans); [apply same_set_log_info|]. intros _.
  apply (steps_bind same_set same_set_trans);
    [apply same_set_run_cmd; intros r; reflexivity|].
  intros [o|e']; [apply same_set_log_info | apply same_set_log_error].
Qed.

Lemma same_set_get_filesystem (d : string) : steps same_set (get_filesystem env d).
Proof. apply steps_get_filesystem;
    first [ exact same_set_refl | exact same_set_trans | exact same_set_spec
          | exact same_set_error | exact same_set_print | exact same_set_stdin
          | exact same_set_query | exact same_set_file ]. Qed.

Lemma same_set_get_external_disks : steps same_set (get_external_disks env).
Proof. apply steps_get_external_disks;
    first [ exact same_set_refl | exact same_set_trans | exact same_set_spec
          | exact same_set_error | exact same_set_print | exact same_set_stdin
          | exact same_set_query | exact same_set_file ]. Qed.

Lemma same_set_append_summary : steps same_set (append_summary env).
Proof. apply steps_append_summary;
    first [ exact same_set_refl | exact same_set_trans | exact same_set_spec
          | exact same_set_error | exact same_set_print | exact same_set_stdin
          | exact same_set_query | exact same_set_file ]. Qed.

Lemma same_set_check_required_commands : steps same_set (check_required_commands env).
Proof. apply steps_check_required_commands;
    first [ exact same_set_refl | exact same_set_trans | exact same_set_spec
          | exact same_set_error | exact same_set_print | exact same_set_stdin
          | exact same_set_query | exact same_set_file ]. Qed.

Lemma same_set_ensure_root : steps same_set (ensure_root env).
Proof. apply steps_ensure_root;
    first [ exact same_set_refl | exact same_set_trans | exact same_set_spec
          | exact same_set_error | exact same_set_print | exact same_set_stdin
          | exact same_set_query | exact same_set_file ]. Qed.

Lemma same_set_show_interactive_menu : steps same_set show_interactive_menu.
Proof. apply steps_show_interactive_menu;
    first [ exact same_set_refl | exact same_set_trans | exact same_set_spec
          | exact same_set_error | exact same_set_print | exact same_set_stdin
          | exact same_set_query | exact same_set_file ]. Qed.

End SetSteps.

Lemma invariant_after_unmount (d : string) (s s' : State) :
  set_invariant s -> ~ In d (UNMOUNTED_DISKS s) ->
  UNMOUNTED_DISKS s' = UNMOUNTED_DISKS s ++ [d] ->
  (forall x, pending x (trace s') =
             if String.eqb d x then true else pending x (trace s)) ->
  set_invariant s'.
Proof.
  intros I F U P. apply set_invariant_pending in I. destruct I as [N H].
  apply set_invariant_pending. rewrite U. split.
  - apply NoDup_app; repeat split; try assumption.
    + constructor; [intros [] | constructor].
    + intros x Hx [E|[]]. subst x. exact (F Hx).
  - intros x. rewrite P, in_app_iff. destruct (String.eqb d x) eqn:E.
    + apply String.eqb_eq in E. subst x. split; [reflexivity|].
      intros _. right. left. reflexivity.
    + rewrite <- H. split; [|intros G; left; exact G].
      intros [G|[G|[]]]; [exact G|]. subst x.
      rewrite String.eqb_refl in E. discriminate E.
Qed.

Lemma invariant_after_mount (d : string) (l : list string) (s s' : State) :
  set_invariant s -> list_remove d (UNMOUNTED_DISKS s) = Some l ->
  UNMOUNTED_DISKS s' = l ->
  (forall x, pending x (trace s') =
             if String.eqb d x then false else pending x (trace s)) ->
  set_invariant s'.
Proof.
  intros I L U P. apply set_invariant_pending in I. destruct I as [N H].
  destruct (list_remove_NoDup d _ l L N) as [N' M].
  apply set_invariant_pending. rewrite U. split; [exact N'|].
  intros x. rewrite P, M. destruct (String.eqb d x) eqn:E.
  - apply String.eqb_eq in E. subst x. split; [intros [_ G]; now elim G | discriminate].
  - rewrite <- H. split; [intros [G _]; exact G|].
    intros G. split; [exact G|]. intros ->.
    rewrite String.eqb_refl in E. discriminate E.
Qed.

Section SetInvariant.

Variable env : Env.

Ltac pend :=
  repeat rewrite pending_snoc;
  repeat (rewrite pending_step_neutral by reflexivity).

Lemma unmount_disk_invariant (d : string) (mode : run_mode) (s : State) :
  set_invariant s -> ~ In d (UNMOUNTED_DISKS s) ->
  set_invariant (snd (unmount_disk env d mode s)) /\
  incl (UNMOUNTED_DISKS (snd (unmount_disk env d mode s))) (d :: UNMOUNTED_DISKS s).
Proof.
  intros I F. unfold unmount_disk. exec.
  destruct (world env (trace s) (Info d)) as [out|e]; proj.
  2:{ split; [|apply incl_tl, incl_refl].
      eapply same_set_invariant; [|exact I]. split; [reflexivity|].
      intros x. proj. pend. reflexivity. }
  destruct (mounted_in (splitlines out)); proj.
  2:{ split; [|apply incl_tl, incl_refl].
      eapply same_set_invariant; [|exact I]. split; [reflexivity|].
      intros x. proj. pend. reflexivity. }
  destruct mode; proj.
  2:{ split; [|apply incl_tl, incl_refl].
      eapply same_set_invariant; [|exact I]. split; [reflexivity|].
      intros x. proj. pend. reflexivity. }
  destruct (world env (trace s ++ [(Info d, Ok out)]) (UnmountDisk d)) as [o|e]; proj.
  - split.
    + eapply (invariant_after_unmount d s); [exact I | exact F | reflexivity |].
      intros x. proj. pend. reflexivity.
    + intros x Hx. proj. apply in_app_or in Hx.
      destruct Hx as [Hx|[Hx|[]]]; [right; exact Hx | left; exact Hx].
  - split; [|apply incl_tl, incl_refl].
    eapply same_set_invariant; [|exact I]. split; [reflexivity|].
    intros x. proj. pend. reflexivity.
Qed.

Lemma mount_disk_invariant (d : string) (mode : run_mode) (s : State) :
  set_invariant s -> In d (UNMOUNTED_DISKS s) ->
  fst (mount_disk env d mode s) = Ret tt /\
  set_invariant (snd (mount_disk env d mode s)) /\
  incl (UNMOUNTED_DISKS (snd (mount_disk env d mode s))) (UNMOUNTED_DISKS s).
Proof.
  intros I F. unfold mount_disk. destruct mode; cbn [is_dry].
  2:{ exec. split; [reflexivity|]. split; [|apply incl_refl].
      eapply same_set_invariant; [|exact I]. split; reflexivity. }
  exec. destruct (world env (trace s) (MountDisk d)) as [o|e]; proj.
  - destruct (list_remove_In d _ F) as [l L]. rewrite L. proj.
    split; [reflexivity|]. split.
    + eapply (invariant_after_mount d l s); [exact I | exact L | reflexivity |].
      intros x. proj. pend. reflexivity.
    + apply set_invariant_pending in I. destruct I as [N _].
      destruct (list_remove_NoDup d _ l L N) as [_ M].
      intros x Hx. apply M in Hx. exact (proj1 Hx).
  - split; [reflexivity|]. split; [|apply incl_refl].
    eapply same_set_invariant; [|exact I]. split; [reflexivity|].
    intros x. proj. pend. reflexivity.
Qed.

Lemma check_classified_invariant (mode : run_mode) (d fs : string) (s : State) :
  set_invariant s -> ~ In d (UNMOUNTED_DISKS s) ->
  fst (check_classified env mode d fs s) = Ret tt /\
  set_invariant (snd (check_classified env mode d fs s)) /\
  incl (UNMOUNTED_DISKS (snd (check_classified env mode d fs s)))
       (d :: UNMOUNTED_DISKS s).
Proof.
  intros I F. unfold check_classified.
  destruct (String.eqb fs "unknown").
  { split; [reflexivity|]. split; [|apply incl_tl, incl_refl].
    eapply same_set_invariant; [apply same_set_log_error | exact I]. }
  destruct (unmount_disk_invariant d mode s I F) as [I1 U1].
  destruct (total_fst (unmount_disk env d mode) s (may_raise_unmount_disk env _ d mode))
    as [b Hb].
  rewrite (bind_fst_ret _ _ _ _ Hb).
  set (s1 := snd (unmount_disk env d mode s)) in *.
  destruct b; cbn [negb]; [|split; [reflexivity | split; assumption]].
  destruct (total_fst (verify_filesystem env d fs mode) s1
              (may_raise_verify_filesystem env _ d fs mode)) as [[] Hv].
  rewrite (bind_fst_ret _ _ _ _ Hv).
  pose proof (same_set_verify_filesystem env d fs mode s1) as V.
  set (s2 := snd (verify_filesystem env d fs mode s1)) in *.
  pose proof (same_set_invariant _ _ V I1) as I2.
  destruct V as [U2 _].
  rewrite bind_get.
  destruct (in_list d (UNMOUNTED_DISKS s2)) eqn:E.
  - apply in_list_In in E.
    destruct (mount_disk_invariant d mode s2 I2 E) as [Hm [I3 U3]].
    rewrite (bind_fst_ret _ _ _ _ Hm).
    set (s3 := snd (mount_disk env d mode s2)) in *.
    split; [reflexivity|]. split.
    + eapply same_set_invariant; [apply same_set_log_info | exact I3].
    + unfold log_info, spec_write. proj.
      intros x Hx. apply U1. rewrite <- U2. apply U3. exact Hx.
  - unfold bind, ret, log_info, spec_write. proj.
    split; [reflexivity|]. split.
    + eapply same_set_invariant; [|exact I2]. split; reflexivity.
    + rewrite U2. exact U1.
Qed.

Lemma check_disk_invariant (mode : run_mode) (d : string) (s : State) :
  set_invariant s -> ~ In d (UNMOUNTED_DISKS s) ->
  set_invariant (snd (check_disk env mode d s)) /\
  incl (UNMOUNTED_DISKS (snd (check_disk env mode d s))) (d :: UNMOUNTED_DISKS s).
Proof.
  intros I F. unfold check_disk.
  rewrite !bind_log_info.
  match goal with
  | |- context [bind (get_filesystem env d) _ ?s0] => set (s1 := s0)
  end.
  assert (I1 : set_invariant s1) by (eapply same_set_invariant; [|exact I]; split; reflexivity).
  assert (U1 : UNMOUNTED_DISKS s1 = UNMOUNTED_DISKS s) by reflexivity.
  clearbody s1.
  pose proof (same_set_get_filesystem env d s1) as G.
  pose proof (same_set_invariant _ _ G I1) as I2. destruct G as [U2 _].
  unfold bind. destruct (get_filesystem env d s1) as [[fs|e] s2]; cbn [snd] in *.
  - assert (F2 : ~ In d (UNMOUNTED_DISKS s2)) by (rewrite U2, U1; exact F).
    destruct (check_classified_invariant mode d fs s2 I2 F2) as [_ [I3 U3]].
    split; [exact I3|]. rewrite <- U1, <- U2. exact U3.
  - split; [exact I2|]. rewrite U2, U1. apply incl_tl, incl_refl.
Qed.

Lemma check_disks_invariant (mode : run_mode) (l : list string) (s : State) :
  set_invariant s -> NoDup l ->
  (forall d, In d l -> ~ In d (UNMOUNTED_DISKS s)) ->
  set_invariant (snd (check_disks env mode l s)).
Proof.
  revert s. induction l as [|d l IH]; intros s I N F; cbn [check_disks].
  - exact I.
  - inversion N as [|? ? Nd Nl]; subst.
    destruct (check_disk_invariant mode d s I (F d (or_introl eq_refl))) as [I1 U1].
    unfold bind. destruct (check_disk env mode d s) as [[[]|e] s1]; cbn [snd] in *;
      [|exact I1].
    apply IH; [exact I1 | exact Nl|].
    intros x Hx G. apply U1 in G. destruct G as [G|G].
    + subst x. exact (Nd Hx).
    + exact (F x (or_intror Hx) G).
Qed.

Lemma steps_invariant {A} (m : M A) (s : State) :
  steps same_set m -> set_invariant s -> set_invariant (snd (m s)).
Proof. intros H I. exact (same_set_invariant _ _ (H s) I). Qed.

(** The inventory keeps the order and the multiplicity of the listing. *)
Lemma collect_disks_NoDup (lines acc l : list string) (s : State) :
  NoDup (acc ++ map first_word (filter (startswith "/dev/disk") lines)) ->
  fst (collect_disks env lines acc s) = Ret l -> NoDup l.
Proof.
  revert acc s. induction lines as [|line rest IH]; intros acc s N H.
  - cbn in H. injection H as <-. rewrite app_nil_r in N. exact N.
  - cbn [collect_disks filter] in *.
    destruct (startswith "/dev/disk" line); [|exact (IH _ _ N H)].
    cbn [map] in N.
    destruct (total_fst (is_system_disk env (first_word line)) s
                (may_raise_is_system_disk env _ _)) as [b Hb].
    rewrite (bind_fst_ret _ _ _ _ Hb) in H.
    destruct b; cbn [negb] in H.
    + apply (IH _ _ (NoDup_remove_1 _ _ _ N) H).
    + refine (IH _ _ _ H). rewrite <- app_assoc. exact N.
Qed.

Lemma get_external_disks_NoDup (l : list string) (s : State) :
  distinct_listing env ->
  fst (get_external_disks env s) = Ret l -> NoDup l.
Proof.
  intros D. unfold get_external_disks. rewrite bind_run_cmd.
  destruct (world env (trace s) ListExternal) as [out|e] eqn:W.
  - match goal with
    | |- context [bind (collect_disks env _ _) _ ?s0] => set (s1 := s0)
    end.
    intros H.
    destruct (fst (collect_disks env (splitlines out) [] s1)) as [l'|e] eqn:C.
    + rewrite (bind_fst_ret _ _ _ _ C) in H. rewrite bind_log_info in H.
      injection H as <-.
      apply (collect_disks_NoDup (splitlines out) [] l' s1); [|exact C].
      exact (D _ _ W).
    + rewrite (bind_fst_raise _ _ _ _ C) in H. discriminate H.
  - rewrite bind_log_error. intros H. injection H as <-. constructor.
Qed.

Lemma same_set_finish : steps same_set (finish_run env).
Proof.
  unfold finish_run.
  repeat (apply (steps_bind same_set same_set_trans); [|intros _]);
    first [ apply same_set_log_info | apply same_set_append_summary
          | apply same_set_done | apply (steps_raise same_set same_set_refl) ].
Qed.

Lemma run_checks_invariant (mode : run_mode) (s : State) :
  distinct_listing env ->
  set_invariant s -> UNMOUNTED_DISKS s = [] ->
  set_invariant (snd (run_checks env mode s)).
Proof.
  intros D I U. unfold run_checks. rewrite bind_log_info.
  match goal with |- context [bind (get_external_disks env) _ ?s0] => set (s1 := s0) end.
  assert (I1 : set_invariant s1) by (eapply same_set_invariant; [|exact I]; split; reflexivity).
  assert (U1 : UNMOUNTED_DISKS s1 = []) by exact U.
  clearbody s1.
  destruct (total_fst (get_external_disks env) s1 (may_raise_get_external_disks env _))
    as [disks Hd].
  rewrite (bind_fst_ret _ _ _ _ Hd).
  pose proof (get_external_disks_NoDup disks s1 D Hd) as N.
  pose proof (same_set_get_external_disks env s1) as G.
  pose proof (same_set_invariant _ _ G I1) as I2. destruct G as [U2 _].
  set (s2 := snd (get_external_disks env s1)) in *.
  assert (I3 : set_invariant (snd (check_all env mode disks s2))).
  { destruct disks as [|d l].
    - eapply same_set_invariant; [|exact I2]. split; reflexivity.
    - apply check_disks_invariant; [exact I2 | exact N|].
      intros x _. rewrite U2, U1. intros []. }
  unfold bind at 1.
  destruct (check_all env mode disks s2) as [[[]|e] s3]; cbn [snd] in I3; [|exact I3].
  apply steps_invariant; [apply same_set_finish | exact I3].
Qed.

Lemma main_invariant (args : Args) (s : State) :
  distinct_listing env ->
  set_invariant s -> UNMOUNTED_DISKS s = [] ->
  set_invariant (snd (main env args s)).
Proof.
  intros D I U. unfold main.
  assert (B : forall A (m : M A) (k : A -> M unit) s0,
             steps same_set m ->
             (forall a s1, set_invariant s1 -> UNMOUNTED_DISKS s1 = [] ->
                           set_invariant (snd (k a s1))) ->
             set_invariant s0 -> UNMOUNTED_DISKS s0 = [] ->
             set_invariant (snd (bind m k s0))).
  { intros A m k s0 Hm Hk I0 U0. unfold bind.
    pose proof (Hm s0) as S. pose proof (same_set_invariant _ _ S I0) as I1.
    destruct S as [U1 _].
    destruct (m s0) as [[a|e] s1]; cbn [snd] in *; [|exact I1].
    apply Hk; [exact I1 | congruence]. }
  apply B; [apply same_set_check_required_commands | | exact I | exact U].
  intros _ s1 I1 U1.
  apply B; [apply same_set_ensure_root | | exact I1 | exact U1].
  intros _ s2 I2 U2.
  apply B; [ | | exact I2 | exact U2].
  - unfold select_mode.
    destruct (non_interactive args); [apply (steps_ret same_set same_set_refl)|].
    destruct (dry_run args); [apply (steps_ret same_set same_set_refl)|].
    apply (same_set_show_interactive_menu env).
  - intros mode s3 I3 U3. apply run_checks_invariant; assumption.
Qed.

Lemma remount_all_invariant (l : list string) (s : State) :
  set_invariant s -> NoDup l -> incl l (UNMOUNTED_DISKS s) ->
  fst (remount_all env l s) = Ret tt /\
  set_invariant (snd (remount_all env l s)).
Proof.
  revert s. induction l as [|d l IH]; intros s I N F; cbn [remount_all].
  - split; [reflexivity | exact I].
  - inversion N as [|? ? Nd Nl]; subst.
    assert (Hd : In d (UNMOUNTED_DISKS s)) by (apply F; left; reflexivity).
    destruct (mount_disk_invariant d normal s I Hd) as [Hm [I1 U1]].
    rewrite (bind_fst_ret _ _ _ _ Hm).
    apply IH; [exact I1 | exact Nl|].
    intros x Hx.
    assert (Hs : In x (UNMOUNTED_DISKS s)) by (apply F; right; exact Hx).
    (* the remount of [d] leaves the other disks in the list *)
    clear IH Hm I1 U1. unfold mount_disk. cbn [is_dry]. exec.
    destruct (world env (trace s) (MountDisk d)) as [o|e]; proj; [|exact Hs].
    destruct (list_remove_In d _ Hd) as [l' L]. rewrite L. proj.
    apply set_invariant_pending in I. destruct I as [N0 _].
    apply (proj2 (list_remove_NoDup d _ l' L N0)). split; [exact Hs|].
    intros ->. exact (Nd Hx).
Qed.

Lemma cleanup_invariant (s : State) :
  set_invariant s -> set_invariant (snd (cleanup env s)).
Proof.
  intros I. unfold cleanup. rewrite bind_get.
  destruct (CLEANUP_DONE s); cbn [negb]; [exact I|].
  rewrite snd_bind_raise. rewrite bind_log_info, bind_get.
  match goal with
  | |- context [bind (remount_all env _) _ ?s0] => set (s1 := s0)
  end.
  assert (I1 : set_invariant s1) by (eapply same_set_invariant; [|exact I]; split; reflexivity).
  clearbody s1.
  destruct (remount_all_invariant (UNMOUNTED_DISKS s1) s1 I1) as [Hr I2].
  { apply set_invariant_pending in I1. exact (proj1 I1). }
  { apply incl_refl. }
  rewrite (bind_fst_ret _ _ _ _ Hr).
  apply steps_invariant; [|exact I2].
  apply (steps_bind same_set same_set_trans);
    [apply same_set_append_summary | intros _; apply same_set_done].
Qed.

End SetInvariant.

Lemma initial_state_invariant (input : list string) :
  set_invariant (initial_state input).
Proof.
  apply set_invariant_pending. split; [constructor|].
  intros d. split; [intros [] | discriminate].
Qed.

Section SetWindow.
Variable env : Env.

(** Between the success of the unmount command and the append, the run
    has unmounted the disk and the list does not hold it yet. *)
Lemma unmount_disk_window (d out o : string) (s : State) :
  world env (trace s) (Info d) = Ok out ->
  mounted_in (splitlines out) = true ->
  world env (trace s ++ [(Info d, Ok out)]) (UnmountDisk d) = Ok o ->
  let s_w := snd (unmount_disk_command env d s) in
  unmounted_by_run d (trace s_w) /\
  UNMOUNTED_DISKS s_w = UNMOUNTED_DISKS s /\
  UNMOUNTED_DISKS (snd (unmount_disk env d normal s)) = UNMOUNTED_DISKS s ++ [d].
Proof.
  intros W M U. cbv zeta. unfold unmount_disk_command, unmount_disk.
  rewrite !bind_run_cmd, W, M. cbn [is_dry].
  rewrite !bind_log_info, !bind_run_cmd. exec. rewrite U. proj.
  split; [|split; reflexivity].
  exists (trace s ++ [(Info d, Ok out)]), o, []. split; [reflexivity|].
  intros o' [].
Qed.

End SetWindow.

(** C1 (as amended).  The property is one of the boundaries of the calls,
    not of every instant.  When the listing names each disk once, a disk
    identifier is in [UNMOUNTED_DISKS] if and only if the run has unmounted
    it successfully and has not remounted it successfully since: at the
    end of [main] and at the end of a process that no signal interrupts.
    Each of [get_filesystem], [unmount_disk] (for a disk that is not in
    the list), [verify_filesystem], [mount_disk] (for a disk that is in
    the list), a whole turn of the loop and [cleanup] keeps the property
    from its call to its return, and so does the handling of a signal in
    a state that has it.  A disk found unmounted is not added, and a disk
    whose remount fails stays in the list.  Inside [unmount_disk], between
    the success of the command and the append, the property does not
    hold: the run has unmounted the disk and the list is as it was. *)
Theorem unmounted_set_invariant (env : Env) (args : Args) (input : list string) :
  distinct_listing env ->
  let s_main := snd (main env args (initial_state input)) in
  let s_end := snd (run_process env args input) in
  (forall d, In d (UNMOUNTED_DISKS s_main) <-> unmounted_by_run d (trace s_main)) /\
  (forall d, In d (UNMOUNTED_DISKS s_end) <-> unmounted_by_run d (trace s_end)) /\
  (forall s, set_invariant s -> set_invariant (snd (on_signal env s))) /\
  (forall s d mode out,
      world env (trace s) (Info d) = Ok out ->
      mounted_in (splitlines out) = false ->
      UNMOUNTED_DISKS (snd (unmount_disk env d mode s)) = UNMOUNTED_DISKS s) /\
  (forall s d e,
      world env (trace s) (MountDisk d) = Err e ->
      UNMOUNTED_DISKS (snd (mount_disk env d normal s)) = UNMOUNTED_DISKS s) /\
  (forall s d mode,
      set_invariant s -> ~ In d (UNMOUNTED_DISKS s) ->
      set_invariant (snd (unmount_disk env d mode s))) /\
  (forall s d mode,
      set_invariant s -> In d (UNMOUNTED_DISKS s) ->
      set_invariant (snd (mount_disk env d mode s))) /\
  (forall s d fs mode,
      set_invariant s ->
      set_invariant (snd (get_filesystem env d s)) /\
      set_invariant (snd (verify_filesystem env d fs mode s))) /\
  (forall s d mode,
      set_invariant s -> ~ In d (UNMOUNTED_DISKS s) ->
      set_invariant (snd (check_disk env mode d s))) /\
  (forall s, set_invariant s -> set_invariant (snd (cleanup env s))) /\
  (forall s d out o,
      world env (trace s) (Info d) = Ok out ->
      mounted_in (splitlines out) = true ->
      world env (trace s ++ [(Info d, Ok out)]) (UnmountDisk d) = Ok o ->
      let s_w := snd (unmount_disk_command env d s) in
      unmounted_by_run d (trace s_w) /\
      UNMOUNTED_DISKS s_w = UNMOUNTED_DISKS s /\
      UNMOUNTED_DISKS (snd (unmount_disk env d normal s)) = UNMOUNTED_DISKS s ++ [d]).
Proof.
  intros D s_main s_end.
  assert (Im : set_invariant s_main).
  { apply main_invariant; [exact D | apply initial_state_invariant | reflexivity]. }
  assert (Ie : set_invariant s_end).
  { unfold s_end, run_process. unfold s_main in Im. clear s_main s_end.
    destruct (main env args (initial_state input)) as [r s1].
    unfold at_exit. cbn [snd] in *. apply cleanup_invariant. exact Im. }
  split; [exact (proj2 Im)|]. split; [exact (proj2 Ie)|]. clear Im Ie s_main s_end.
  split; [|split; [|split; [|split; [|split; [|split; [|split; [|split]]]]]]].
  - intros s I. unfold on_signal.
    pose proof (cleanup_invariant env s I) as I1.
    destruct (cleanup env s) as [r s1]. unfold at_exit. cbn [snd] in *.
    apply cleanup_invariant. exact I1.
  - intros s d mode out W Hm. unfold unmount_disk. rewrite bind_run_cmd, W, Hm.
    reflexivity.
  - intros s d e W. unfold mount_disk. cbn [is_dry].
    rewrite bind_log_info, bind_run_cmd. cbn [trace snd log_info spec_write set_spec_log].
    rewrite W. reflexivity.
  - intros s d mode I F. exact (proj1 (unmount_disk_invariant env d mode s I F)).
  - intros s d mode I F. exact (proj1 (proj2 (mount_disk_invariant env d mode s I F))).
  - intros s d fs mode I. split.
    + exact (steps_invariant _ s (same_set_get_filesystem env d) I).
    + exact (steps_invariant _ s (same_set_verify_filesystem env d fs mode) I).
  - intros s d mode I F. exact (proj1 (check_disk_invariant env mode d s I F)).
  - intros s I. exact (cleanup_invariant env s I).
  - intros s d out o. apply unmount_disk_window.
Qed.

Lemma distinct_listing_healthy : distinct_listing (env_of world_healthy).
Proof.
  intros h out H. cbn in H. injection H as <-.
  vm_compute. constructor; [intros [] | constructor].
Qed.

Lemma unmounted_set_invariant_witness :
  distinct_listing (env_of world_healthy) /\
  forall d,
    In d (UNMOUNTED_DISKS (snd (run_process (env_of world_healthy) flag_normal []))) <->
    unmounted_by_run d (trace (snd (run_process (env_of world_healthy) flag_normal []))).
Proof.
  split; [exact distinct_listing_healthy|].
  exact (proj1 (proj2 (unmounted_set_invariant (env_of world_healthy) flag_normal []
                         distinct_listing_healthy))).
Defined.

(** C1 as stated fails when the listing names a disk twice: the disk is
    unmounted twice and remounted successfully once, after its last
    unmount, and it is still in the list at the end of the run. *)
Lemma unmounted_set_counterexample :
  let s := snd (run_process (env_of world_twice) flag_normal []) in
  In "/dev/disk2" (UNMOUNTED_DISKS s) /\
  ~ unmounted_by_run "/dev/disk2" (trace s).
Proof.
  split.
  - vm_compute. left. reflexivity.
  - intros H. apply pending_spec in H. vm_compute in H. discriminate H.
Qed.

(** A signal handled between the success of the unmount command and the
    append ends the run with the disk unmounted, absent from the list and
    not remounted. *)
Example signal_before_append :
  let env := env_of world_healthy in
  let s_w := snd (unmount_disk_command env "/dev/disk2" (initial_state [])) in
  let r := on_signal env s_w in
  fst r = 1%Z /\
  UNMOUNTED_DISKS (snd r) = [] /\
  unmounted_by_run "/dev/disk2" (trace (snd r)) /\
  calls (snd r) =
  [Info "/dev/disk2"; UnmountDisk "/dev/disk2"; ReadErrorLog; AppendErrorLog].
Proof.
  cbv zeta. split; [vm_compute; reflexivity|]. split; [vm_compute; reflexivity|].
  split; [|vm_compute; reflexivity].
  apply pending_spec. vm_compute. reflexivity.
Qed.

(* ================================================================== *)
(** * The summary *)
(* ================================================================== *)

Lemma summaries_snoc_record (l : list chunk) (t m : string) :
  List.length (filter (fun c => match c with SummaryHeader => true | _ => false end)
                      (l ++ [ErrorRecord t m])) =
  List.length (filter (fun c => match c with SummaryHeader => true | _ => false end) l).
Proof. rewrite filter_app, length_app. cbn. lia. Qed.

Lemma error_channel_app (l1 l2 : list chunk) :
  flat_map (fun c => match c with ErrorRecord _ m => [m] | _ => [] end) (l1 ++ l2) =
  flat_map (fun c => match c with ErrorRecord _ m => [m] | _ => [] end) l1 ++
  flat_map (fun c => match c with ErrorRecord _ m => [m] | _ => [] end) l2.
Proof. apply flat_map_app. Qed.

Section Summary.

Variable env : Env.

(** What [append_summary] does when the log can be opened. *)
Lemma append_summary_ok (s : State) :
  log_io_ok env ->
  let s' := snd (append_summary env s) in
  fst (append_summary env s) = Ret tt /\
  UNMOUNTED_DISKS s' = UNMOUNTED_DISKS s /\
  CLEANUP_DONE s' = CLEANUP_DONE s /\
  calls s' = calls s ++ [ReadErrorLog; AppendErrorLog] /\
  error_file s' = error_file s ++ [SummaryHeader; recommendation (error_channel s)] /\
  messages s' = messages s ++ [recommendation_line (error_channel s)].
Proof.
  intros IO. unfold append_summary.
  destruct (proj1 (IO (trace s))) as [o1 H1].
  destruct (proj2 (IO (trace s ++ [(ReadErrorLog, Ok o1)]))) as [o2 H2].
  rewrite bind_run_cmd, H1. cbn beta iota.
  rewrite bind_get, bind_run_cmd. cbn [trace set_trace]. rewrite H2. cbn beta iota.
  unfold file_content. cbn [error_file set_trace].
  rewrite content_has_ERROR. unfold error_channel, recommendation, recommendation_line,
    calls, messages.
  destruct (flat_map _ (error_file s)); exec;
    rewrite <- !app_assoc, !map_app; cbn [map fst app message];
    rewrite <- ?app_assoc; cbn [app]; repeat split; reflexivity.
Qed.

(** Whether or not the log can be opened, [append_summary] returns, it
    makes no call on a disk and it writes one summary at most. *)
Lemma append_summary_any (s : State) :
  let s' := snd (append_summary env s) in
  fst (append_summary env s) = Ret tt /\
  UNMOUNTED_DISKS s' = UNMOUNTED_DISKS s /\
  CLEANUP_DONE s' = CLEANUP_DONE s /\
  (exists tail, calls s' = calls s ++ tail /\
                Forall (fun c => is_mutating c = false) tail) /\
  (summaries s' <= S (summaries s))%nat.
Proof.
  unfold append_summary. rewrite bind_run_cmd.
  destruct (world env (trace s) ReadErrorLog) as [o1|e1].
  - rewrite bind_get, bind_run_cmd. cbn [trace set_trace].
    destruct (world env (trace s ++ [(ReadErrorLog, Ok o1)]) AppendErrorLog) as [o2|e2].
    + destruct (contains "ERROR" _); exec; unfold calls, summaries; proj;
        (split; [reflexivity|]); (split; [reflexivity|]); (split; [reflexivity|]);
        (split;
         [ exists [ReadErrorLog; AppendErrorLog];
           split; [rewrite <- app_assoc, map_app; reflexivity
                  | repeat constructor]
         | rewrite <- app_assoc, filter_app, length_app; cbn; lia ]).
    + exec. unfold calls, summaries; proj.
      (split; [reflexivity|]); (split; [reflexivity|]); (split; [reflexivity|]).
      split.
      * exists [ReadErrorLog; AppendErrorLog].
        split; [rewrite <- app_assoc, map_app; reflexivity | repeat constructor].
      * rewrite summaries_snoc_record. lia.
  - exec. unfold calls, summaries; proj.
    (split; [reflexivity|]); (split; [reflexivity|]); (split; [reflexivity|]).
    split.
    + exists [ReadErrorLog]. split; [rewrite map_app; reflexivity | repeat constructor].
    + rewrite summaries_snoc_record. lia.
Qed.

End Summary.

(** C8.  The summary is a function of the errors-only channel: when the
    channel holds an error, [append_summary] writes the text that asks for
    manual review, and when it is empty, the text that says that all
    checks passed; the informational log gets the matching line and the
    channel itself is left as it was. *)
Theorem summary_from_error_channel (env : Env) (s : State) :
  log_io_ok env ->
  let s' := snd (append_summary env s) in
  error_file s' = error_file s ++ [SummaryHeader; recommendation (error_channel s)] /\
  messages s' = messages s ++ [recommendation_line (error_channel s)] /\
  error_channel s' = error_channel s.
Proof.
  intros IO s'.
  destruct (append_summary_ok env s IO) as [_ [_ [_ [_ [F M]]]]].
  fold s' in F, M. split; [exact F|]. split; [exact M|].
  unfold error_channel. rewrite F, error_channel_app.
  destruct (error_channel s); cbn; apply app_nil_r.
Qed.

Lemma log_io_ok_healthy : log_io_ok (env_of world_healthy).
Proof. intros h. split; exists EmptyString; reflexivity. Qed.

Lemma summary_from_error_channel_witness :
  log_io_ok (env_of world_healthy) /\
  error_file (snd (append_summary (env_of world_healthy) (initial_state []))) =
  [SummaryHeader; SummaryClean].
Proof.
  split; [exact log_io_ok_healthy|].
  exact (proj1 (summary_from_error_channel (env_of world_healthy) (initial_state [])
                  log_io_ok_healthy)).
Defined.

(* ================================================================== *)
(** * Steps of the whole sweep *)
(* ================================================================== *)

Section AllSteps.

Variable env : Env.
Variable R : State -> State -> Prop.

Hypothesis R_refl : forall s, R s s.
Hypothesis R_trans : forall a b c, R a b -> R b c -> R a c.
Hypothesis R_spec : forall l msg, steps R (spec_write env l msg).
Hypothesis R_error : forall msg, steps R (error_write env msg).
Hypothesis R_cmd : forall c, steps R (run_cmd env c).
Hypothesis R_append :
  forall d, steps R (modify (fun s => set_UNMOUNTED_DISKS (UNMOUNTED_DISKS s ++ [d]) s)).
Hypothesis R_remove : forall d, steps R (remove_unmounted d).

Ltac all_steps :=
  repeat first
    [ apply (steps_ret R R_refl) | apply (steps_raise R R_refl)
    | apply (steps_get R R_refl)
    | apply (steps_log_info env R R_spec)
    | apply (steps_log_error env R R_trans R_spec R_error)
    | apply R_cmd | apply R_append | apply R_remove
    | apply (steps_bind R R_trans); [|intros]
    | match goal with
      | |- steps _ (match ?x with _ => _ end) => destruct x
      end ].

Lemma all_steps_unmount_disk (d : string) (mode : run_mode) :
  steps R (unmount_disk env d mode).
Proof. unfold unmount_disk. all_steps. Qed.

Lemma all_steps_mount_disk (d : string) (mode : run_mode) :
  steps R (mount_disk env d mode).
Proof. unfold mount_disk. all_steps. Qed.

Lemma all_steps_verify_filesystem (d fs : string) (mode : run_mode) :
  steps R (verify_filesystem env d fs mode).
Proof. unfold verify_filesystem. all_steps. Qed.

Lemma all_steps_get_filesystem (d : string) : steps R (get_filesystem env d).
Proof. unfold get_filesystem. all_steps. Qed.

Lemma all_steps_check_classified (mode : run_mode) (d fs : string) :
  steps R (check_classified env mode d fs).
Proof.
  unfold check_classified.
  destruct (String.eqb fs "unknown"); [apply (steps_log_error env R R_trans R_spec R_error)|].
  apply (steps_bind R R_trans); [apply all_steps_unmount_disk|]. intros b.
  destruct (negb b); [apply (steps_ret R R_refl)|].
  apply (steps_bind R R_trans); [apply all_steps_verify_filesystem|]. intros _.
  apply (steps_bind R R_trans); [apply (steps_get R R_refl)|]. intros l.
  apply (steps_bind R R_trans); [|intros _; apply (steps_log_info env R R_spec)].
  destruct (in_list d l); [apply all_steps_mount_disk | apply (steps_ret R R_refl)].
Qed.

Lemma all_steps_check_disk (mode : run_mode) (d : string) :
  steps R (check_disk env mode d).
Proof.
  unfold check_disk.
  apply (steps_bind R R_trans); [apply (steps_log_info env R R_spec)|]. intros _.
  apply (steps_bind R R_trans); [apply (steps_log_info env R R_spec)|]. intros _.
  apply (steps_bind R R_trans); [apply all_steps_get_filesystem|]. intros fs.
  apply all_steps_check_classified.
Qed.

Lemma all_steps_check_disks (mode : run_mode) (l : list string) :
  steps R (check_disks env mode l).
Proof.
  induction l as [|d l IH]; cbn [check_disks].
  - apply (steps_ret R R_refl).
  - apply (steps_bind R R_trans); [apply all_steps_check_disk | intros _; exact IH].
Qed.

Lemma all_steps_remount_all (l : list string) : steps R (remount_all env l).
Proof.
  induction l as [|d l IH]; cbn [remount_all].
  - apply (steps_ret R R_refl).
  - apply (steps_bind R R_trans); [apply all_steps_mount_disk | intros _; exact IH].
Qed.

End AllSteps.

(** ** What the sweep never touches *)

Section SweepFrame.

Variable env : Env.

Lemma sweep_frame_refl (s : State) : sweep_frame s s.
Proof.
  repeat split; try reflexivity; exists []; symmetry; apply app_nil_r.
Qed.

Lemma sweep_frame_trans (a b c : State) :
  sweep_frame a b -> sweep_frame b c -> sweep_frame a c.
Proof.
  intros [D1 [S1 [[e1 E1] [[m1 M1] [t1 T1]]]]] [D2 [S2 [[e2 E2] [[m2 M2] [t2 T2]]]]].
  split; [congruence|]. split; [congruence|]. split; [|split].
  - exists (e1 ++ e2). rewrite E2, E1. symmetry. apply app_assoc.
  - exists (m1 ++ m2). rewrite M2, M1. symmetry. apply app_assoc.
  - exists (t1 ++ t2). rewrite T2, T1. symmetry. apply app_assoc.
Qed.

Lemma sweep_frame_spec (l : level) (msg : string) : steps sweep_frame (spec_write env l msg).
Proof.
  intros s. split; [reflexivity|]. split; [reflexivity|]. split; [|split].
  - exists []. symmetry. apply app_nil_r.
  - exists [msg]. unfold messages. cbn. rewrite map_app. reflexivity.
  - exists []. symmetry. apply app_nil_r.
Qed.

Lemma sweep_frame_error (msg : string) : steps sweep_frame (error_write env msg).
Proof.
  intros s. split; [reflexivity|]. split; [|split; [|split]].
  - unfold summaries. cbn. apply summaries_snoc_record.
  - exists [msg]. unfold error_channel. cbn. rewrite error_channel_app. reflexivity.
  - exists []. symmetry. apply app_nil_r.
  - exists []. symmetry. apply app_nil_r.
Qed.

Lemma sweep_frame_cmd (c : call) : steps sweep_frame (run_cmd env c).
Proof.
  intros s. split; [reflexivity|]. split; [reflexivity|]. split; [|split].
  - exists []. symmetry. apply app_nil_r.
  - exists []. symmetry. apply app_nil_r.
  - eexists. reflexivity.
Qed.

Lemma sweep_frame_list (l : list string) (s : State) :
  sweep_frame s (set_UNMOUNTED_DISKS l s).
Proof.
  repeat split; try reflexivity; exists []; symmetry; apply app_nil_r.
Qed.

Lemma sweep_frame_append (d : string) :
  steps sweep_frame (modify (fun s => set_UNMOUNTED_DISKS (UNMOUNTED_DISKS s ++ [d]) s)).
Proof. intros s. apply sweep_frame_list. Qed.

Lemma sweep_frame_remove (d : string) : steps sweep_frame (remove_unmounted d).
Proof.
  intros s. unfold remove_unmounted.
  destruct (list_remove d (UNMOUNTED_DISKS s));
    [apply sweep_frame_list | apply sweep_frame_refl].
Qed.

(** Discharges the conditions of the lemmas on steps for [sweep_frame]. *)
Ltac sweep_prims :=
  first [ exact sweep_frame_refl | exact sweep_frame_trans | exact sweep_frame_spec
        | exact sweep_frame_error | exact sweep_frame_cmd | exact sweep_frame_append
        | exact sweep_frame_remove | intros c _; exact (sweep_frame_cmd c) ].

Lemma sweep_frame_check_disks (mode : run_mode) (l : list string) :
  steps sweep_frame (check_disks env mode l).
Proof. apply all_steps_check_disks; sweep_prims. Qed.

Lemma sweep_frame_check_classified (mode : run_mode) (d fs : string) :
  steps sweep_frame (check_classified env mode d fs).
Proof. apply all_steps_check_classified; sweep_prims. Qed.

Lemma sweep_frame_remount_all (l : list string) :
  steps sweep_frame (remount_all env l).
Proof. apply all_steps_remount_all; sweep_prims. Qed.

Lemma sweep_frame_get_external_disks : steps sweep_frame (get_external_disks env).
Proof. apply steps_get_external_disks; sweep_prims. Qed.

End SweepFrame.

(* ================================================================== *)
(** * How the functions end *)
(* ================================================================== *)

Section Outcomes.

Variable env : Env.

(** One remount in Normal mode of a disk that is in the list. *)
Lemma mount_disk_normal_step (d : string) (s : State) :
  In d (UNMOUNTED_DISKS s) ->
  let s' := snd (mount_disk env d normal s) in
  fst (mount_disk env d normal s) = Ret tt /\
  calls s' = calls s ++ [MountDisk d] /\
  (UNMOUNTED_DISKS s' = UNMOUNTED_DISKS s \/
   list_remove d (UNMOUNTED_DISKS s) = Some (UNMOUNTED_DISKS s')).
Proof.
  intros H. unfold mount_disk. cbn [is_dry]. exec. unfold calls.
  destruct (world env (trace s) (MountDisk d)) as [o|e]; proj.
  - destruct (list_remove_In d _ H) as [l L]. rewrite L. proj.
    split; [reflexivity|]. split; [apply map_app|]. right. reflexivity.
  - split; [reflexivity|]. split; [apply map_app|]. left. reflexivity.
Qed.

Lemma mount_disk_fst (d : string) (mode : run_mode) (s : State) :
  In d (UNMOUNTED_DISKS s) -> fst (mount_disk env d mode s) = Ret tt.
Proof.
  intros H. destruct mode.
  - exact (proj1 (mount_disk_normal_step d s H)).
  - reflexivity.
Qed.

(** The sweep of [cleanup]: one remount for each entry of the copy, in
    order, and no [ValueError], since each entry of the copy is still in
    the list when its turn comes. *)
Lemma remount_all_sweep (l : list string) (s : State) :
  (forall x, count_occ string_dec l x <= count_occ string_dec (UNMOUNTED_DISKS s) x)%nat ->
  fst (remount_all env l s) = Ret tt /\
  calls (snd (remount_all env l s)) = calls s ++ map MountDisk l.
Proof.
  revert s. induction l as [|d l IH]; intros s C; cbn [remount_all].
  - split; [reflexivity|]. cbn. symmetry. apply app_nil_r.
  - assert (H : In d (UNMOUNTED_DISKS s)).
    { apply (count_occ_In string_dec). specialize (C d). cbn [count_occ] in C.
      destruct (string_dec d d) as [_|N]; [lia | now elim N]. }
    destruct (mount_disk_normal_step d s H) as [Hm [Hc Hu]].
    rewrite (bind_fst_ret _ _ _ _ Hm).
    set (s1 := snd (mount_disk env d normal s)) in *.
    destruct (IH s1) as [Hr Hc'].
    { intros x. specialize (C x). cbn [count_occ] in C.
      destruct Hu as [Hu|Hu].
      - rewrite Hu. destruct (string_dec d x); lia.
      - pose proof (list_remove_count d _ _ Hu x) as K.
        destruct (string_dec d x); lia. }
    split; [exact Hr|]. rewrite Hc', Hc, <- app_assoc. reflexivity.
Qed.

(** [cleanup] when the flag is set: nothing but [sys.exit(1)]. *)
Lemma cleanup_done (s : State) :
  CLEANUP_DONE s = true -> cleanup env s = (Raise (SystemExit (ExitCode 1)), s).
Proof. intros H. unfold cleanup. rewrite bind_get, H. reflexivity. Qed.

(** [cleanup] when the flag is not set. *)
Lemma cleanup_first (s : State) :
  CLEANUP_DONE s = false ->
  let s' := snd (cleanup env s) in
  fst (cleanup env s) = Raise (SystemExit (ExitCode 1)) /\
  CLEANUP_DONE s' = true /\
  (exists tail, calls s' = calls s ++ map MountDisk (UNMOUNTED_DISKS s) ++ tail /\
                Forall (fun c => is_mutating c = false) tail) /\
  (summaries s' <= S (summaries s))%nat /\
  (log_io_ok env -> summaries s' = S (summaries s)).
Proof.
  intros H. unfold cleanup. rewrite bind_get, H. cbn [negb].
  rewrite snd_bind_raise.
  assert (G : exists s1,
             (log_info env "Script interrupted or exiting. Performing cleanup." ;;
              copy <- get UNMOUNTED_DISKS ;;
              remount_all env copy ;;
              append_summary env ;;
              modify (set_CLEANUP_DONE true)) s = (Ret tt, s1) /\
             CLEANUP_DONE s1 = true /\
             (exists tail, calls s1 = calls s ++ map MountDisk (UNMOUNTED_DISKS s) ++ tail /\
                           Forall (fun c => is_mutating c = false) tail) /\
             (summaries s1 <= S (summaries s))%nat /\
             (log_io_ok env -> summaries s1 = S (summaries s))).
  { rewrite bind_log_info, bind_get.
    set (s0 := snd (log_info env "Script interrupted or exiting. Performing cleanup." s)).
    assert (E0 : UNMOUNTED_DISKS s0 = UNMOUNTED_DISKS s) by reflexivity.
    assert (C0 : calls s0 = calls s) by reflexivity.
    assert (S0 : summaries s0 = summaries s) by reflexivity.
    clearbody s0. rewrite E0.
    destruct (remount_all_sweep (UNMOUNTED_DISKS s) s0) as [Hr Hc].
    { intros x. rewrite E0. lia. }
    pose proof (sweep_frame_remount_all env (UNMOUNTED_DISKS s) s0) as [_ [Sr _]].
    rewrite (bind_fst_ret _ _ _ _ Hr).
    set (s1 := snd (remount_all env (UNMOUNTED_DISKS s) s0)) in *.
    destruct (append_summary_any env s1) as [Ha [_ [_ [[tail [Ht Ft]] Hs]]]].
    rewrite (bind_fst_ret _ _ _ _ Ha). unfold modify.
    eexists. split; [reflexivity|]. split; [reflexivity|]. split; [|split].
    - exists tail. split; [|exact Ft].
      change (calls (set_CLEANUP_DONE true (snd (append_summary env s1))))
        with (calls (snd (append_summary env s1))).
      rewrite Ht, Hc, C0, <- app_assoc. reflexivity.
    - change (summaries (set_CLEANUP_DONE true (snd (append_summary env s1))))
        with (summaries (snd (append_summary env s1))). lia.
    - intros IO.
      change (summaries (set_CLEANUP_DONE true (snd (append_summary env s1))))
        with (summaries (snd (append_summary env s1))).
      destruct (append_summary_ok env s1 IO) as [_ [_ [_ [_ [F _]]]]].
      unfold summaries at 1. rewrite F, filter_app, length_app.
      fold (summaries s1). destruct (error_channel s1); cbn; lia. }
  destruct G as [s1 [E G]]. unfold bind at 1. rewrite E. cbn [fst snd].
  split; [reflexivity | exact G].
Qed.

(** In every state [cleanup] ends in [sys.exit(1)] with the flag set. *)
Lemma cleanup_exits (s : State) :
  fst (cleanup env s) = Raise (SystemExit (ExitCode 1)) /\
  CLEANUP_DONE (snd (cleanup env s)) = true.
Proof.
  destruct (CLEANUP_DONE s) eqn:D.
  - rewrite (cleanup_done s D). split; [reflexivity | exact D].
  - destruct (cleanup_first s D) as [F [C _]]. split; assumption.
Qed.

(** The body of the loop returns: the remount is asked only for a disk
    that is in the list. *)
Lemma check_classified_returns (mode : run_mode) (d fs : string) (s : State) :
  fst (check_classified env mode d fs s) = Ret tt.
Proof.
  unfold check_classified.
  destruct (String.eqb fs "unknown"); [reflexivity|].
  destruct (total_fst (unmount_disk env d mode) s (may_raise_unmount_disk env _ d mode))
    as [b Hb].
  rewrite (bind_fst_ret _ _ _ _ Hb).
  destruct b; cbn [negb]; [|reflexivity].
  set (s1 := snd (unmount_disk env d mode s)).
  destruct (total_fst (verify_filesystem env d fs mode) s1
              (may_raise_verify_filesystem env _ d fs mode)) as [[] Hv].
  rewrite (bind_fst_ret _ _ _ _ Hv), bind_get.
  set (s2 := snd (verify_filesystem env d fs mode s1)).
  destruct (in_list d (UNMOUNTED_DISKS s2)) eqn:E.
  - apply in_list_In in E.
    rewrite (bind_fst_ret _ _ _ _ (mount_disk_fst d mode s2 E)). reflexivity.
  - reflexivity.
Qed.

Lemma may_raise_check_disk (mode : run_mode) (d : string) :
  may_raise (fun e => e = IndexError) (check_disk env mode d).
Proof.
  unfold check_disk.
  apply may_raise_bind; [apply may_raise_log_info|]. intros _.
  apply may_raise_bind; [apply may_raise_log_info|]. intros _.
  apply may_raise_bind; [apply may_raise_get_filesystem; reflexivity|]. intros fs.
  intros s e H. rewrite check_classified_returns in H. discriminate H.
Qed.

Lemma may_raise_check_disks (mode : run_mode) (l : list string) :
  may_raise (fun e => e = IndexError) (check_disks env mode l).
Proof.
  induction l as [|d l IH]; cbn [check_disks].
  - apply may_raise_ret.
  - apply may_raise_bind; [apply may_raise_check_disk | intros _; exact IH].
Qed.

End Outcomes.

Section RunOutcomes.

Variable env : Env.

(** The end of [main]. *)
Lemma finish_run_outcome (s : State) :
  let s' := snd (finish_run env s) in
  fst (finish_run env s) = Raise (SystemExit (ExitCode 0)) /\
  CLEANUP_DONE s' = true /\
  UNMOUNTED_DISKS s' = UNMOUNTED_DISKS s /\
  (exists tail, calls s' = calls s ++ tail /\
                Forall (fun c => is_mutating c = false) tail) /\
  (summaries s' <= S (summaries s))%nat /\
  (log_io_ok env ->
   summaries s' = S (summaries s) /\
   error_file s' = error_file s ++ [SummaryHeader; recommendation (error_channel s)]).
Proof.
  unfold finish_run. rewrite !bind_log_info.
  match goal with
  | |- context [bind (append_summary env) _ ?s0] => set (s1 := s0)
  end.
  assert (E1 : UNMOUNTED_DISKS s1 = UNMOUNTED_DISKS s) by reflexivity.
  assert (C1 : calls s1 = calls s) by reflexivity.
  assert (S1 : summaries s1 = summaries s) by reflexivity.
  assert (F1 : error_file s1 = error_file s) by reflexivity.
  assert (H1 : error_channel s1 = error_channel s) by reflexivity.
  clearbody s1.
  destruct (append_summary_any env s1) as [Ha [Ua [_ [[tail [Ht Ft]] Hs]]]].
  rewrite (bind_fst_ret _ _ _ _ Ha), bind_modify.
  unfold raise. cbn [fst snd].
  change (summaries (set_CLEANUP_DONE true (snd (append_summary env s1))))
    with (summaries (snd (append_summary env s1))).
  split; [reflexivity|]. split; [reflexivity|]. split; [|split; [|split]].
  - cbn [UNMOUNTED_DISKS set_CLEANUP_DONE]. congruence.
  - exists tail. split; [|exact Ft].
    change (calls (set_CLEANUP_DONE true (snd (append_summary env s1))))
      with (calls (snd (append_summary env s1))). congruence.
  - lia.
  - intros IO. destruct (append_summary_ok env s1 IO) as [_ [_ [_ [_ [F _]]]]].
    cbn [error_file set_CLEANUP_DONE]. rewrite F, F1, H1. split; [|reflexivity].
    unfold summaries. rewrite F, F1, filter_app, length_app.
    destruct (error_channel s1); cbn; lia.
Qed.

Lemma may_raise_check_all (mode : run_mode) (l : list string) :
  may_raise (fun e => e = IndexError) (check_all env mode l).
Proof.
  unfold check_all. destruct l; [apply may_raise_log_info | apply may_raise_check_disks].
Qed.

Lemma sweep_frame_check_all (mode : run_mode) (l : list string) :
  steps sweep_frame (check_all env mode l).
Proof.
  unfold check_all. destruct l; [|apply sweep_frame_check_disks].
  apply (steps_log_info env sweep_frame (sweep_frame_spec env)).
Qed.

(** [run_checks] ends in [sys.exit(0)] with the flag set, or in the
    [IndexError] of a malformed type line with the flag as it was. *)
Lemma run_checks_outcome (mode : run_mode) (s : State) :
  let r := run_checks env mode s in
  (fst r = Raise (SystemExit (ExitCode 0)) /\ CLEANUP_DONE (snd r) = true) \/
  (fst r = Raise IndexError /\ CLEANUP_DONE (snd r) = CLEANUP_DONE s).
Proof.
  unfold run_checks. rewrite bind_log_info.
  match goal with |- context [bind (get_external_disks env) _ ?s0] => set (s1 := s0) end.
  assert (D1 : CLEANUP_DONE s1 = CLEANUP_DONE s) by reflexivity. clearbody s1.
  destruct (total_fst (get_external_disks env) s1 (may_raise_get_external_disks env _))
    as [disks Hd].
  rewrite (bind_fst_ret _ _ _ _ Hd).
  pose proof (sweep_frame_get_external_disks env s1) as [D2 _].
  set (s2 := snd (get_external_disks env s1)) in *.
  pose proof (sweep_frame_check_all mode disks s2) as [D3 _].
  pose proof (may_raise_check_all mode disks s2) as Hr.
  destruct (fst (check_all env mode disks s2)) as [[]|e] eqn:E.
  - rewrite (bind_fst_ret _ _ _ _ E). left.
    destruct (finish_run_outcome (snd (check_all env mode disks s2))) as [F [C _]].
    split; assumption.
  - rewrite (bind_fst_raise _ _ _ _ E). right. cbn [fst snd].
    rewrite (Hr e eq_refl). split; [reflexivity | congruence].
Qed.

End RunOutcomes.

(* ================================================================== *)
(** * Prerequisites and exit status *)
(* ================================================================== *)

(** A line that holds a colon splits in two fields at least. *)
Lemma split_char_nonempty (c : ascii) (s : string) : split_char c s <> [].
Proof.
  destruct s as [|x s]; cbn [split_char]; [discriminate|].
  destruct (Ascii.eqb x c); [discriminate|].
  destruct (split_char c s); discriminate.
Qed.

Lemma split_char_second (c : ascii) (s : string) :
  contains (String c EmptyString) s = true ->
  exists f, nth_error (split_char c s) 1 = Some f.
Proof.
  induction s as [|x s IH]; cbn [contains String.prefix]; intros H.
  - discriminate H.
  - cbn [split_char]. destruct (Ascii.eqb x c) eqn:E.
    + pose proof (split_char_nonempty c s) as N.
      destruct (split_char c s) as [|f r]; [now elim N|]. exists f. reflexivity.
    + destruct (ascii_dec c x) as [->|_].
      * rewrite Ascii.eqb_refl in E. discriminate E.
      * cbn [orb] in H. destruct (IH H) as [f Hf].
        destruct (split_char c s) as [|a [|b r]]; try discriminate Hf.
        exists b. reflexivity.
Qed.

Section Prerequisites.

Variable env : Env.

Lemma get_filesystem_total (d : string) :
  type_lines_wellformed env -> total (get_filesystem env d).
Proof.
  intros W s e H. unfold get_filesystem in H. rewrite bind_run_cmd in H.
  destruct (world env (trace s) (Info d)) as [out|err] eqn:E; [|discriminate H].
  destruct (find (contains "Type (Bundle)") (splitlines out)) as [line|] eqn:F;
    [|discriminate H].
  apply find_some in F. destruct F as [Hin Hc].
  destruct (split_char_second ":" line (W _ _ _ _ E Hin Hc)) as [f Hf].
  rewrite Hf in H. discriminate H.
Qed.

Lemma check_disks_total (mode : run_mode) (l : list string) :
  type_lines_wellformed env -> total (check_disks env mode l).
Proof.
  intros W. induction l as [|d l IH]; cbn [check_disks].
  - apply may_raise_ret.
  - apply may_raise_bind; [|intros _; exact IH]. unfold check_disk.
    apply may_raise_bind; [apply may_raise_log_info|]. intros _.
    apply may_raise_bind; [apply may_raise_log_info|]. intros _.
    apply may_raise_bind; [apply get_filesystem_total; exact W|]. intros fs.
    intros s e H. rewrite check_classified_returns in H. discriminate H.
Qed.

Lemma run_checks_exits_zero (mode : run_mode) (s : State) :
  type_lines_wellformed env ->
  fst (run_checks env mode s) = Raise (SystemExit (ExitCode 0)).
Proof.
  intros W. unfold run_checks. rewrite bind_log_info.
  match goal with |- context [bind (get_external_disks env) _ ?s0] => set (s1 := s0) end.
  destruct (total_fst (get_external_disks env) s1 (may_raise_get_external_disks env _))
    as [disks Hd].
  rewrite (bind_fst_ret _ _ _ _ Hd).
  set (s2 := snd (get_external_disks env s1)).
  assert (T : total (check_all env mode disks)).
  { unfold check_all. destruct disks; [apply may_raise_log_info|].
    apply check_disks_total. exact W. }
  destruct (total_fst _ s2 T) as [[] E].
  rewrite (bind_fst_ret _ _ _ _ E).
  exact (proj1 (finish_run_outcome env _)).
Qed.

Lemma find_missing_found (cmds acc : list string) (s : State) :
  commands_found env -> fst (find_missing env cmds acc s) = Ret acc.
Proof.
  intros C. revert acc s. induction cmds as [|c cmds IH]; intros acc s; [reflexivity|].
  cbn [find_missing]. unfold command_exists. rewrite bind_assoc, bind_run_cmd.
  destruct (C (trace s) c) as [o Ho]. rewrite Ho.
  rewrite bind_ret_l. cbn [negb]. apply IH.
Qed.

Lemma find_missing_keeps (cmds acc : list string) (s : State) :
  exists l, fst (find_missing env cmds acc s) = Ret (acc ++ l).
Proof.
  revert acc s. induction cmds as [|c cmds IH]; intros acc s.
  - exists []. cbn. rewrite app_nil_r. reflexivity.
  - cbn [find_missing]. unfold command_exists. rewrite bind_assoc, bind_run_cmd.
    destruct (world env (trace s) (Which c)) as [o|e];
      rewrite bind_ret_l; cbn [negb].
    + apply IH.
    + match goal with
      | |- context [find_missing env cmds _ ?s0] =>
          destruct (IH (acc ++ [c]) s0) as [l Hl]
      end.
      exists (c :: l). rewrite Hl, <- app_assoc. reflexivity.
Qed.

Lemma find_missing_lacking (cmd : string) (cmds acc : list string) (s : State) :
  (forall h, exists e, world env h (Which cmd) = Err e) ->
  In cmd cmds ->
  exists l, fst (find_missing env cmds acc s) = Ret l /\ l <> [].
Proof.
  intros L. revert acc s. induction cmds as [|c cmds IH]; intros acc s H; [destruct H|].
  cbn [find_missing]. unfold command_exists. rewrite bind_assoc, bind_run_cmd.
  destruct (string_dec c cmd) as [->|N].
  - destruct (L (trace s)) as [e He]. rewrite He.
    rewrite bind_ret_l. cbn [negb].
    match goal with
    | |- context [find_missing env cmds _ ?s0] =>
        destruct (find_missing_keeps cmds (acc ++ [cmd]) s0) as [l Hl]
    end.
    eexists. split; [exact Hl|]. intros E. destruct acc; discriminate E.
  - destruct H as [H|H]; [now elim N|].
    destruct (world env (trace s) (Which c)) as [o|e];
      rewrite bind_ret_l; cbn [negb]; apply IH; exact H.
Qed.

Lemma check_required_commands_found (s : State) :
  commands_found env -> fst (check_required_commands env s) = Ret tt.
Proof.
  intros C. unfold check_required_commands.
  rewrite (bind_fst_ret _ _ _ _ (find_missing_found REQUIRED_COMMANDS [] s C)).
  reflexivity.
Qed.

Lemma log_missing_returns (l : list string) (s : State) :
  fst (log_missing env l s) = Ret tt.
Proof.
  revert s. induction l as [|c l IH]; intros s; [reflexivity|].
  cbn [log_missing]. rewrite bind_log_error. apply IH.
Qed.

(** [check_required_commands] and [ensure_root] return, or exit with a
    message. *)
Lemma check_required_commands_outcome (s : State) :
  fst (check_required_commands env s) = Ret tt \/
  exists m, fst (check_required_commands env s) = Raise (SystemExit (ExitMsg m)).
Proof.
  unfold check_required_commands.
  destruct (find_missing_keeps REQUIRED_COMMANDS [] s) as [l Hl].
  rewrite (bind_fst_ret _ _ _ _ Hl). cbn [app].
  destruct l as [|c l]; [left; reflexivity|]. right.
  rewrite (bind_fst_ret _ _ _ _ (log_missing_returns _ _)).
  rewrite !bind_log_error. eexists. reflexivity.
Qed.

Lemma check_required_commands_lacking (cmd : string) (s : State) :
  In cmd REQUIRED_COMMANDS ->
  (forall h, exists e, world env h (Which cmd) = Err e) ->
  exists m, fst (check_required_commands env s) = Raise (SystemExit (ExitMsg m)).
Proof.
  intros H L. unfold check_required_commands.
  destruct (find_missing_lacking cmd REQUIRED_COMMANDS [] s L H) as [l [Hl N]].
  rewrite (bind_fst_ret _ _ _ _ Hl).
  destruct l as [|c l]; [now elim N|].
  rewrite (bind_fst_ret _ _ _ _ (log_missing_returns _ _)).
  rewrite !bind_log_error. eexists. reflexivity.
Qed.

Lemma ensure_root_outcome (s : State) :
  (euid env = 0 -> fst (ensure_root env s) = Ret tt) /\
  (euid env <> 0 -> exists m, fst (ensure_root env s) = Raise (SystemExit (ExitMsg m))).
Proof.
  unfold ensure_root. destruct (euid env =? 0)%nat eqn:E; cbn [negb].
  - split; [reflexivity|]. intros N. apply Nat.eqb_eq in E. now elim N.
  - split; [intros Z; apply Nat.eqb_neq in E; now elim E|].
    intros _. rewrite bind_log_error. eexists. reflexivity.
Qed.

(** [main] with a mode given on the command line, on a machine that has
    the commands, as root. *)
Lemma main_exits_zero (args : Args) (s : State) :
  commands_found env -> euid env = 0 -> type_lines_wellformed env ->
  non_interactive args = true \/ dry_run args = true ->
  fst (main env args s) = Raise (SystemExit (ExitCode 0)).
Proof.
  intros C Z W F. unfold main.
  rewrite (bind_fst_ret _ _ _ _ (check_required_commands_found s C)).
  rewrite (bind_fst_ret _ _ _ _ (proj1 (ensure_root_outcome _) Z)).
  unfold select_mode. destruct (non_interactive args).
  - rewrite bind_ret_l. apply run_checks_exits_zero. exact W.
  - destruct F as [F|F]; [discriminate F|]. rewrite F.
    rewrite bind_ret_l. apply run_checks_exits_zero. exact W.
Qed.

(** [main] when a prerequisite fails. *)
Lemma main_exits_with_message (args : Args) (s : State) :
  (exists cmd, In cmd REQUIRED_COMMANDS /\
               forall h, exists e, world env h (Which cmd) = Err e) \/
  euid env <> 0 ->
  exists m, fst (main env args s) = Raise (SystemExit (ExitMsg m)).
Proof.
  intros H. unfold main.
  destruct H as [[cmd [Hin L]]|N].
  - destruct (check_required_commands_lacking cmd s Hin L) as [m Hm].
    exists m. rewrite (bind_fst_raise _ _ _ _ Hm). reflexivity.
  - destruct (check_required_commands_outcome s) as [R|[m Hm]].
    + rewrite (bind_fst_ret _ _ _ _ R).
      destruct (proj2 (ensure_root_outcome (snd (check_required_commands env s))) N)
        as [m Hm].
      exists m. rewrite (bind_fst_raise _ _ _ _ Hm). reflexivity.
    + exists m. rewrite (bind_fst_raise _ _ _ _ Hm). reflexivity.
Qed.

End Prerequisites.

(* ================================================================== *)
(** * The cleanup routine *)
(* ================================================================== *)

Section CleanupWindow.
Variable env : Env.


Lemma finish_summary_flag (s : State) :
  CLEANUP_DONE (snd (finish_summary env s)) = CLEANUP_DONE s.
Proof.
  unfold finish_summary. rewrite !bind_log_info.
  match goal with |- context [append_summary env ?s0] => set (s1 := s0) end.
  destruct (append_summary_any env s1) as [_ [_ [D _]]]. rewrite D. reflexivity.
Qed.

End CleanupWindow.




(** A signal handled while [cleanup] has appended its summary and has not
    yet set the flag repeats the remount and the summary. *)
Example signal_during_cleanup :
  let env := env_of world_stuck in
  let s := snd (unmount_disk env "/dev/disk2" normal (initial_state [])) in
  let s_mid := snd ((cleanup_sweep env ;; append_summary env) s) in
  let r := on_signal env s_mid in
  CLEANUP_DONE s_mid = false /\
  count_occ call_eq_dec (calls (snd r)) (MountDisk "/dev/disk2") = 2%nat /\
  summaries (snd r) = 2%nat.
Proof. vm_compute. repeat split; reflexivity. Qed.

(** A signal handled after the summary of [main] and before [main] sets
    the flag adds a second summary. *)
Example signal_after_summary :
  let env := env_of world_healthy in
  let s_mid := snd (finish_summary env (initial_state [])) in
  let r := on_signal env s_mid in
  CLEANUP_DONE s_mid = false /\
  summaries s_mid = 1%nat /\
  summaries (snd r) = 2%nat.
Proof. vm_compute. repeat split; reflexivity. Qed.

(* ================================================================== *)
(** * Exit status *)
(* ================================================================== *)

(** C4.  A run that completes normally ends with status 0: whenever
    [main] ends in its [sys.exit(0)], and in particular for every
    behaviour of the disks (none found included) when the commands are
    there, the user is root, the mode is given by a flag and no type line
    is malformed.  A run that a prerequisite stops ends with status 1.
    A signal handled in any state ends the run with status 1, after
    [cleanup] has run: the flag is set and, if it was not, a remount was
    asked for every entry of the list. *)
Theorem exit_status_of_runs (env : Env) (args : Args) (input : list string) :
  (fst (main env args (initial_state input)) = Raise (SystemExit (ExitCode 0)) ->
   fst (run_process env args input) = 0%Z) /\
  (commands_found env -> euid env = 0%nat -> type_lines_wellformed env ->
   non_interactive args = true \/ dry_run args = true ->
   fst (run_process env args input) = 0%Z) /\
  ((exists cmd, In cmd REQUIRED_COMMANDS /\
                forall h, exists e, world env h (Which cmd) = Err e) \/
   euid env <> 0%nat ->
   fst (run_process env args input) = 1%Z) /\
  (forall s,
      fst (on_signal env s) = 1%Z /\
      CLEANUP_DONE (snd (on_signal env s)) = true /\
      (CLEANUP_DONE s = false ->
       exists tail,
         calls (snd (on_signal env s)) =
         calls s ++ map MountDisk (UNMOUNTED_DISKS s) ++ tail /\
         Forall (fun c => is_mutating c = false) tail)).
Proof.
  assert (P : forall r, fst (main env args (initial_state input)) = r ->
                        fst (run_process env args input) = exit_status r).
  { intros r H. unfold run_process.
    destruct (main env args (initial_state input)) as [r' s']. cbn in H. subst r'.
    reflexivity. }
  split; [|split; [|split]].
  - intros H. rewrite (P _ H). reflexivity.
  - intros C Z W F. rewrite (P _ (main_exits_zero env args _ C Z W F)). reflexivity.
  - intros H. destruct (main_exits_with_message env args (initial_state input) H) as [m Hm].
    rewrite (P _ Hm). reflexivity.
  - intros s. unfold on_signal.
    destruct (cleanup_exits env s) as [F D].
    pose proof (cleanup_done env _ D) as N.
    assert (T : CLEANUP_DONE s = false ->
                exists tail,
                  calls (snd (cleanup env s)) =
                  calls s ++ map MountDisk (UNMOUNTED_DISKS s) ++ tail /\
                  Forall (fun c => is_mutating c = false) tail).
    { intros D0. exact (proj1 (proj2 (proj2 (cleanup_first env s D0)))). }
    destruct (cleanup env s) as [r s1]. cbn [fst snd] in *. subst r.
    unfold at_exit. rewrite N. cbn [fst snd exit_status].
    split; [reflexivity|]. split; [exact D | exact T].
Qed.

Lemma commands_found_healthy : commands_found (env_of world_healthy).
Proof. intros h cmd. exists EmptyString. reflexivity. Qed.

Lemma type_lines_wellformed_healthy : type_lines_wellformed (env_of world_healthy).
Proof.
  intros h d out line H Hin Hc. cbn in H. injection H as <-.
  vm_compute in Hin.
  repeat (destruct Hin as [<-|Hin]; [try discriminate Hc; reflexivity|]).
  destruct Hin.
Qed.

Lemma exit_status_of_runs_witness :
  commands_found (env_of world_healthy) /\
  euid (env_of world_healthy) = 0%nat /\
  type_lines_wellformed (env_of world_healthy) /\
  (non_interactive flag_normal = true \/ dry_run flag_normal = true) /\
  fst (run_process (env_of world_healthy) flag_normal []) = 0%Z.
Proof.
  split; [exact commands_found_healthy|]. split; [reflexivity|].
  split; [exact type_lines_wellformed_healthy|]. split; [left; reflexivity|].
  exact (proj1 (proj2 (exit_status_of_runs (env_of world_healthy) flag_normal []))
           commands_found_healthy eq_refl type_lines_wellformed_healthy
           (or_introl eq_refl)).
Defined.

(* ================================================================== *)
(** * The dry run *)
(* ================================================================== *)

Section DryRun.

Variable env : Env.

















End DryRun.

(* ================================================================== *)
(** * One summary for each run *)
(* ================================================================== *)

Section OneSummary.

Variable env : Env.







End OneSummary.




(* ================================================================== *)
(** * One disk through the loop *)
(* ================================================================== *)

(** Splits the execution along the next answer or test it depends on. *)
Ltac split_world :=
  match goal with
  | |- context [match world ?env ?h ?c with _ => _ end] =>
      let W := fresh "W" in destruct (world env h c) eqn:W
  | |- context [match find ?p ?l with _ => _ end] =>
      let F := fresh "F" in destruct (find p l) eqn:F
  | |- context [match nth_error ?l ?n with _ => _ end] =>
      let F := fresh "N" in destruct (nth_error l n) eqn:F
  | |- context [if String.eqb ?a ?b then _ else _] =>
      let F := fresh "Q" in destruct (String.eqb a b) eqn:F
  | |- context [if mounted_in ?l then _ else _] =>
      let F := fresh "Mt" in destruct (mounted_in l) eqn:F
  | |- context [if negb (in_list ?a ?l) then _ else _] =>
      let F := fresh "Sup" in destruct (in_list a l) eqn:F
  | |- context [if in_list ?a ?l then _ else _] =>
      let F := fresh "Mem" in destruct (in_list a l) eqn:F
  | |- context [match list_remove ?a ?l with _ => _ end] =>
      let F := fresh "Rm" in destruct (list_remove a l) eqn:F
  end.

(** From [trace s ++ l = trace s ++ evs] to [l = evs]. *)
Ltac norm_trace Ht :=
  repeat rewrite <- app_assoc in Ht; cbn [app] in Ht;
  first [ apply app_inv_head in Ht
        | rewrite <- (app_nil_r (trace _)) in Ht at 1; apply app_inv_head in Ht ].

Ltac break_in :=
  repeat match goal with
         | H : _ \/ _ |- _ => destruct H
         | H : False |- _ => destruct H
         | H : exists _, _ |- _ => destruct H
         | H : (_, _) = (_, _) |- _ => inversion H; subst; clear H
         end.

(** Closes the branches that the tests on the list exclude. *)
Ltac list_facts :=
  repeat match goal with
         | H : in_list ?d (?l ++ [?d]) = false |- _ =>
             rewrite in_list_snoc in H; discriminate H
         | H : in_list ?d ?l = true, R : list_remove ?d ?l = None |- _ =>
             apply in_list_In in H;
             let R' := fresh in
             destruct (list_remove_In _ _ H) as [? R'];
             rewrite R' in R; discriminate R
         | H : in_list ?d ?l = false, K : In ?d ?l |- _ =>
             apply in_list_In in K; rewrite K in H; discriminate H
         end.

Ltac channel :=
  unfold error_channel; proj;
  repeat rewrite error_channel_app; cbn [flat_map app];
  repeat rewrite <- app_assoc; cbn [app].

Section OneDisk.

Variable env : Env.

(** [check_disk] is [check_classified] on the type that [get_filesystem]
    returns, after one [diskutil info]. *)
Lemma check_disk_cases (mode : run_mode) (d : string) (s : State) :
  exists r s2 l,
    trace s2 = trace s ++ [(Info d, r)] /\
    UNMOUNTED_DISKS s2 = UNMOUNTED_DISKS s /\
    error_channel s2 = error_channel s ++ l /\
    ((exists e, check_disk env mode d s = (Raise e, s2)) \/
     (exists fs, check_disk env mode d s = check_classified env mode d fs s2)).
Proof.
  unfold check_disk, get_filesystem. exec.
  destruct (world env (trace s) (Info d)) as [out|e] eqn:W; proj;
    [destruct (find (contains "Type (Bundle)") (splitlines out)) as [line|]; proj;
     [destruct (nth_error (split_char ":" line) 1) as [f|]; proj|]|].
  all: eexists; eexists; eexists; (split; [|split; [|split]]);
    [ | |
    | first [left; eexists; reflexivity | right; eexists; reflexivity]];
    [ reflexivity | reflexivity
    | channel; first [reflexivity | symmetry; apply app_nil_r] ].
Qed.

(** The next disk is taken up as soon as the body of the loop returns. *)
Lemma check_disks_next (mode : run_mode) (d : string) (rest : list string) (s : State) :
  fst (check_disk env mode d s) = Ret tt ->
  check_disks env mode (d :: rest) s =
  check_disks env mode rest (snd (check_disk env mode d s)).
Proof. intros H. cbn [check_disks]. rewrite (bind_fst_ret _ _ _ _ H). reflexivity. Qed.

Lemma repair_failure_classified (d fs : string) (s : State) (evs : list event) (e : string) :
  trace (snd (check_classified env normal d fs s)) = trace s ++ evs ->
  In (RepairVolume d, Err e) evs ->
  fst (check_classified env normal d fs s) = Ret tt /\
  (exists l, error_channel (snd (check_classified env normal d fs s)) =
             error_channel s ++ l /\ In (manual_msg d e) l) /\
  (In d (UNMOUNTED_DISKS s) \/ (exists o, In (UnmountDisk d, Ok o) evs) ->
   exists r, last evs (RepairVolume d, Err e) = (MountDisk d, r)).
Proof.
  unfold check_classified, unmount_disk, verify_filesystem, mount_disk.
  cbn [is_dry]. exec.
  repeat (split_world; proj).
  all: intros Ht Hin; norm_trace Ht; subst evs; cbn [In] in Hin; break_in.
  all: try solve [list_facts].
  all: unfold manual_msg; channel.
  all: (split; [reflexivity|]).
  all: (split; [eexists; split; [reflexivity | cbn [In]; tauto]|]).
  all: intros Hp.
  all: try solve [eexists; reflexivity].
  all: cbn [In] in Hp; break_in; list_facts.
Qed.

End OneDisk.

(** C6.  In Normal mode, when the verification of a disk fails and its
    repair fails too, the error that asks for manual intervention is
    logged, the remount of the disk is the next and last call of its turn
    if the disk is in the list (this turn has unmounted it, or it was
    there before), and the loop goes on with the next disk. *)
Theorem repair_failure_still_remounts
    (env : Env) (d : string) (rest : list string) (s : State)
    (evs : list event) (e : string) :
  trace (snd (check_disk env normal d s)) = trace s ++ evs ->
  In (RepairVolume d, Err e) evs ->
  (exists l, error_channel (snd (check_disk env normal d s)) = error_channel s ++ l /\
             In (manual_msg d e) l) /\
  (In d (UNMOUNTED_DISKS s) \/ (exists o, In (UnmountDisk d, Ok o) evs) ->
   exists r, last evs (RepairVolume d, Err e) = (MountDisk d, r)) /\
  check_disks env normal (d :: rest) s =
  check_disks env normal rest (snd (check_disk env normal d s)).
Proof.
  intros Ht Hin.
  destruct (check_disk_cases env normal d s) as [r [s2 [l [T [U [E [[ex K]|[fs K]]]]]]]].
  - rewrite K in Ht. cbn [snd] in Ht. rewrite T in Ht.
    apply app_inv_head in Ht. subst evs.
    destruct Hin as [Hin|[]]. discriminate Hin.
  - pose proof (check_disks_next env normal d rest s) as Next.
    rewrite K in Ht, Next |- *.
    destruct (sweep_frame_check_classified env normal d fs s2) as [_ [_ [_ [_ [evs' Te]]]]].
    rewrite Te, T, <- app_assoc in Ht. apply app_inv_head in Ht. subst evs.
    cbn [app In] in Hin. destruct Hin as [Hin|Hin]; [discriminate Hin|].
    destruct (repair_failure_classified env d fs s2 evs' e Te Hin) as [F [[l' [E' I']] P]].
    split; [|split].
    + exists (l ++ l'). rewrite E', E, <- app_assoc. split; [reflexivity|].
      apply in_or_app. right. exact I'.
    + intros Hp.
      assert (Hp' : In d (UNMOUNTED_DISKS s2) \/
                    (exists o, In (UnmountDisk d, Ok o) evs')).
      { destruct Hp as [Hp|[o [Hp|Hp]]].
        - left. rewrite U. exact Hp.
        - discriminate Hp.
        - right. exists o. exact Hp. }
      destruct (P Hp') as [r' Hr']. exists r'.
      destruct evs' as [|ev evs']; [destruct Hin | exact Hr'].
    + apply Next. exact F.
Qed.

Lemma repair_failure_still_remounts_witness :
  exists evs,
    trace (snd (check_disk (env_of world_broken) normal "/dev/disk2" (initial_state [])))
    = trace (initial_state []) ++ evs /\
    In (RepairVolume "/dev/disk2", Err "cannot repair") evs /\
    check_disks (env_of world_broken) normal ["/dev/disk2"] (initial_state []) =
    check_disks (env_of world_broken) normal []
      (snd (check_disk (env_of world_broken) normal "/dev/disk2" (initial_state []))).
Proof.
  eexists. split; [vm_compute; reflexivity|].
  split; [cbn [In]; tauto|].
  refine (proj2 (proj2 (repair_failure_still_remounts (env_of world_broken) "/dev/disk2"
                          [] (initial_state []) _ "cannot repair" _ _))).
  - vm_compute. reflexivity.
  - cbn [In]. tauto.
Defined.

Section OneDiskMore.

Variable env : Env.

Lemma unmount_failure_classified
    (mode : run_mode) (d fs : string) (s : State) (evs : list event) (e : string) :
  trace (snd (check_classified env mode d fs s)) = trace s ++ evs ->
  In (UnmountDisk d, Err e) evs ->
  fst (check_classified env mode d fs s) = Ret tt /\
  UNMOUNTED_DISKS (snd (check_classified env mode d fs s)) = UNMOUNTED_DISKS s /\
  (exists out, evs = [(Info d, Ok out); (UnmountDisk d, Err e)]) /\
  error_channel (snd (check_classified env mode d fs s)) =
  error_channel s ++ [unmount_msg d e].
Proof.
  unfold check_classified, unmount_disk, verify_filesystem, mount_disk.
  destruct mode; cbn [is_dry]; exec.
  all: repeat (split_world; proj).
  all: intros Ht Hin; norm_trace Ht; subst evs; cbn [In] in Hin; break_in.
  all: unfold unmount_msg; channel.
  all: (split; [reflexivity|]); (split; [reflexivity|]).
  all: (split; [eexists; reflexivity | reflexivity]).
Qed.

Lemma unsupported_classified (mode : run_mode) (d fs : string) (s : State) :
  in_list fs SUPPORTED_FILESYSTEMS = false ->
  fst (check_classified env mode d fs s) = Ret tt /\
  (forall evs,
      trace (snd (check_classified env mode d fs s)) = trace s ++ evs ->
      forall c, In c (map fst evs) ->
                c = Info d \/ c = UnmountDisk d \/ c = MountDisk d) /\
  (exists m l, error_channel (snd (check_classified env mode d fs s)) =
               error_channel s ++ m :: l) /\
  (forall evs o,
      trace (snd (check_classified env mode d fs s)) = trace s ++ evs ->
      In (UnmountDisk d, Ok o) evs ->
      In (unsupported_msg d fs) (error_channel (snd (check_classified env mode d fs s)))).
Proof.
  intros Sup0.
  unfold check_classified, unmount_disk, verify_filesystem, mount_disk.
  rewrite Sup0. cbn [negb].
  destruct mode; cbn [is_dry]; exec.
  all: repeat (split_world; proj).
  all: try solve [list_facts].
  all: unfold unsupported_msg; channel.
  all: (split; [reflexivity|]).
  all: (split;
        [intros evs Ht c Hc; norm_trace Ht; subst evs; cbn [map fst In] in Hc;
         repeat (destruct Hc as [Hc|Hc]; [subst c; tauto|]); destruct Hc|]).
  all: (split; [eexists; eexists; reflexivity|]).
  all: intros evs o Ht Hin; norm_trace Ht; subst evs; cbn [In] in Hin; break_in.
  all: apply in_or_app; right; cbn [In]; tauto.
Qed.

End OneDiskMore.

Section UnmountFalse.

Variable env : Env.

(** [unmount_disk] returns [False] only after it has logged an error, and
    then it has left the list alone. *)
Lemma unmount_disk_false (d : string) (mode : run_mode) (s : State) :
  fst (unmount_disk env d mode s) = Ret false ->
  UNMOUNTED_DISKS (snd (unmount_disk env d mode s)) = UNMOUNTED_DISKS s /\
  exists m, error_channel (snd (unmount_disk env d mode s)) = error_channel s ++ [m].
Proof.
  unfold unmount_disk. destruct mode; cbn [is_dry]; exec.
  all: repeat (split_world; proj).
  all: intros H; try discriminate H.
  all: channel; (split; [reflexivity | eexists; reflexivity]).
Qed.

(** The turn of a disk ends where [unmount_disk] returns [False]. *)
Lemma check_classified_unmount_false (mode : run_mode) (d fs : string) (s : State) :
  String.eqb fs "unknown" = false ->
  fst (unmount_disk env d mode s) = Ret false ->
  check_classified env mode d fs s = (Ret tt, snd (unmount_disk env d mode s)).
Proof.
  intros Q H. unfold check_classified. rewrite Q, (bind_fst_ret _ _ _ _ H).
  reflexivity.
Qed.

End UnmountFalse.

(** C7.  When the unmount command of a disk fails, the error is logged,
    the failed unmount is the last call of the disk's turn (so no verify,
    repair or remount call follows), the list is left as it was, and the
    loop goes on with the next disk.  More generally the turn ends, with
    an error logged and the list left as it was, wherever [unmount_disk]
    returns [False]. *)
Theorem unmount_failure_skips_disk
    (env : Env) (mode : run_mode) (d : string) (rest : list string) (s : State) :
  (forall evs e,
      trace (snd (check_disk env mode d s)) = trace s ++ evs ->
      In (UnmountDisk d, Err e) evs ->
      (exists r out, evs = [(Info d, r); (Info d, Ok out); (UnmountDisk d, Err e)]) /\
      (exists l, error_channel (snd (check_disk env mode d s)) =
                 error_channel s ++ l ++ [unmount_msg d e]) /\
      UNMOUNTED_DISKS (snd (check_disk env mode d s)) = UNMOUNTED_DISKS s /\
      check_disks env mode (d :: rest) s =
      check_disks env mode rest (snd (check_disk env mode d s))) /\
  (forall fs,
      String.eqb fs "unknown" = false ->
      fst (unmount_disk env d mode s) = Ret false ->
      check_classified env mode d fs s = (Ret tt, snd (unmount_disk env d mode s)) /\
      UNMOUNTED_DISKS (snd (unmount_disk env d mode s)) = UNMOUNTED_DISKS s /\
      exists m, error_channel (snd (unmount_disk env d mode s)) = error_channel s ++ [m]).
Proof.
  split.
  - intros evs e Ht Hin.
    destruct (check_disk_cases env mode d s) as [r [s2 [l [T [U [E [[ex K]|[fs K]]]]]]]].
    + rewrite K in Ht. cbn [snd] in Ht. rewrite T in Ht.
      apply app_inv_head in Ht. subst evs.
      destruct Hin as [Hin|[]]. discriminate Hin.
    + pose proof (check_disks_next env mode d rest s) as Next.
      rewrite K in Ht, Next |- *.
      destruct (sweep_frame_check_classified env mode d fs s2) as [_ [_ [_ [_ [evs' Te]]]]].
      rewrite Te, T, <- app_assoc in Ht. apply app_inv_head in Ht. subst evs.
      cbn [app In] in Hin. destruct Hin as [Hin|Hin]; [discriminate Hin|].
      destruct (unmount_failure_classified env mode d fs s2 evs' e Te Hin)
        as [F [U' [[out Ev] E']]].
      split; [|split; [|split]].
      * exists r, out. rewrite Ev. reflexivity.
      * exists l. rewrite E', E, <- app_assoc. reflexivity.
      * congruence.
      * apply Next. exact F.
  - intros fs Q H. split; [exact (check_classified_unmount_false env mode d fs s Q H)|].
    exact (unmount_disk_false env d mode s H).
Qed.

Lemma unmount_failure_skips_disk_witness :
  trace (snd (check_disk (env_of world_busy) normal "/dev/disk2" (initial_state [])))
  = trace (initial_state []) ++
    [(Info "/dev/disk2", Ok (info_of "apfs" "Yes"));
     (Info "/dev/disk2", Ok (info_of "apfs" "Yes"));
     (UnmountDisk "/dev/disk2", Err "disk in use")] /\
  UNMOUNTED_DISKS (snd (check_disk (env_of world_busy) normal "/dev/disk2" (initial_state [])))
  = [].
Proof.
  assert (T : trace (snd (check_disk (env_of world_busy) normal "/dev/disk2"
                            (initial_state [])))
              = trace (initial_state []) ++
                [(Info "/dev/disk2", Ok (info_of "apfs" "Yes"));
                 (Info "/dev/disk2", Ok (info_of "apfs" "Yes"));
                 (UnmountDisk "/dev/disk2", Err "disk in use")])
    by (vm_compute; reflexivity).
  split; [exact T|].
  refine (proj1 (proj2 (proj2 (proj1 (unmount_failure_skips_disk (env_of world_busy) normal
                                        "/dev/disk2" [] (initial_state []))
                                 _ "disk in use" T _)))).
  cbn [In]. tauto.
Defined.

Section Unsupported.

Variable env : Env.

Lemma get_filesystem_effect (d : string) (s : State) :
  exists r l,
    trace (snd (get_filesystem env d s)) = trace s ++ [(Info d, r)] /\
    error_channel (snd (get_filesystem env d s)) = error_channel s ++ l.
Proof.
  unfold get_filesystem. exec.
  destruct (world env (trace s) (Info d)) as [out|e]; proj;
    [destruct (find (contains "Type (Bundle)") (splitlines out)) as [line|]; proj;
     [destruct (nth_error (split_char ":" line) 1) as [f|]; proj|]|].
  all: eexists; eexists; (split; [reflexivity|]);
    channel; first [reflexivity | symmetry; apply app_nil_r].
Qed.

End Unsupported.

(** C3 (as amended).  For a disk whose filesystem type is read and is not
    in the allow-list, an error is logged, verification is skipped (the
    only calls of the disk's turn are [diskutil info], and the unmount and
    the remount of that disk: never a verify or a repair), and the loop
    goes on with the next disk.  For the type ["unknown"] the turn ends
    with the [diskutil info] that read the type. *)
Theorem unsupported_type_skips_verification
    (env : Env) (mode : run_mode) (d : string) (rest : list string) (s : State)
    (fs : string) :
  fst (get_filesystem env d
         (snd (log_info env ("Checking " ++ d ++ "...")
                 (snd (log_info env "----------------------------------------" s)))))
  = Ret fs ->
  in_list fs SUPPORTED_FILESYSTEMS = false ->
  (forall evs,
      trace (snd (check_disk env mode d s)) = trace s ++ evs ->
      forall c, In c (map fst evs) ->
                c = Info d \/ c = UnmountDisk d \/ c = MountDisk d) /\
  (fs = "unknown" -> calls (snd (check_disk env mode d s)) = calls s ++ [Info d]) /\
  (exists m l, error_channel (snd (check_disk env mode d s)) = error_channel s ++ m :: l) /\
  check_disks env mode (d :: rest) s =
  check_disks env mode rest (snd (check_disk env mode d s)).
Proof.
  intros G Sup.
  pose proof (check_disks_next env mode d rest s) as Next.
  assert (K : check_disk env mode d s =
              check_classified env mode d fs
                (snd (get_filesystem env d
                        (snd (log_info env ("Checking " ++ d ++ "...")
                                (snd (log_info env
                                        "----------------------------------------" s))))))).
  { unfold check_disk. rewrite !bind_log_info. apply (bind_fst_ret _ _ _ _ G). }
  rewrite K in Next |- *. clear K.
  match goal with
  | G : fst (get_filesystem env d ?s0) = _ |- _ =>
      destruct (get_filesystem_effect env d s0) as [r [l [T E]]];
      set (s1 := snd (get_filesystem env d s0)) in *
  end.
  change (trace s1 = trace s ++ [(Info d, r)]) in T.
  change (error_channel s1 = error_channel s ++ l) in E.
  clearbody s1.
  destruct (unsupported_classified env mode d fs s1 Sup) as [F [C [[m [l' Er]] _]]].
  split; [|split; [|split]].
  - intros evs Ht c Hc.
    destruct (sweep_frame_check_classified env mode d fs s1) as [_ [_ [_ [_ [evs' Te]]]]].
    rewrite Te, T, <- app_assoc in Ht. apply app_inv_head in Ht. subst evs.
    cbn [app map fst In] in Hc. destruct Hc as [Hc|Hc]; [left; symmetry; exact Hc|].
    exact (C evs' Te c Hc).
  - intros ->. unfold check_classified. cbn [String.eqb Ascii.eqb Bool.eqb].
    unfold calls. exec. rewrite T, map_app. reflexivity.
  - rewrite Er, E, <- app_assoc. destruct l as [|m0 l0]; cbn [app]; eexists; eexists; reflexivity.
  - apply Next. exact F.
Qed.

Lemma unsupported_type_skips_verification_witness :
  in_list "zfs" SUPPORTED_FILESYSTEMS = false /\
  check_disks (env_of world_zfs) normal ["/dev/disk2"] (initial_state []) =
  check_disks (env_of world_zfs) normal []
    (snd (check_disk (env_of world_zfs) normal "/dev/disk2" (initial_state []))).
Proof.
  split; [reflexivity|].
  refine (proj2 (proj2 (proj2 (unsupported_type_skips_verification (env_of world_zfs) normal
                                 "/dev/disk2" [] (initial_state []) "zfs" _ _)))).
  - vm_compute. reflexivity.
  - reflexivity.
Defined.

(** C3 as stated fails: the type of the disk is read as zfs, which is not
    in the allow-list, and the run unmounts the disk and remounts it. *)
Lemma unsupported_type_counterexample :
  let s := snd (run_process (env_of world_zfs) flag_normal []) in
  In "Detected filesystem type for /dev/disk2: zfs" (messages s) /\
  in_list "zfs" SUPPORTED_FILESYSTEMS = false /\
  In (UnmountDisk "/dev/disk2") (calls s) /\
  In (MountDisk "/dev/disk2") (calls s).
Proof. vm_compute. repeat split; tauto. Qed.

(* ================================================================== *)
(** * The inventory *)
(* ================================================================== *)

(** [line.split()[0]] is in range for a line that holds a character
    that is not blank. *)
Lemma split_ws_nonempty (s : string) (c : ascii) :
  In c (list_ascii_of_string s) -> is_space c = false -> split_ws s <> [].
Proof.
  induction s as [|x s IH]; intros Hin Hc; [destruct Hin|].
  cbn [split_ws]. destruct (is_space x) eqn:Ex.
  - apply IH; [|exact Hc]. destruct Hin as [->|Hin]; [congruence | exact Hin].
  - destruct s as [|y s]; [discriminate|].
    destruct (is_space y); [discriminate|].
    destruct (split_ws (String y s)); discriminate.
Qed.

Lemma prefix_head (c x : ascii) (p s : string) :
  String.prefix (String c p) (String x s) = true -> c = x.
Proof. cbn. destruct (ascii_dec c x); [trivial | discriminate]. Qed.

Lemma contains_head (c : ascii) (p s : string) :
  contains (String c p) s = true -> In c (list_ascii_of_string s).
Proof.
  induction s as [|x s IH]; cbn [contains]; intros H.
  - discriminate H.
  - apply orb_true_iff in H. destruct H as [H|H].
    + left. symmetry. exact (prefix_head _ _ _ _ H).
    + right. exact (IH H).
Qed.

Lemma split_ws_startswith (line : string) :
  startswith "/dev/disk" line = true -> split_ws line <> [].
Proof.
  intros H. apply (split_ws_nonempty line "/"); [|reflexivity].
  apply (contains_head "/" "dev/disk"), contains_prefix. exact H.
Qed.

Lemma split_ws_contains (line : string) :
  is_partition_line line = true -> split_ws line <> [].
Proof.
  unfold is_partition_line. intros H. apply orb_true_iff in H.
  apply (split_ws_nonempty line "A"); [|reflexivity].
  destruct H as [H|H]; exact (contains_head _ _ _ H).
Qed.

Section Inventory.

Variable env : Env.

Lemma is_system_disk_failure (d : string) (s : State) (e : string) :
  world env (trace s) ListAll = Err e ->
  fst (is_system_disk env d s) = Ret false /\
  calls (snd (is_system_disk env d s)) = calls s ++ [ListAll] /\
  error_channel (snd (is_system_disk env d s)) =
  error_channel s ++
  [("Failed to determine if " ++ d ++ " is a system disk. Error: " ++ strip e)%string].
Proof.
  intros W. unfold is_system_disk. rewrite bind_run_cmd, W. unfold calls.
  exec. channel. rewrite map_app. repeat split; reflexivity.
Qed.

Lemma collect_disks_keeps (lines acc : list string) (s : State) :
  exists l, fst (collect_disks env lines acc s) = Ret (acc ++ l).
Proof.
  revert acc s. induction lines as [|line rest IH]; intros acc s.
  - exists []. cbn. rewrite app_nil_r. reflexivity.
  - cbn [collect_disks]. destruct (startswith "/dev/disk" line); [|apply IH].
    destruct (total_fst (is_system_disk env (first_word line)) s
                (may_raise_is_system_disk env _ _)) as [b Hb].
    rewrite (bind_fst_ret _ _ _ _ Hb). destruct b; cbn [negb]; [apply IH|].
    destruct (IH (acc ++ [first_word line]) (snd (is_system_disk env (first_word line) s)))
      as [l Hl].
    exists (first_word line :: l). rewrite Hl, <- app_assoc. reflexivity.
Qed.

Lemma collect_disks_all (lines acc : list string) (s : State) :
  (forall h, exists e, world env h ListAll = Err e) ->
  fst (collect_disks env lines acc s) =
  Ret (acc ++ map first_word (filter (startswith "/dev/disk") lines)).
Proof.
  intros Fail. revert acc s. induction lines as [|line rest IH]; intros acc s.
  - cbn. rewrite app_nil_r. reflexivity.
  - cbn [collect_disks filter]. destruct (startswith "/dev/disk" line); [|apply IH].
    destruct (Fail (trace s)) as [e He].
    rewrite (bind_fst_ret _ _ _ _ (proj1 (is_system_disk_failure (first_word line) s e He))).
    cbn [negb map]. rewrite IH, <- app_assoc. reflexivity.
Qed.

End Inventory.

(** C10.  When the [diskutil list] that [is_system_disk] runs for a disk
    fails, the error is logged and the check returns false, so the loop of
    [get_external_disks] keeps the disk in the inventory; when that
    command fails every time, the inventory handed to the loop of [main]
    is the whole listing. *)
Theorem system_check_failure_keeps_disk
    (env : Env) (line : string) (rest acc : list string) (s : State) (e : string) :
  startswith "/dev/disk" line = true ->
  world env (trace s) ListAll = Err e ->
  (fst (is_system_disk env (first_word line) s) = Ret false /\
   error_channel (snd (is_system_disk env (first_word line) s)) =
   error_channel s ++
   [("Failed to determine if " ++ first_word line ++ " is a system disk. Error: "
     ++ strip e)%string]) /\
  (exists l, fst (collect_disks env (line :: rest) acc s) = Ret l /\
             In (first_word line) l) /\
  ((forall h, exists e', world env h ListAll = Err e') ->
   forall s0 out,
     world env (trace s0) ListExternal = Ok out ->
     fst (get_external_disks env s0) = Ret (candidates out)).
Proof.
  intros Hl W.
  destruct (is_system_disk_failure env (first_word line) s e W) as [F [_ E]].
  split; [split; assumption|]. split.
  - cbn [collect_disks]. rewrite Hl, (bind_fst_ret _ _ _ _ F). cbn [negb].
    destruct (collect_disks_keeps env rest (acc ++ [first_word line])
                (snd (is_system_disk env (first_word line) s))) as [l Hk].
    eexists. split; [exact Hk|].
    apply in_or_app. left. apply in_or_app. right. left. reflexivity.
  - intros Fail s0 out W0. unfold get_external_disks.
    rewrite bind_run_cmd, W0.
    rewrite (bind_fst_ret _ _ _ _ (collect_disks_all env (splitlines out) [] _ Fail)).
    rewrite bind_log_info. reflexivity.
Qed.

Lemma system_check_failure_keeps_disk_witness :
  startswith "/dev/disk" "/dev/disk2 (external, physical):" = true /\
  world (env_of world_no_partitions) (trace (initial_state [])) ListAll
  = Err "could not list" /\
  fst (is_system_disk (env_of world_no_partitions)
         (first_word "/dev/disk2 (external, physical):") (initial_state []))
  = Ret false.
Proof.
  split; [reflexivity|]. split; [reflexivity|].
  exact (proj1 (proj1 (system_check_failure_keeps_disk (env_of world_no_partitions)
                         "/dev/disk2 (external, physical):" [] [] (initial_state [])
                         "could not list" eq_refl eq_refl))).
Defined.

(* ================================================================== *)
(** * A failed enumeration *)
(* ================================================================== *)

Section Enumeration.

Variable env : Env.

Lemma logs_grow_refl (s : State) : logs_grow s s.
Proof. split; exists []; symmetry; apply app_nil_r. Qed.

Lemma logs_grow_trans (a b c : State) : logs_grow a b -> logs_grow b c -> logs_grow a c.
Proof.
  intros [[m1 M1] [e1 E1]] [[m2 M2] [e2 E2]]. split.
  - exists (m1 ++ m2). rewrite M2, M1. symmetry. apply app_assoc.
  - exists (e1 ++ e2). rewrite E2, E1. symmetry. apply app_assoc.
Qed.

Lemma logs_grow_finish_run : steps logs_grow (finish_run env).
Proof.
  assert (Sp : forall l m, steps logs_grow (spec_write env l m)).
  { intros l m s. split; [exists [m] | exists []].
    - unfold messages. cbn. apply map_app.
    - symmetry. apply app_nil_r. }
  assert (Er : forall m, steps logs_grow (error_write env m)).
  { intros m s. split; [exists [] | exists [m]].
    - symmetry. apply app_nil_r.
    - unfold error_channel. cbn. apply error_channel_app. }
  assert (Q : forall c, is_mutating c = false -> steps logs_grow (run_cmd env c)).
  { intros c _ s. split; exists []; symmetry; apply app_nil_r. }
  assert (Fi : forall c, c <> ErrorRecord EmptyString EmptyString ->
                         match c with ErrorRecord _ _ => False | _ => True end ->
                         steps logs_grow (file_write c)).
  { intros c _ Hc s. split; [exists []; symmetry; apply app_nil_r|].
    exists []. unfold error_channel. cbn. rewrite error_channel_app.
    destruct c; [destruct Hc | reflexivity ..]. }
  unfold finish_run, append_summary.
  repeat first
    [ apply (steps_bind _ logs_grow_trans); [|intros]
    | apply (steps_log_info env _ Sp)
    | apply (steps_log_error env _ logs_grow_trans Sp Er)
    | apply (steps_get _ logs_grow_refl)
    | apply (steps_raise _ logs_grow_refl)
    | apply Er | apply Sp
    | apply Q; reflexivity
    | apply Fi; [discriminate | exact I]
    | intros s0; split; exists []; symmetry; apply app_nil_r
    | match goal with
      | |- steps _ (match ?x with _ => _ end) => destruct x
      end ].
Qed.

End Enumeration.

(** C9.  When the enumeration command fails, [get_external_disks] logs
    the error and returns the empty list, and the run is not stopped: it
    reports that no disk was found, makes no call on any disk, appends the
    summary and ends in [sys.exit(0)], that is with status 0. *)
Theorem enumeration_failure_is_not_fatal
    (env : Env) (mode : run_mode) (s : State) (e : string) :
  world env (trace s) ListExternal = Err e ->
  (fst (get_external_disks env s) = Ret [] /\
   error_channel (snd (get_external_disks env s)) =
   error_channel s ++
   [("Failed to list external physical disks. Error: " ++ strip e)%string]) /\
  fst (run_checks env mode s) = Raise (SystemExit (ExitCode 0)) /\
  exit_status (fst (run_checks env mode s)) = 0%Z /\
  (exists l, messages (snd (run_checks env mode s)) =
             messages s ++
             [("Starting disk checks in '" ++ mode_name mode ++ "' mode.")%string;
              ("Failed to list external physical disks. Error: " ++ strip e)%string;
              "No external disks found to check."] ++ l) /\
  (exists tail, calls (snd (run_checks env mode s)) = calls s ++ ListExternal :: tail /\
                Forall (fun c => is_mutating c = false) tail) /\
  (log_io_ok env -> summaries (snd (run_checks env mode s)) = S (summaries s)).
Proof.
  intros W.
  assert (G : get_external_disks env s =
              (Ret [],
               snd (log_error env
                      ("Failed to list external physical disks. Error: " ++ strip e)
                      (set_trace (trace s ++ [(ListExternal, Err e)]) s)))).
  { unfold get_external_disks. rewrite bind_run_cmd, W, bind_log_error. reflexivity. }
  split.
  { rewrite G. split; [reflexivity|]. exec. channel. reflexivity. }
  unfold run_checks. rewrite bind_log_info.
  unfold get_external_disks. rewrite bind_assoc, bind_run_cmd.
  cbn [trace snd log_info spec_write set_spec_log]. rewrite W.
  rewrite bind_assoc, bind_log_error, bind_ret_l. cbn [check_all].
  rewrite bind_log_info.
  match goal with |- context [finish_run env ?s0] => set (s3 := s0) end.
  assert (M3 : messages s3 =
               messages s ++
               [("Starting disk checks in '" ++ mode_name mode ++ "' mode.")%string;
                ("Failed to list external physical disks. Error: " ++ strip e)%string;
                "No external disks found to check."]).
  { unfold s3, messages. exec. rewrite !map_app, <- !app_assoc. reflexivity. }
  assert (C3 : calls s3 = calls s ++ [ListExternal]).
  { unfold s3, calls. exec. rewrite map_app. reflexivity. }
  assert (S3 : summaries s3 = summaries s).
  { unfold s3, summaries. exec. apply summaries_snoc_record. }
  clearbody s3.
  destruct (finish_run_outcome env s3) as [F [_ [_ [[tail [Ct Ft]] [_ Sm]]]]].
  destruct (logs_grow_finish_run env s3) as [[l Ml] _].
  split; [exact F|]. split; [rewrite F; reflexivity|]. split; [|split].
  - exists l. rewrite Ml, M3, <- app_assoc. reflexivity.
  - exists tail. split; [|exact Ft]. rewrite Ct, C3, <- app_assoc. reflexivity.
  - intros IO. rewrite (proj1 (Sm IO)), S3. reflexivity.
Qed.

Lemma enumeration_failure_is_not_fatal_witness :
  world (env_of world_no_listing) (trace (initial_state [])) ListExternal
  = Err "could not list" /\
  fst (run_checks (env_of world_no_listing) normal (initial_state []))
  = Raise (SystemExit (ExitCode 0)).
Proof.
  split; [reflexivity|].
  exact (proj1 (proj2 (enumeration_failure_is_not_fatal (env_of world_no_listing) normal
                         (initial_state []) "could not list" eq_refl))).
Defined.

(* ================================================================== *)
(** * Runs on the sample environments *)
(* ================================================================== *)

Example healthy_run :
  let r := run_process (env_of world_healthy) flag_normal [] in
  fst r = 0%Z /\
  UNMOUNTED_DISKS (snd r) = [] /\
  filter is_mutating (calls (snd r)) =
  [UnmountDisk "/dev/disk2"; VerifyVolume "/dev/disk2"; MountDisk "/dev/disk2"] /\
  error_file (snd r) = [SummaryHeader; SummaryClean].
Proof. vm_compute. repeat split; reflexivity. Qed.

Example broken_run :
  let r := run_process (env_of world_broken) flag_normal [] in
  fst r = 0%Z /\
  UNMOUNTED_DISKS (snd r) = [] /\
  filter is_mutating (calls (snd r)) =
  [UnmountDisk "/dev/disk2"; VerifyVolume "/dev/disk2"; RepairVolume "/dev/disk2";
   MountDisk "/dev/disk2"] /\
  error_channel (snd r) =
  ["/dev/disk2 verification found issues: b'invalid b-tree'";
   "Error: /dev/disk2 repair failed. Manual intervention may be required: b'cannot repair'"].
Proof. vm_compute. repeat split; reflexivity. Qed.

Example menu_dry_run :
  let r := run_process (env_of world_healthy) (mkArgs false false) ["x"; " 2 "] in
  fst r = 0%Z /\
  filter is_mutating (calls (snd r)) = [] /\
  stdin (snd r) = [].
Proof. vm_compute. repeat split; reflexivity. Qed.

Example missing_command_run :
  let r := run_process (env_of world_no_grep) flag_normal [] in
  fst r = 1%Z /\
  CLEANUP_DONE (snd r) = true /\
  summaries (snd r) = 1%nat.
Proof. vm_compute. repeat split; reflexivity. Qed.

Example interrupted_run :
  let s := mkState ["/dev/disk2"] false [] [] [] [] [] in
  let r := on_signal (env_of world_healthy) s in
  fst r = 1%Z /\
  UNMOUNTED_DISKS (snd r) = [] /\
  calls (snd r) = [MountDisk "/dev/disk2"; ReadErrorLog; AppendErrorLog].
Proof. vm_compute. repeat split; reflexivity. Qed.

(* ================================================================== *)
(** * Further properties of the functions *)
(* ================================================================== *)

(** ** Reading the filesystem type *)

Lemma split_char_absent (c : ascii) (s : string) :
  contains (String c EmptyString) s = false -> split_char c s = [s].
Proof.
  induction s as [|x s IH]; cbn [contains String.prefix split_char]; intros H.
  - reflexivity.
  - apply orb_false_iff in H. destruct H as [H1 H2].
    destruct (ascii_dec c x) as [->|N].
    + destruct s; discriminate H1.
    + destruct (Ascii.eqb x c) eqn:E.
      * apply Ascii.eqb_eq in E. subst x. now elim N.
      * rewrite (IH H2). reflexivity.
Qed.

(** X1.  [get_filesystem] makes one call, [diskutil info], and leaves the
    list alone.  When that call fails, or when no line of its output
    holds ["Type (Bundle)"], it logs one error and returns ["unknown"].
    It raises, and then an [IndexError], exactly when the first line that
    holds ["Type (Bundle)"] has no colon. *)
Theorem get_filesystem_unknown_and_error (env : Env) (d : string) (s : State) :
  calls (snd (get_filesystem env d s)) = calls s ++ [Info d] /\
  UNMOUNTED_DISKS (snd (get_filesystem env d s)) = UNMOUNTED_DISKS s /\
  (forall e,
      world env (trace s) (Info d) = Err e ->
      fst (get_filesystem env d s) = Ret "unknown" /\
      error_channel (snd (get_filesystem env d s)) =
      error_channel s ++
      [("Failed to get filesystem info for " ++ d ++ ". Error: " ++ strip e)%string]) /\
  (forall out,
      world env (trace s) (Info d) = Ok out ->
      find (contains "Type (Bundle)") (splitlines out) = None ->
      fst (get_filesystem env d s) = Ret "unknown" /\
      error_channel (snd (get_filesystem env d s)) =
      error_channel s ++ [("Filesystem type not found for " ++ d ++ ".")%string]) /\
  (forall x,
      fst (get_filesystem env d s) = Raise x <->
      x = IndexError /\
      exists out line,
        world env (trace s) (Info d) = Ok out /\
        find (contains "Type (Bundle)") (splitlines out) = Some line /\
        contains ":" line = false).
Proof.
  unfold get_filesystem. rewrite bind_run_cmd. unfold calls.
  destruct (world env (trace s) (Info d)) as [out|e] eqn:W.
  - destruct (find (contains "Type (Bundle)") (splitlines out)) as [line|] eqn:F.
    + destruct (contains ":" line) eqn:C.
      * destruct (split_char_second ":" line C) as [f Hf]. rewrite Hf. exec.
        rewrite map_app.
        split; [reflexivity|]. split; [reflexivity|]. split; [intros e H; discriminate H|].
        split; [intros out' H G; congruence|].
        intros x. split; [intros H; discriminate H|].
        intros [_ [out' [line' [H1 [H2 H3]]]]]. congruence.
      * rewrite (split_char_absent ":" line C). cbn [nth_error]. exec. rewrite map_app.
        split; [reflexivity|]. split; [reflexivity|]. split; [intros e H; discriminate H|].
        split; [intros out' H G; congruence|].
        intros x. split.
        -- intros H. injection H as <-. split; [reflexivity|].
           exists out, line. repeat split; assumption.
        -- intros [-> _]. reflexivity.
    + exec. rewrite map_app.
      split; [reflexivity|]. split; [reflexivity|]. split; [intros e H; discriminate H|].
      split.
      * intros out' _ _. split; [reflexivity|]. channel. reflexivity.
      * intros x. split; [intros H; discriminate H|].
        intros [_ [out' [line' [H1 [H2 _]]]]]. congruence.
  - exec. rewrite map_app.
    split; [reflexivity|]. split; [reflexivity|]. split.
    + intros e' H. injection H as <-. split; [reflexivity|]. channel. reflexivity.
    + split; [intros out H; discriminate H|].
      intros x. split; [intros H; discriminate H|].
      intros [_ [out' [line' [H1 _]]]]. discriminate H1.
Qed.

Lemma lower_char_idem (c : ascii) : lower_char (lower_char c) = lower_char c.
Proof. destruct c as [[] [] [] [] [] [] [] []]; vm_compute; reflexivity. Qed.

Lemma is_space_lower_char (c : ascii) : is_space (lower_char c) = is_space c.
Proof. destruct c as [[] [] [] [] [] [] [] []]; vm_compute; reflexivity. Qed.

Lemma lower_idem (s : string) : lower (lower s) = lower s.
Proof.
  induction s as [|c s IH]; cbn [lower]; [reflexivity|].
  rewrite lower_char_idem, IH. reflexivity.
Qed.

Lemma lower_lstrip (s : string) :
  lower (lstrip_with is_space s) = lstrip_with is_space (lower s).
Proof.
  induction s as [|c s IH]; cbn [lower lstrip_with]; [reflexivity|].
  rewrite is_space_lower_char. destruct (is_space c); [exact IH | reflexivity].
Qed.

Lemma lower_rstrip (s : string) :
  lower (rstrip_with is_space s) = rstrip_with is_space (lower s).
Proof.
  induction s as [|c s IH]; cbn [lower rstrip_with]; [reflexivity|].
  rewrite <- IH, is_space_lower_char.
  destruct (rstrip_with is_space s); cbn [lower]; [|reflexivity].
  destruct (is_space c); reflexivity.
Qed.

Lemma lower_strip (s : string) : lower (strip s) = strip (lower s).
Proof. unfold strip, strip_with. rewrite lower_rstrip, lower_lstrip. reflexivity. Qed.

Lemma rstrip_idem (sp : ascii -> bool) (s : string) :
  rstrip_with sp (rstrip_with sp s) = rstrip_with sp s.
Proof.
  induction s as [|c s IH]; cbn [rstrip_with]; [reflexivity|].
  destruct (rstrip_with sp s) as [|x r] eqn:E.
  - destruct (sp c) eqn:Sc; cbn [rstrip_with]; [reflexivity|].
    rewrite Sc. reflexivity.
  - cbn [rstrip_with]. cbn [rstrip_with] in IH. rewrite IH. reflexivity.
Qed.

(** What [lstrip] leaves is empty or starts with a character that is not
    a blank, and [rstrip] keeps that character. *)
Lemma lstrip_rstrip (sp : ascii -> bool) (s : string) :
  lstrip_with sp (rstrip_with sp (lstrip_with sp s)) = rstrip_with sp (lstrip_with sp s).
Proof.
  induction s as [|c s IH]; cbn [lstrip_with]; [reflexivity|].
  destruct (sp c) eqn:Sc; [exact IH|].
  cbn [rstrip_with]. rewrite Sc.
  destruct (rstrip_with sp s); cbn [lstrip_with]; rewrite Sc; reflexivity.
Qed.

Lemma strip_idem (sp : ascii -> bool) (s : string) :
  strip_with sp (strip_with sp s) = strip_with sp s.
Proof.
  unfold strip_with. rewrite lstrip_rstrip. apply rstrip_idem.
Qed.

(** X2.  The type [get_filesystem] returns is in lower case and has no
    blank at either end, whatever [diskutil info] printed. *)
Theorem get_filesystem_normalised (env : Env) (d fs : string) (s : State) :
  fst (get_filesystem env d s) = Ret fs -> lower fs = fs /\ strip fs = fs.
Proof.
  unfold get_filesystem. rewrite bind_run_cmd.
  destruct (world env (trace s) (Info d)) as [out|e].
  - destruct (find (contains "Type (Bundle)") (splitlines out)) as [line|].
    + destruct (nth_error (split_char ":" line) 1) as [f|]; exec; intros H.
      * injection H as <-. split; [apply lower_idem|].
        rewrite <- lower_strip. unfold strip. rewrite strip_idem. reflexivity.
      * discriminate H.
    + exec. intros H. injection H as <-. split; reflexivity.
  - exec. intros H. injection H as <-. split; reflexivity.
Qed.

Lemma get_filesystem_normalised_witness :
  fst (get_filesystem (env_of world_healthy) "/dev/disk2" (initial_state [])) = Ret "apfs" /\
  lower "apfs" = "apfs" /\ strip "apfs" = "apfs".
Proof.
  split; [vm_compute; reflexivity|].
  apply (get_filesystem_normalised (env_of world_healthy) "/dev/disk2" "apfs" (initial_state [])).
  vm_compute. reflexivity.
Defined.

(** ** The system-disk test *)

Lemma prefix_trans (a b c : string) :
  String.prefix a b = true -> String.prefix b c = true -> String.prefix a c = true.
Proof.
  revert b c. induction a as [|x a IH]; intros b c H1 H2.
  - destruct c; reflexivity.
  - destruct b as [|y b]; [discriminate H1|].
    destruct c as [|z c]; [discriminate H2|].
    cbn [String.prefix] in *.
    destruct (ascii_dec x y) as [->|]; [|discriminate H1].
    destruct (ascii_dec y z) as [->|]; [|discriminate H2].
    exact (IH b c H1 H2).
Qed.

(** X3.  The system-disk test is a prefix test: when a disk is reported
    as a system disk, so is every name that is a prefix of its name, on
    the same listing. *)
Theorem is_system_disk_prefix_closed (env : Env) (d d' : string) (s : State) :
  startswith d' d = true ->
  fst (is_system_disk env d s) = Ret true ->
  fst (is_system_disk env d' s) = Ret true.
Proof.
  unfold is_system_disk, startswith. intros P. rewrite !bind_run_cmd.
  destruct (world env (trace s) ListAll) as [out|e]; [|exec; intros H; discriminate H].
  destruct (existsb (fun sys_disk => String.prefix d sys_disk) _) eqn:E;
    [|exec; intros H; discriminate H].
  intros _. apply existsb_exists in E. destruct E as [x [Hin Hx]].
  assert (E' : existsb (fun sys_disk => String.prefix d' sys_disk)
                 (map first_word (filter is_partition_line (splitlines out))) = true).
  { apply existsb_exists. exists x. split; [exact Hin|]. exact (prefix_trans _ _ _ P Hx). }
  rewrite E'. reflexivity.
Qed.

Lemma is_system_disk_prefix_closed_witness :
  fst (is_system_disk (env_of world_system) "/dev/disk" (initial_state [])) = Ret true.
Proof.
  apply (is_system_disk_prefix_closed (env_of world_system) "/dev/disk2" "/dev/disk"
           (initial_state [])); vm_compute; reflexivity.
Defined.

(** ** Remounting *)

(** X4.  In normal mode [mount_disk] asks for one remount.  When it
    succeeds, one occurrence of the disk leaves the list and every other
    entry stays; for a disk that is not in the list the [remove] raises
    [ValueError], after the remount has been done.  When it fails, the
    list is as it was and the failure is logged as an error. *)
Theorem mount_disk_outcomes (env : Env) (d : string) (s : State) :
  let r := mount_disk env d normal s in
  calls (snd r) = calls s ++ [MountDisk d] /\
  match world env (trace s) (MountDisk d) with
  | Ok _ =>
      error_channel (snd r) = error_channel s /\
      if in_list d (UNMOUNTED_DISKS s) then
        fst r = Ret tt /\
        forall x, count_occ string_dec (UNMOUNTED_DISKS s) x =
                  (count_occ string_dec (UNMOUNTED_DISKS (snd r)) x +
                   if string_dec d x then 1 else 0)%nat
      else
        fst r = Raise ValueError /\ UNMOUNTED_DISKS (snd r) = UNMOUNTED_DISKS s
  | Err e =>
      fst r = Ret tt /\
      UNMOUNTED_DISKS (snd r) = UNMOUNTED_DISKS s /\
      error_channel (snd r) = error_channel s ++ [remount_msg d e]
  end.
Proof.
  unfold mount_disk. cbn [is_dry]. cbv zeta.
  rewrite bind_log_info, bind_run_cmd. unfold calls.
  destruct (world env (trace (snd (log_info env _ s))) (MountDisk d)) as [o|e] eqn:W;
    exec; rewrite W.
  - destruct (in_list d (UNMOUNTED_DISKS s)) eqn:I.
    + destruct (list_remove_In d _ (proj1 (in_list_In _ _) I)) as [l L].
      rewrite L. proj. split; [apply map_app|]. split; [reflexivity|].
      split; [reflexivity|]. exact (list_remove_count _ _ _ L).
    + destruct (list_remove d (UNMOUNTED_DISKS s)) as [l|] eqn:L; proj.
      * exfalso. assert (K : In d (UNMOUNTED_DISKS s)).
        { apply (count_occ_In string_dec).
          rewrite (list_remove_count _ _ _ L d).
          destruct (string_dec d d) as [_|N]; [lia | now elim N]. }
        apply in_list_In in K. congruence.
      * split; [apply map_app|]. repeat split; reflexivity.
  - split; [apply map_app|]. split; [reflexivity|]. split; [reflexivity|].
    channel. reflexivity.
Qed.

(** ** Verification and repair *)

(** X5.  [verify_filesystem] returns, whatever the commands answer, and
    leaves the list alone.  It runs no command for a type outside the
    allow-list or in a dry run; otherwise it verifies, and asks for a
    repair only after a failed verification.  A failed verification is
    logged as an error even when the repair then succeeds. *)
Theorem verify_filesystem_outcomes (env : Env) (d fs : string) (mode : run_mode) (s : State) :
  let r := verify_filesystem env d fs mode s in
  fst r = Ret tt /\
  UNMOUNTED_DISKS (snd r) = UNMOUNTED_DISKS s /\
  ((in_list fs SUPPORTED_FILESYSTEMS = false /\
    trace (snd r) = trace s /\
    error_channel (snd r) = error_channel s ++ [unsupported_msg d fs]) \/
   (in_list fs SUPPORTED_FILESYSTEMS = true /\ mode = dry /\
    trace (snd r) = trace s /\
    error_channel (snd r) = error_channel s) \/
   (in_list fs SUPPORTED_FILESYSTEMS = true /\ mode = normal /\
    ((exists o,
         trace (snd r) = trace s ++ [(VerifyVolume d, Ok o)] /\
         error_channel (snd r) = error_channel s) \/
     (exists e o,
         trace (snd r) = trace s ++ [(VerifyVolume d, Err e); (RepairVolume d, Ok o)] /\
         error_channel (snd r) = error_channel s ++ [issues_msg d e]) \/
     (exists e e',
         trace (snd r) = trace s ++ [(VerifyVolume d, Err e); (RepairVolume d, Err e')] /\
         error_channel (snd r) = error_channel s ++ [issues_msg d e; manual_msg d e'])))).
Proof.
  unfold verify_filesystem. cbv zeta.
  destruct (in_list fs SUPPORTED_FILESYSTEMS) eqn:I; cbn [negb].
  - destruct mode; cbn [is_dry].
    + rewrite bind_log_info, bind_run_cmd.
      destruct (world env _ (VerifyVolume d)) as [o|e] eqn:V.
      * exec. split; [reflexivity|]. split; [reflexivity|].
        right. right. split; [reflexivity|]. split; [reflexivity|].
        left. exists o. split; reflexivity.
      * rewrite bind_log_error, bind_log_info, bind_run_cmd.
        destruct (world env _ (RepairVolume d)) as [o|e'] eqn:P.
        -- exec. split; [reflexivity|]. split; [reflexivity|].
           right. right. split; [reflexivity|]. split; [reflexivity|].
           right. left. exists e, o. rewrite <- app_assoc. split; [reflexivity|].
           channel. reflexivity.
        -- exec. split; [reflexivity|]. split; [reflexivity|].
           right. right. split; [reflexivity|]. split; [reflexivity|].
           right. right. exists e, e'. rewrite <- app_assoc. split; [reflexivity|].
           channel. reflexivity.
    + exec. split; [reflexivity|]. split; [reflexivity|].
      right. left. repeat split; reflexivity.
  - exec. split; [reflexivity|]. split; [reflexivity|].
    left. split; [reflexivity|]. split; [reflexivity|]. channel. reflexivity.
Qed.

(** ** The summary *)

(** X6.  When the error log cannot be read, or cannot be opened for
    appending, [append_summary] writes no summary: it logs the failure as
    an error and returns. *)
Theorem append_summary_failure (env : Env) (s : State) (e : string) :
  world env (trace s) ReadErrorLog = Err e \/
  (exists o, world env (trace s) ReadErrorLog = Ok o /\
             world env (trace s ++ [(ReadErrorLog, Ok o)]) AppendErrorLog = Err e) ->
  let r := append_summary env s in
  fst r = Ret tt /\
  summaries (snd r) = summaries s /\
  error_channel (snd r) =
  error_channel s ++ [("Failed to append summary to error log: " ++ e)%string] /\
  exists t m, error_file (snd r) = error_file s ++ [ErrorRecord t m].
Proof.
  intros H. unfold append_summary. cbv zeta. rewrite bind_run_cmd.
  destruct H as [H|[o [H1 H2]]].
  - rewrite H. exec. split; [reflexivity|]. unfold summaries. proj.
    split; [apply summaries_snoc_record|]. split; [channel; reflexivity|].
    eexists _, _. reflexivity.
  - rewrite H1. rewrite bind_get, bind_run_cmd. cbn [trace set_trace]. rewrite H2.
    exec. split; [reflexivity|]. unfold summaries. proj.
    split; [apply summaries_snoc_record|]. split; [channel; reflexivity|].
    eexists _, _. reflexivity.
Qed.

Lemma append_summary_failure_witness :
  let r := append_summary (env_of world_no_log) (initial_state []) in
  fst r = Ret tt /\
  summaries (snd r) = summaries (initial_state []) /\
  error_channel (snd r) =
  error_channel (initial_state []) ++
  [("Failed to append summary to error log: " ++ "Permission denied")%string] /\
  exists t m, error_file (snd r) = error_file (initial_state []) ++ [ErrorRecord t m].
Proof.
  apply (append_summary_failure (env_of world_no_log) (initial_state []) "Permission denied").
  left. reflexivity.
Defined.

(** X7.  The texts of a summary do not hold the word the summary looks
    for: a second summary, appended after the first, gives the same
    recommendation. *)
Theorem append_summary_twice (env : Env) (s : State) :
  log_io_ok env ->
  let s2 := snd ((append_summary env ;; append_summary env) s) in
  error_file s2 =
  error_file s ++ [SummaryHeader; recommendation (error_channel s);
                   SummaryHeader; recommendation (error_channel s)].
Proof.
  intros IO. cbv zeta.
  destruct (append_summary_ok env s IO) as [F1 [_ [_ [_ [E1 _]]]]].
  rewrite (bind_fst_ret _ _ _ _ F1).
  destruct (append_summary_ok env (snd (append_summary env s)) IO)
    as [_ [_ [_ [_ [E2 _]]]]].
  rewrite E2, E1, <- app_assoc. cbn [app].
  assert (C : error_channel (snd (append_summary env s)) = error_channel s).
  { unfold error_channel at 1. rewrite E1, error_channel_app.
    fold (error_channel s).
    replace (flat_map _ [SummaryHeader; recommendation (error_channel s)])
      with (@nil string); [apply app_nil_r|].
    unfold recommendation. destruct (error_channel s); reflexivity. }
  rewrite C. reflexivity.
Qed.

Lemma append_summary_twice_witness :
  let s2 := snd ((append_summary (env_of world_healthy) ;;
                  append_summary (env_of world_healthy)) (initial_state [])) in
  error_file s2 =
  error_file (initial_state []) ++
  [SummaryHeader; recommendation (error_channel (initial_state []));
   SummaryHeader; recommendation (error_channel (initial_state []))].
Proof.
  apply (append_summary_twice (env_of world_healthy) (initial_state [])).
  apply log_io_ok_healthy.
Defined.

(** ** The menu *)

Lemma print_all_effect (texts : list string) (s : State) :
  print_all texts s = (Ret tt, set_stdout (stdout s ++ texts) s).
Proof.
  revert s. induction texts as [|t texts IH]; intros s; cbn [print_all].
  - unfold ret. rewrite app_nil_r. destruct s; reflexivity.
  - unfold bind, print, modify. rewrite IH. proj. rewrite <- app_assoc. reflexivity.
Qed.

Lemma is_choice_false (line : string) :
  is_choice line = false ->
  String.eqb (strip line) "1" = false /\
  String.eqb (strip line) "2" = false /\
  String.eqb (strip line) "3" = false.
Proof.
  unfold is_choice, in_list. cbn [existsb]. intros H.
  apply orb_false_iff in H. destruct H as [H1 H].
  apply orb_false_iff in H. destruct H as [H2 H].
  apply orb_false_iff in H. destruct H as [H3 _]. auto.
Qed.

Lemma menu_loop_skips (invalid lines : list string) (s : State) :
  Forall (fun l => is_choice l = false) invalid ->
  menu_loop (invalid ++ lines) s =
  menu_loop lines
    (set_stdout (stdout s ++ List.concat (map (fun _ => menu_retry) invalid))
       (match invalid with [] => s | _ :: _ => set_stdin lines s end)).
Proof.
  intros H. revert s. induction H as [|l invalid Hl H IH]; intros s.
  - cbn [app map List.concat]. rewrite app_nil_r. destruct s; reflexivity.
  - cbn [app menu_loop]. destruct (is_choice_false l Hl) as [H1 [H2 H3]].
    unfold bind at 1. rewrite print_all_effect.
    unfold bind at 1, print at 1, modify at 1.
    unfold bind at 1, modify at 1. rewrite H1, H2, H3.
    unfold bind at 1, print at 1, modify at 1.
    rewrite IH. proj. cbn [map List.concat]. unfold menu_retry.
    rewrite <- !app_assoc. cbn [app].
    destruct invalid; reflexivity.
Qed.

(** X8.  The menu asks again after each line that is not one of the three
    choices, and the first line that is one decides: [1] and [2] give the
    mode, [3] ends the script with status 0.  The lines read are taken
    off the input, the ones after them are left, and neither the disks
    nor the logs are touched. *)
Theorem menu_first_choice_decides (invalid : list string)
        (line : string) (rest : list string) (s : State) :
  Forall (fun l => is_choice l = false) invalid ->
  is_choice line = true ->
  stdin s = invalid ++ line :: rest ->
  let r := show_interactive_menu s in
  fst r = (if String.eqb (strip line) "1" then Ret normal
           else if String.eqb (strip line) "2" then Ret dry
           else Raise (SystemExit (ExitCode 0))) /\
  stdin (snd r) = rest /\
  stdout (snd r) =
  stdout s ++ List.concat (map (fun _ => menu_retry) invalid) ++
  menu_text ++ ["Enter your choice [1-3]: "] ++
  (if String.eqb (strip line) "1" then []
   else if String.eqb (strip line) "2" then [] else ["Exiting."]) /\
  trace (snd r) = trace s /\
  spec_log (snd r) = spec_log s /\
  error_file (snd r) = error_file s /\
  UNMOUNTED_DISKS (snd r) = UNMOUNTED_DISKS s /\
  CLEANUP_DONE (snd r) = CLEANUP_DONE s.
Proof.
  intros Hi Hl Hs. cbv zeta. unfold show_interactive_menu. rewrite bind_get, Hs.
  rewrite (menu_loop_skips invalid (line :: rest) s Hi).
  match goal with |- context [menu_loop _ ?s0] => set (s1 := s0) end.
  assert (O : stdout s1 = stdout s ++ List.concat (map (fun _ => menu_retry) invalid))
    by reflexivity.
  assert (T : trace s1 = trace s) by (unfold s1; destruct invalid; reflexivity).
  assert (L : spec_log s1 = spec_log s) by (unfold s1; destruct invalid; reflexivity).
  assert (E : error_file s1 = error_file s) by (unfold s1; destruct invalid; reflexivity).
  assert (U : UNMOUNTED_DISKS s1 = UNMOUNTED_DISKS s)
    by (unfold s1; destruct invalid; reflexivity).
  assert (D : CLEANUP_DONE s1 = CLEANUP_DONE s) by (unfold s1; destruct invalid; reflexivity).
  clearbody s1. cbn [menu_loop].
  unfold bind. rewrite print_all_effect. unfold print, modify.
  unfold is_choice, in_list in Hl. cbn [existsb] in Hl.
  destruct (String.eqb (strip line) "1") eqn:H1.
  { exec. rewrite O, <- !app_assoc. cbn [app].
    repeat split; try assumption; reflexivity. }
  destruct (String.eqb (strip line) "2") eqn:H2.
  { exec. rewrite O, <- !app_assoc. cbn [app].
    repeat split; try assumption; reflexivity. }
  destruct (String.eqb (strip line) "3") eqn:H3; [|discriminate Hl].
  exec. rewrite O, <- !app_assoc. cbn [app].
  repeat split; try assumption; reflexivity.
Qed.

Lemma menu_first_choice_decides_witness :
  fst (show_interactive_menu (initial_state ["x"; " 2 "; "1"])) =
  Ret dry.
Proof.
  apply (menu_first_choice_decides ["x"] " 2 " ["1"]
           (initial_state ["x"; " 2 "; "1"])).
  - repeat constructor.
  - reflexivity.
  - reflexivity.
Defined.

Lemma menu_loop_end (invalid : list string) (s : State) :
  Forall (fun l => is_choice l = false) invalid ->
  menu_loop invalid s =
  (Raise EOFError,
   set_stdout (stdout s ++ List.concat (map (fun _ => menu_retry) invalid) ++
               menu_text ++ ["Enter your choice [1-3]: "])
     (match invalid with [] => s | _ :: _ => set_stdin [] s end)).
Proof.
  intros Hi. rewrite <- (app_nil_r invalid) at 1.
  rewrite (menu_loop_skips invalid [] s Hi).
  cbn [menu_loop]. unfold bind. rewrite print_all_effect.
  exec. repeat rewrite <- app_assoc. destruct invalid; reflexivity.
Qed.

(** X9.  When the input ends before a line that is one of the three
    choices, the menu ends in [EOFError], having shown itself once more
    than there were lines; nothing else has changed. *)
Theorem menu_end_of_input (s : State) :
  Forall (fun l => is_choice l = false) (stdin s) ->
  let r := show_interactive_menu s in
  fst r = Raise EOFError /\
  stdin (snd r) = [] /\
  stdout (snd r) =
  stdout s ++ List.concat (map (fun _ => menu_retry) (stdin s)) ++
  menu_text ++ ["Enter your choice [1-3]: "] /\
  trace (snd r) = trace s /\
  spec_log (snd r) = spec_log s /\
  error_file (snd r) = error_file s /\
  UNMOUNTED_DISKS (snd r) = UNMOUNTED_DISKS s /\
  CLEANUP_DONE (snd r) = CLEANUP_DONE s.
Proof.
  intros Hi. cbv zeta. unfold show_interactive_menu. rewrite bind_get.
  rewrite (menu_loop_end (stdin s) s Hi).
  destruct (stdin s) eqn:E; proj; repeat split; try reflexivity; try assumption.
Qed.

Lemma menu_end_of_input_witness :
  fst (show_interactive_menu (initial_state ["x"; "12"])) =
  Raise EOFError.
Proof.
  apply (menu_end_of_input (initial_state ["x"; "12"])).
  repeat constructor.
Defined.

(** ** The prerequisites *)

Lemma failed_commands_app (a b : list event) :
  failed_commands (a ++ b) = failed_commands a ++ failed_commands b.
Proof. apply flat_map_app. Qed.

Lemma find_missing_probes (env : Env) (cmds acc : list string) (s : State) :
  exists evs,
    fst (find_missing env cmds acc s) = Ret (acc ++ failed_commands evs) /\
    trace (snd (find_missing env cmds acc s)) = trace s ++ evs /\
    map fst evs = map Which cmds /\
    error_file (snd (find_missing env cmds acc s)) = error_file s.
Proof.
  revert acc s. induction cmds as [|cmd cmds IH]; intros acc s; cbn [find_missing].
  - exists []. cbn. rewrite !app_nil_r. repeat split; reflexivity.
  - unfold command_exists. rewrite bind_assoc, bind_run_cmd.
    destruct (world env (trace s) (Which cmd)) as [o|e] eqn:W; rewrite bind_ret_l; cbn [negb].
    + destruct (IH acc (set_trace (trace s ++ [(Which cmd, Ok o)]) s))
        as [evs [F [T [C E]]]].
      exists ((Which cmd, Ok o) :: evs). rewrite F, T, E. proj.
      rewrite <- app_assoc. cbn [map fst app]. rewrite C.
      repeat split; reflexivity.
    + destruct (IH (acc ++ [cmd]) (set_trace (trace s ++ [(Which cmd, Err e)]) s))
        as [evs [F [T [C E]]]].
      exists ((Which cmd, Err e) :: evs). rewrite F, T, E. proj.
      rewrite <- !app_assoc. cbn [map fst app]. rewrite C.
      repeat split; reflexivity.
Qed.

Lemma log_missing_logs (env : Env) (l : list string) (s : State) :
  fst (log_missing env l s) = Ret tt /\
  trace (snd (log_missing env l s)) = trace s /\
  error_channel (snd (log_missing env l s)) = error_channel s ++ map missing_msg l.
Proof.
  revert s. induction l as [|cmd l IH]; intros s; cbn [log_missing].
  - cbn. rewrite app_nil_r. repeat split; reflexivity.
  - rewrite bind_log_error.
    destruct (IH (snd (log_error env
                (("Required command '" ++ cmd ++ "' not found or not executable.")%string) s)))
      as [F [T C]].
    rewrite F, T, C. split; [reflexivity|]. split; [reflexivity|].
    exec. channel. reflexivity.
Qed.

(** X10.  [check_required_commands] probes each of the nine commands, in
    the order of the list, whatever the earlier probes answered.  It
    returns when all were found; otherwise it logs one error for each
    command that is missing, then the search path, then a last error, and
    ends the script with a message. *)
Theorem check_required_commands_reports_all (env : Env) (s : State) :
  let r := check_required_commands env s in
  exists evs,
    trace (snd r) = trace s ++ evs /\
    map fst evs = map Which REQUIRED_COMMANDS /\
    match failed_commands evs with
    | [] => fst r = Ret tt /\ error_channel (snd r) = error_channel s
    | _ :: _ =>
        fst r = Raise (SystemExit
                         (ExitMsg "Missing required commands. Check error logs for details.")) /\
        error_channel (snd r) =
        error_channel s ++ map missing_msg (failed_commands evs) ++
        [("Current PATH: " ++ env_PATH env)%string;
         "One or more required commands are missing. Please install them or ensure they are in your PATH."]
    end.
Proof.
  cbv zeta. unfold check_required_commands.
  destruct (find_missing_probes env REQUIRED_COMMANDS [] s) as [evs [F [T [C E]]]].
  exists evs. rewrite (bind_fst_ret _ _ _ _ F). cbn [app].
  set (s1 := snd (find_missing env REQUIRED_COMMANDS [] s)) in *.
  assert (E1 : error_channel s1 = error_channel s) by (unfold error_channel; now rewrite E).
  destruct (failed_commands evs) as [|c l] eqn:M.
  - split; [exact T|]. split; [exact C|]. split; [reflexivity | exact E1].
  - destruct (log_missing_logs env (c :: l) s1) as [F2 [T2 C2]].
    rewrite (bind_fst_ret _ _ _ _ F2).
    set (s2 := snd (log_missing env (c :: l) s1)) in *.
    rewrite !bind_log_error. exec.
    split; [rewrite T2; exact T|]. split; [exact C|]. split; [reflexivity|].
    channel. fold (error_channel s2). rewrite C2, E1, <- app_assoc. reflexivity.
Qed.

(* ================================================================== *)
(** * Walking through the script by whole log writes *)
(* ================================================================== *)

(** The functions of the script step along any preorder that the writes
    to the logs, the commands among [okc] and the updates of the list for
    the disks among [okd] step along. *)
Section Walk.

Variable env : Env.
Variable R : State -> State -> Prop.
Variable okc : call -> Prop.
Variable okd : string -> Prop.

Hypothesis R_refl : forall s, R s s.
Hypothesis R_trans : forall a b c, R a b -> R b c -> R a c.
Hypothesis R_info : forall msg, steps R (log_info env msg).
Hypothesis R_err : forall msg, steps R (log_error env msg).
Hypothesis R_out : forall t, steps R (print t).
Hypothesis R_in : forall l, steps R (modify (set_stdin l)).
Hypothesis R_run : forall c, okc c -> steps R (run_cmd env c).
Hypothesis R_add :
  forall d, okd d ->
            steps R (modify (fun s => set_UNMOUNTED_DISKS (UNMOUNTED_DISKS s ++ [d]) s)).
Hypothesis R_del : forall d, okd d -> steps R (remove_unmounted d).

Ltac walk :=
  repeat first
    [ apply (steps_ret R R_refl) | apply (steps_raise R R_refl)
    | apply (steps_get R R_refl)
    | apply R_info | apply R_err | apply R_out | apply R_in
    | apply R_run; assumption | apply R_add; assumption | apply R_del; assumption
    | apply (steps_bind R R_trans); [|intros]
    | match goal with
      | |- steps _ (match ?x with _ => _ end) => destruct x
      end ].

Lemma walk_find_missing (cmds acc : list string) :
  (forall c, okc (Which c)) -> steps R (find_missing env cmds acc).
Proof.
  intros W. revert acc. induction cmds as [|c cmds IH]; intros acc; cbn [find_missing].
  - walk.
  - apply (steps_bind R R_trans).
    + unfold command_exists. pose proof (W c). walk.
    + intros b. destruct b; cbn [negb]; apply IH.
Qed.

Lemma walk_log_missing (l : list string) : steps R (log_missing env l).
Proof.
  induction l as [|c l IH]; cbn [log_missing]; [walk|].
  apply (steps_bind R R_trans); [apply R_err | intros _; exact IH].
Qed.

Lemma walk_check_required_commands :
  (forall c, okc (Which c)) -> steps R (check_required_commands env).
Proof.
  intros W. unfold check_required_commands.
  apply (steps_bind R R_trans); [apply walk_find_missing, W|].
  intros [|c l]; [walk|].
  apply (steps_bind R R_trans); [apply walk_log_missing|]. intros _. walk.
Qed.

Lemma walk_ensure_root : steps R (ensure_root env).
Proof. unfold ensure_root. destruct (negb _); walk. Qed.

Lemma walk_print_all (l : list string) : steps R (print_all l).
Proof.
  induction l as [|t l IH]; cbn [print_all]; [walk|].
  apply (steps_bind R R_trans); [apply R_out | intros _; exact IH].
Qed.

Lemma walk_menu_loop (lines : list string) : steps R (menu_loop lines).
Proof.
  induction lines as [|line rest IH]; cbn [menu_loop].
  - apply (steps_bind R R_trans); [apply walk_print_all|]. intros _. walk.
  - apply (steps_bind R R_trans); [apply walk_print_all|]. intros _.
    apply (steps_bind R R_trans); [apply R_out|]. intros _.
    apply (steps_bind R R_trans); [apply R_in|]. intros _.
    destruct (String.eqb (strip line) "1"); [walk|].
    destruct (String.eqb (strip line) "2"); [walk|].
    destruct (String.eqb (strip line) "3"); [walk|].
    apply (steps_bind R R_trans); [apply R_out | intros _; exact IH].
Qed.

Lemma walk_select_mode (args : Args) : steps R (select_mode args).
Proof.
  unfold select_mode. destruct (non_interactive args); [walk|].
  destruct (dry_run args); [walk|]. unfold show_interactive_menu.
  apply (steps_bind R R_trans); [walk | intros l; apply walk_menu_loop].
Qed.

Lemma walk_get_filesystem (d : string) :
  okc (Info d) -> steps R (get_filesystem env d).
Proof. intros I. unfold get_filesystem. walk. Qed.

Lemma walk_is_system_disk (d : string) :
  okc ListAll -> steps R (is_system_disk env d).
Proof.
  intros L. unfold is_system_disk.
  apply (steps_bind R R_trans); [walk|]. intros [out|e]; [|walk].
  destruct (existsb _ _); walk.
Qed.

Lemma walk_collect_disks (lines acc : list string) :
  okc ListAll -> steps R (collect_disks env lines acc).
Proof.
  intros L. revert acc. induction lines as [|line rest IH]; intros acc; cbn [collect_disks].
  - walk.
  - destruct (startswith "/dev/disk" line); [|apply IH].
    apply (steps_bind R R_trans); [apply walk_is_system_disk, L|].
    intros b. destruct b; cbn [negb]; apply IH.
Qed.

Lemma walk_get_external_disks :
  okc ListExternal -> okc ListAll -> steps R (get_external_disks env).
Proof.
  intros E L. unfold get_external_disks.
  apply (steps_bind R R_trans); [walk|]. intros [out|e]; [|walk].
  apply (steps_bind R R_trans); [apply walk_collect_disks, L|]. intros l. walk.
Qed.

Lemma walk_unmount_disk (d : string) (mode : run_mode) :
  okc (Info d) -> okc (UnmountDisk d) -> okd d -> steps R (unmount_disk env d mode).
Proof.
  intros I U D. unfold unmount_disk.
  apply (steps_bind R R_trans); [walk|]. intros [out|e]; [|walk].
  destruct (mounted_in _); [|walk]. destruct (is_dry mode); walk.
Qed.

Lemma walk_verify_filesystem (d fs : string) (mode : run_mode) :
  okc (VerifyVolume d) -> okc (RepairVolume d) -> steps R (verify_filesystem env d fs mode).
Proof.
  intros V P. unfold verify_filesystem.
  destruct (negb _); [walk|]. destruct (is_dry mode); walk.
Qed.

Lemma walk_mount_disk (d : string) (mode : run_mode) :
  okc (MountDisk d) -> okd d -> steps R (mount_disk env d mode).
Proof.
  intros Mo D. unfold mount_disk. destruct (is_dry mode); walk.
Qed.

Lemma walk_check_classified (mode : run_mode) (d fs : string) :
  disk_calls okc d -> okd d -> steps R (check_classified env mode d fs).
Proof.
  intros [I [U [V [P Mo]]]] D. unfold check_classified.
  destruct (String.eqb fs "unknown"); [walk|].
  apply (steps_bind R R_trans); [apply walk_unmount_disk; assumption|].
  intros b. destruct b; cbn [negb]; [|walk].
  apply (steps_bind R R_trans); [apply walk_verify_filesystem; assumption|]. intros _.
  apply (steps_bind R R_trans); [walk|]. intros l.
  apply (steps_bind R R_trans); [|intros _; walk].
  destruct (in_list d l); [apply walk_mount_disk; assumption | walk].
Qed.

Lemma walk_check_disk (mode : run_mode) (d : string) :
  disk_calls okc d -> okd d -> steps R (check_disk env mode d).
Proof.
  intros C D. unfold check_disk.
  apply (steps_bind R R_trans); [apply R_info|]. intros _.
  apply (steps_bind R R_trans); [apply R_info|]. intros _.
  apply (steps_bind R R_trans); [apply walk_get_filesystem, C|]. intros fs.
  apply walk_check_classified; assumption.
Qed.

Lemma walk_check_disks (mode : run_mode) (l : list string) :
  Forall (fun d => disk_calls okc d /\ okd d) l -> steps R (check_disks env mode l).
Proof.
  induction 1 as [|d l [C D] _ IH]; cbn [check_disks]; [walk|].
  apply (steps_bind R R_trans); [apply walk_check_disk; assumption | intros _; exact IH].
Qed.

Lemma walk_check_all (mode : run_mode) (l : list string) :
  Forall (fun d => disk_calls okc d /\ okd d) l -> steps R (check_all env mode l).
Proof.
  intros H. unfold check_all. destruct l; [apply R_info | apply walk_check_disks, H].
Qed.

Lemma walk_remount_all (l : list string) :
  Forall (fun d => okc (MountDisk d) /\ okd d) l -> steps R (remount_all env l).
Proof.
  induction 1 as [|d l [C D] _ IH]; cbn [remount_all]; [walk|].
  apply (steps_bind R R_trans); [apply walk_mount_disk; assumption | intros _; exact IH].
Qed.

Lemma main_as_sweep (args : Args) (s : State) :
  main env args s = bind (sweep_of_main env args) (fun _ => finish_run env) s.
Proof.
  unfold main, sweep_of_main, run_checks, bind.
  destruct (check_required_commands env s) as [[[]|e] s1]; [|reflexivity].
  destruct (ensure_root env s1) as [[[]|e] s2]; [|reflexivity].
  destruct (select_mode args s2) as [[mode|e] s3]; [|reflexivity].
  destruct (log_info env _ s3) as [[[]|e] s4]; [|reflexivity].
  destruct (get_external_disks env s4) as [[disks|e] s5]; [|reflexivity].
  destruct (check_all env mode disks s5) as [[[]|e] s6]; reflexivity.
Qed.

Hypothesis okc_which : forall c, okc (Which c).
Hypothesis okc_external : okc ListExternal.
Hypothesis okc_all : okc ListAll.
Hypothesis inventory :
  forall s l, fst (get_external_disks env s) = Ret l ->
              Forall (fun d => disk_calls okc d /\ okd d) l.

Lemma walk_sweep_of_main (args : Args) : steps R (sweep_of_main env args).
Proof.
  unfold sweep_of_main.
  apply (steps_bind R R_trans);
    [apply walk_check_required_commands, okc_which|].
  intros _. apply (steps_bind R R_trans); [apply walk_ensure_root|].
  intros _. apply (steps_bind R R_trans); [apply walk_select_mode|].
  intros mode. apply (steps_bind R R_trans); [apply R_info|].
  intros _ s. unfold bind.
  pose proof (walk_get_external_disks okc_external okc_all s) as G.
  pose proof (inventory s) as I.
  destruct (get_external_disks env s) as [[l|e] s1]; cbn [fst snd] in *; [|exact G].
  eapply R_trans; [exact G|]. apply walk_check_all. apply I. reflexivity.
Qed.

Hypothesis R_write : forall c, is_record c = false -> steps R (file_write c).
Hypothesis R_flag : steps R (modify (set_CLEANUP_DONE true)).
Hypothesis okc_read : okc ReadErrorLog.
Hypothesis okc_append : okc AppendErrorLog.

Lemma walk_append_summary : steps R (append_summary env).
Proof.
  unfold append_summary.
  apply (steps_bind R R_trans); [walk|]. intros [o|e]; [|walk].
  apply (steps_bind R R_trans); [walk|]. intros content.
  apply (steps_bind R R_trans); [walk|]. intros [o'|e]; [|walk].
  apply (steps_bind R R_trans); [apply R_write; reflexivity|]. intros _.
  destruct (contains "ERROR" content);
    (apply (steps_bind R R_trans); [apply R_write; reflexivity | intros _; apply R_info]).
Qed.

Lemma walk_finish_run : steps R (finish_run env).
Proof.
  unfold finish_run.
  apply (steps_bind R R_trans); [apply R_info|]. intros _.
  apply (steps_bind R R_trans); [apply R_info|]. intros _.
  apply (steps_bind R R_trans); [apply walk_append_summary|]. intros _.
  apply (steps_bind R R_trans); [apply R_flag|]. intros _. walk.
Qed.

Lemma walk_main (args : Args) : steps R (main env args).
Proof.
  intros s. rewrite main_as_sweep. revert s.
  apply (steps_bind R R_trans); [apply walk_sweep_of_main | intros _; apply walk_finish_run].
Qed.

(** [cleanup] remounts the disks of the list: it steps along [R] from a
    state whose list holds disks among [okd] that may be remounted. *)
Lemma walk_cleanup (s : State) :
  Forall (fun d => okc (MountDisk d) /\ okd d) (UNMOUNTED_DISKS s) ->
  R s (snd (cleanup env s)).
Proof.
  intros H. unfold cleanup. rewrite bind_get, snd_bind_raise.
  destruct (CLEANUP_DONE s); cbn [negb]; [apply R_refl|].
  rewrite bind_log_info. eapply R_trans; [apply R_info|].
  rewrite bind_get.
  change (UNMOUNTED_DISKS (snd (log_info env
            "Script interrupted or exiting. Performing cleanup." s)))
    with (UNMOUNTED_DISKS s).
  refine (steps_bind R R_trans _ _ _ _ _); [apply walk_remount_all, H|]. intros _.
  apply (steps_bind R R_trans); [apply walk_append_summary | intros _; apply R_flag].
Qed.

End Walk.

(** ** Steps within a set of calls *)

Section FrameWithin.

Variable env : Env.
Variable okc : call -> Prop.
Variable okd : string -> Prop.

Lemma frame_within_refl (s : State) : frame_within okc okd s s.
Proof.
  split; [|reflexivity]. exists []. split; [symmetry; apply app_nil_r | constructor].
Qed.

Lemma frame_within_trans (a b c : State) :
  frame_within okc okd a b -> frame_within okc okd b c -> frame_within okc okd a c.
Proof.
  intros [[e1 [T1 F1]] C1] [[e2 [T2 F2]] C2]. split.
  - exists (e1 ++ e2). rewrite T2, T1, app_assoc. split; [reflexivity|].
    apply Forall_app. split; assumption.
  - intros x N. rewrite (C2 x N). exact (C1 x N).
Qed.

(** A step that leaves the history and the list alone. *)
Lemma frame_within_still {A} (m : M A) :
  (forall s, trace (snd (m s)) = trace s /\
             UNMOUNTED_DISKS (snd (m s)) = UNMOUNTED_DISKS s) ->
  steps (frame_within okc okd) m.
Proof.
  intros H s. destruct (H s) as [T U]. split.
  - exists []. rewrite T. split; [symmetry; apply app_nil_r | constructor].
  - intros x _. rewrite U. reflexivity.
Qed.

Lemma frame_within_info (msg : string) : steps (frame_within okc okd) (log_info env msg).
Proof. apply frame_within_still. intros s. split; reflexivity. Qed.

Lemma frame_within_err (msg : string) : steps (frame_within okc okd) (log_error env msg).
Proof. apply frame_within_still. intros s. split; reflexivity. Qed.

Lemma frame_within_out (t : string) : steps (frame_within okc okd) (print t).
Proof. apply frame_within_still. intros s. split; reflexivity. Qed.

Lemma frame_within_in (l : list string) :
  steps (frame_within okc okd) (modify (set_stdin l)).
Proof. apply frame_within_still. intros s. split; reflexivity. Qed.

Lemma frame_within_write (c : chunk) :
  is_record c = false -> steps (frame_within okc okd) (file_write c).
Proof. intros _. apply frame_within_still. intros s. split; reflexivity. Qed.

Lemma frame_within_flag : steps (frame_within okc okd) (modify (set_CLEANUP_DONE true)).
Proof. apply frame_within_still. intros s. split; reflexivity. Qed.

Lemma frame_within_run (c : call) :
  okc c -> steps (frame_within okc okd) (run_cmd env c).
Proof.
  intros H s. split; [|reflexivity].
  exists [(c, world env (trace s) c)]. split; [reflexivity|].
  constructor; [exact H | constructor].
Qed.

Lemma frame_within_add (d : string) :
  okd d ->
  steps (frame_within okc okd)
        (modify (fun s => set_UNMOUNTED_DISKS (UNMOUNTED_DISKS s ++ [d]) s)).
Proof.
  intros H s. split.
  - exists []. split; [symmetry; apply app_nil_r | constructor].
  - intros x N. unfold modify. proj. rewrite count_occ_app. cbn [count_occ].
    destruct (string_dec d x) as [->|_]; [now elim N | lia].
Qed.

Lemma frame_within_del (d : string) :
  okd d -> steps (frame_within okc okd) (remove_unmounted d).
Proof.
  intros H s. unfold remove_unmounted.
  destruct (list_remove d (UNMOUNTED_DISKS s)) as [l|] eqn:L; [|apply frame_within_refl].
  split.
  - exists []. split; [symmetry; apply app_nil_r | constructor].
  - intros x N. proj. rewrite (list_remove_count _ _ _ L x).
    destruct (string_dec d x) as [->|_]; [now elim N | lia].
Qed.

End FrameWithin.

(** X11.  The turn of a disk in the loop of [main] runs commands on that
    disk only, and changes the list for that disk only: the entries of
    the other disks stay as they are. *)
Theorem check_disk_own_disk (env : Env) (mode : run_mode) (d : string) (s : State) :
  let s' := snd (check_disk env mode d s) in
  (exists evs,
      trace s' = trace s ++ evs /\
      Forall (fun ev => target (fst ev) = Some d) evs) /\
  forall x, x <> d ->
            count_occ string_dec (UNMOUNTED_DISKS s') x =
            count_occ string_dec (UNMOUNTED_DISKS s) x.
Proof.
  cbv zeta.
  assert (H : frame_within (fun c => target c = Some d) (eq d) s
                (snd (check_disk env mode d s))).
  { apply (walk_check_disk env (frame_within (fun c => target c = Some d) (eq d))
             (fun c => target c = Some d) (eq d));
      first [ exact (frame_within_refl _ _) | exact (frame_within_trans _ _)
            | exact (frame_within_info env _ _) | exact (frame_within_err env _ _)
            | exact (frame_within_run env _ _) | exact (frame_within_add _ _)
            | exact (frame_within_del _ _) | reflexivity
            | repeat split; reflexivity ]. }
  destruct H as [W C]. split; [exact W|].
  intros x N. apply C. intros E. apply N. symmetry. exact E.
Qed.

Lemma frame_within_empty (okc : call -> Prop) (okd : string -> Prop) (s s' : State) :
  (forall x, ~ okd x) -> frame_within okc okd s s' ->
  UNMOUNTED_DISKS s = [] -> UNMOUNTED_DISKS s' = [].
Proof.
  intros N [_ C] E. apply (count_occ_inv_nil string_dec). intros x.
  rewrite (C x (N x)), E. reflexivity.
Qed.

(** X12.  When a required command is missing, or the user is not root, the
    script ends with status 1 and has run no [diskutil] command at all:
    the probes of [which] and the opening of the error log for the
    summary are its only calls. *)
Theorem prerequisite_failure_runs_no_diskutil (env : Env) (args : Args)
        (input : list string) :
  (exists cmd, In cmd REQUIRED_COMMANDS /\
               forall h, exists e, world env h (Which cmd) = Err e) \/
  euid env <> 0 ->
  let r := run_process env args input in
  fst r = 1%Z /\
  Forall (fun c => is_diskutil c = false) (calls (snd r)) /\
  UNMOUNTED_DISKS (snd r) = [].
Proof.
  intros H. cbv zeta. unfold run_process.
  set (okc := fun c => is_diskutil c = false).
  set (okd := fun _ : string => False).
  set (s0 := initial_state input).
  assert (Hc : forall s, frame_within okc okd s (snd (check_required_commands env s))).
  { apply (walk_check_required_commands env (frame_within okc okd) okc);
      first [ exact (frame_within_refl _ _) | exact (frame_within_trans _ _)
            | exact (frame_within_err env _ _) | exact (frame_within_run env _ _)
            | intros c; reflexivity ]. }
  assert (Hr : forall s, frame_within okc okd s (snd (ensure_root env s))).
  { apply (walk_ensure_root env (frame_within okc okd));
      first [ exact (frame_within_refl _ _) | exact (frame_within_err env _ _) ]. }
  assert (A : exists m s1, main env args s0 = (Raise (SystemExit (ExitMsg m)), s1) /\
                           frame_within okc okd s0 s1).
  { unfold main. destruct H as [[cmd [Hin L]]|N].
    - destruct (check_required_commands_lacking env cmd s0 Hin L) as [m Hm].
      exists m, (snd (check_required_commands env s0)).
      rewrite (bind_fst_raise _ _ _ _ Hm). split; [reflexivity | apply Hc].
    - destruct (check_required_commands_outcome env s0) as [Rt|[m Hm]].
      + rewrite (bind_fst_ret _ _ _ _ Rt).
        destruct (proj2 (ensure_root_outcome env (snd (check_required_commands env s0))) N)
          as [m Hm].
        exists m, (snd (ensure_root env (snd (check_required_commands env s0)))).
        rewrite (bind_fst_raise _ _ _ _ Hm). split; [reflexivity|].
        eapply frame_within_trans; [apply Hc | apply Hr].
      + exists m, (snd (check_required_commands env s0)).
        rewrite (bind_fst_raise _ _ _ _ Hm). split; [reflexivity | apply Hc]. }
  destruct A as [m [s1 [Hm F1]]]. rewrite Hm. unfold at_exit. cbn [fst snd exit_status].
  split; [reflexivity|].
  assert (U1 : UNMOUNTED_DISKS s1 = []).
  { apply (frame_within_empty okc okd s0 s1); [intros x K; exact K | exact F1 | reflexivity]. }
  assert (F2 : frame_within okc okd s1 (snd (cleanup env s1))).
  { apply (walk_cleanup env (frame_within okc okd) okc okd);
      first [ exact (frame_within_refl _ _) | exact (frame_within_trans _ _)
            | exact (frame_within_info env _ _) | exact (frame_within_err env _ _)
            | exact (frame_within_run env _ _) | exact (frame_within_del _ _)
            | exact (frame_within_write _ _) | exact (frame_within_flag _ _)
            | reflexivity | rewrite U1; constructor ]. }
  pose proof (frame_within_trans _ _ _ _ _ F1 F2) as F.
  split.
  - destruct F as [[evs [T Fa]] _]. unfold calls. rewrite T. cbn [trace s0 initial_state app].
    clear - Fa. induction Fa as [|ev evs Hev _ IH]; cbn [map]; constructor; assumption.
  - apply (frame_within_empty okc okd s0 _); [intros x K; exact K | exact F | reflexivity].
Qed.

Lemma prerequisite_failure_runs_no_diskutil_witness :
  let r := run_process (env_of world_no_grep) flag_normal [] in
  fst r = 1%Z /\
  Forall (fun c => is_diskutil c = false) (calls (snd r)) /\
  UNMOUNTED_DISKS (snd r) = [].
Proof.
  apply (prerequisite_failure_runs_no_diskutil (env_of world_no_grep) flag_normal []).
  left. exists "grep". split.
  - cbn. tauto.
  - intros h. exists EmptyString. reflexivity.
Defined.

(** ** Steps that keep a property of the state *)

Lemma keeps_refl (I : State -> Prop) (s : State) : keeps I s s.
Proof. intros H. exact H. Qed.

Lemma keeps_trans (I : State -> Prop) (a b c : State) :
  keeps I a b -> keeps I b c -> keeps I a c.
Proof. intros H1 H2 H. exact (H2 (H1 H)). Qed.


Section Mirror.

Variable env : Env.











Lemma any_inventory (l : list string) :
  Forall (fun d => disk_calls (fun _ => True) d /\ True) l.
Proof. apply Forall_forall. intros d _. repeat split. Qed.



End Mirror.


(** ** The inventory *)

Lemma split_ws_head (c : ascii) (s : string) :
  is_space c = false -> hd EmptyString (split_ws (String c s)) = String c (word_of s).
Proof.
  revert c. induction s as [|c' s' IH]; intros c Hc.
  - cbn [split_ws]. rewrite Hc. reflexivity.
  - change (split_ws (String c (String c' s')))
      with (if is_space c then split_ws (String c' s')
            else if is_space c' then String c EmptyString :: split_ws (String c' s')
                 else match split_ws (String c' s') with
                      | [] => [String c EmptyString]
                      | w :: ws => String c w :: ws
                      end).
    rewrite Hc. cbn [word_of]. destruct (is_space c') eqn:Hc'; [reflexivity|].
    specialize (IH c' Hc').
    destruct (split_ws (String c' s')) as [|w ws]; [discriminate IH|].
    cbn [hd] in *. rewrite IH. reflexivity.
Qed.

Lemma word_of_no_blank (s : string) : no_blank (word_of s) = true.
Proof.
  unfold no_blank. induction s as [|c s IH]; cbn [word_of]; [reflexivity|].
  destruct (is_space c) eqn:E; [reflexivity|].
  cbn [list_ascii_of_string forallb]. rewrite E, IH. reflexivity.
Qed.

Lemma prefix_word_of (p s : string) :
  no_blank p = true -> String.prefix p s = true -> String.prefix p (word_of s) = true.
Proof.
  unfold no_blank. revert s. induction p as [|a p IH]; intros s Hp H.
  - destruct (word_of s); reflexivity.
  - destruct s as [|b s]; [discriminate H|].
    cbn [list_ascii_of_string forallb] in Hp. apply andb_true_iff in Hp.
    destruct Hp as [Ha Hp]. apply negb_true_iff in Ha.
    cbn [String.prefix] in H. destruct (ascii_dec a b) as [<-|]; [|discriminate H].
    cbn [word_of]. rewrite Ha. cbn [String.prefix].
    destruct (ascii_dec a a) as [_|N]; [|now elim N]. exact (IH s Hp H).
Qed.

(** The first word of a line that starts with ["/dev/disk"]. *)
Lemma first_word_device_path (line : string) :
  startswith "/dev/disk" line = true -> device_path (first_word line).
Proof.
  intros H. unfold first_word.
  destruct line as [|c line]; [discriminate H|].
  assert (C : c = "/"%char) by (symmetry; exact (prefix_head _ _ _ _ H)). subst c.
  rewrite (split_ws_head "/" line eq_refl).
  change (String "/" (word_of line)) with (word_of (String "/" line)).
  split.
  - apply prefix_word_of; [reflexivity | exact H].
  - apply word_of_no_blank.
Qed.

Section InventoryShape.

Variable env : Env.

Lemma collect_disks_Forall (Q : string -> Prop) (lines acc l : list string) (s : State) :
  fst (collect_disks env lines acc s) = Ret l ->
  Forall Q acc ->
  (forall line, In line lines -> startswith "/dev/disk" line = true ->
                Q (first_word line)) ->
  Forall Q l.
Proof.
  revert acc s. induction lines as [|line rest IH]; intros acc s H A L.
  - injection H as <-. exact A.
  - cbn [collect_disks] in H.
    destruct (startswith "/dev/disk" line) eqn:E.
    + destruct (total_fst (is_system_disk env (first_word line)) s
                  (may_raise_is_system_disk env _ _)) as [b Hb].
      rewrite (bind_fst_ret _ _ _ _ Hb) in H.
      destruct b; cbn [negb] in H.
      * apply (IH _ _ H A). intros x Hx. apply L. right. exact Hx.
      * apply (IH _ _ H).
        -- apply Forall_app. split; [exact A|]. constructor; [|constructor].
           apply L; [left; reflexivity | exact E].
        -- intros x Hx. apply L. right. exact Hx.
    + apply (IH _ _ H A). intros x Hx. apply L. right. exact Hx.
Qed.

Lemma get_external_disks_Forall (Q : string -> Prop) (l : list string) (s : State) :
  fst (get_external_disks env s) = Ret l ->
  (forall out, world env (trace s) ListExternal = Ok out ->
               forall line, In line (splitlines out) ->
                            startswith "/dev/disk" line = true -> Q (first_word line)) ->
  Forall Q l.
Proof.
  unfold get_external_disks. rewrite bind_run_cmd. intros H L.
  destruct (world env (trace s) ListExternal) as [out|e].
  - match type of H with
    | context [bind (collect_disks env ?ls ?a) _ ?s0] =>
        destruct (collect_disks_keeps env ls a s0) as [l' Hl'];
        pose proof (collect_disks_Forall Q ls a _ s0 Hl' (Forall_nil _) (L out eq_refl)) as F;
        rewrite (bind_fst_ret _ _ _ _ Hl') in H
    end.
    rewrite bind_log_info in H. injection H as <-. exact F.
  - rewrite bind_log_error in H. injection H as <-. constructor.
Qed.

End InventoryShape.

(** X14.  Each disk of the inventory is the first word of a line of the
    listing that starts with ["/dev/disk"]: it is a name that starts with
    ["/dev/disk"] and holds no blank.  When the listing fails, the
    inventory is empty. *)
Theorem inventory_is_from_listing (env : Env) (l : list string) (s : State) :
  fst (get_external_disks env s) = Ret l ->
  Forall device_path l /\
  match world env (trace s) ListExternal with
  | Ok out => incl l (candidates out)
  | Err _ => l = []
  end.
Proof.
  intros H. split.
  - apply (get_external_disks_Forall env device_path l s H).
    intros out _ line _ E. apply first_word_device_path, E.
  - destruct (world env (trace s) ListExternal) as [out|e] eqn:W.
    + assert (F : Forall (fun d => In d (candidates out)) l).
      { apply (get_external_disks_Forall env _ l s H).
        intros out0 W0 line Hl E. rewrite W in W0. injection W0 as <-.
        unfold candidates. apply in_map. apply filter_In. split; assumption. }
      intros d Hd. exact (proj1 (Forall_forall _ _) F d Hd).
    + revert H. unfold get_external_disks. rewrite bind_run_cmd, W, bind_log_error.
      intros H. injection H as <-. reflexivity.
Qed.

Lemma inventory_is_from_listing_witness :
  fst (get_external_disks (env_of world_healthy) (initial_state [])) = Ret ["/dev/disk2"] /\
  Forall device_path ["/dev/disk2"].
Proof.
  assert (H : fst (get_external_disks (env_of world_healthy) (initial_state [])) =
              Ret ["/dev/disk2"]) by (vm_compute; reflexivity).
  split; [exact H|].
  exact (proj1 (inventory_is_from_listing (env_of world_healthy) ["/dev/disk2"]
                  (initial_state []) H)).
Defined.

(** ** The disks a run touches *)

Lemma list_remove_Forall (Q : string -> Prop) (x : string) (l l' : list string) :
  list_remove x l = Some l' -> Forall Q l -> Forall Q l'.
Proof.
  revert l'. induction l as [|y l IH]; intros l' H F; [discriminate H|].
  cbn [list_remove] in H. inversion F as [|? ? Qy Fl]; subst.
  destruct (String.eqb y x); [injection H as <-; exact Fl|].
  destruct (list_remove x l) as [r|]; [|discriminate H].
  injection H as <-. constructor; [exact Qy | apply IH; [reflexivity | exact Fl]].
Qed.

Section TouchedOnly.

Variable env : Env.
Variable P : string -> Prop.

Lemma touched_still {A} (m : M A) :
  (forall s, trace (snd (m s)) = trace s /\
             UNMOUNTED_DISKS (snd (m s)) = UNMOUNTED_DISKS s) ->
  steps (keeps (touched_only P)) m.
Proof.
  intros H s [C U]. destruct (H s) as [T L]. unfold touched_only, calls.
  rewrite T, L. split; assumption.
Qed.

Lemma touched_info (msg : string) : steps (keeps (touched_only P)) (log_info env msg).
Proof. apply touched_still. intros s. split; reflexivity. Qed.

Lemma touched_err (msg : string) : steps (keeps (touched_only P)) (log_error env msg).
Proof. apply touched_still. intros s. split; reflexivity. Qed.

Lemma touched_out (t : string) : steps (keeps (touched_only P)) (print t).
Proof. apply touched_still. intros s. split; reflexivity. Qed.

Lemma touched_in (l : list string) :
  steps (keeps (touched_only P)) (modify (set_stdin l)).
Proof. apply touched_still. intros s. split; reflexivity. Qed.

Lemma touched_write (c : chunk) :
  is_record c = false -> steps (keeps (touched_only P)) (file_write c).
Proof. intros _. apply touched_still. intros s. split; reflexivity. Qed.

Lemma touched_flag : steps (keeps (touched_only P)) (modify (set_CLEANUP_DONE true)).
Proof. apply touched_still. intros s. split; reflexivity. Qed.

Lemma touched_run (c : call) :
  on_disks P c -> steps (keeps (touched_only P)) (run_cmd env c).
Proof.
  intros H s [C U]. split; [|exact U].
  unfold calls, run_cmd. proj. rewrite map_app. apply Forall_app.
  split; [exact C|]. constructor; [exact H | constructor].
Qed.

Lemma touched_add (d : string) :
  P d ->
  steps (keeps (touched_only P))
        (modify (fun s => set_UNMOUNTED_DISKS (UNMOUNTED_DISKS s ++ [d]) s)).
Proof.
  intros H s [C U]. split; [exact C|]. unfold modify. proj.
  apply Forall_app. split; [exact U|]. constructor; [exact H | constructor].
Qed.

Lemma touched_del (d : string) :
  P d -> steps (keeps (touched_only P)) (remove_unmounted d).
Proof.
  intros _ s [C U]. unfold remove_unmounted.
  destruct (list_remove d (UNMOUNTED_DISKS s)) as [l|] eqn:L; [|split; assumption].
  split; [exact C|]. proj. exact (list_remove_Forall P _ _ _ L U).
Qed.

Lemma on_disks_disk_calls (d : string) : P d -> disk_calls (on_disks P) d /\ P d.
Proof.
  intros H. repeat split; try exact H; intros x E; injection E as <-; exact H.
Qed.

Hypothesis inventory : forall s l, fst (get_external_disks env s) = Ret l -> Forall P l.

Lemma touched_main (args : Args) : steps (keeps (touched_only P)) (main env args).
Proof.
  apply (walk_main env (keeps (touched_only P)) (on_disks P) P);
    first [ exact (keeps_refl _) | exact (keeps_trans _)
          | exact touched_info | exact touched_err | exact touched_out
          | exact touched_in | exact touched_run | exact touched_add
          | exact touched_del | exact touched_write | exact touched_flag
          | unfold on_disks; intros; discriminate
          | intros s l H; apply (Forall_impl _ on_disks_disk_calls), (inventory s l H) ].
Qed.

Lemma touched_cleanup (s : State) : keeps (touched_only P) s (snd (cleanup env s)).
Proof.
  intros K.
  refine (walk_cleanup env (keeps (touched_only P)) (on_disks P) P
            (keeps_refl _) (keeps_trans _) touched_info touched_err touched_run
            touched_del touched_write touched_flag _ _ s _ K).
  - intros d E. discriminate E.
  - intros d E. discriminate E.
  - apply Forall_impl with (P := P); [|exact (proj2 K)].
    intros d H. split; [intros x E; injection E as <-; exact H | exact H].
Qed.

(** Every disk on which the process runs a command is a disk of [P]. *)
Lemma run_touches_only (args : Args) (input : list string) (c : call) (d : string) :
  In c (calls (snd (run_process env args input))) -> target c = Some d -> P d.
Proof.
  unfold run_process.
  assert (K0 : touched_only P (initial_state input)) by (split; constructor).
  pose proof (touched_main args (initial_state input) K0) as K1.
  destruct (main env args (initial_state input)) as [r s1]. cbn [snd] in *.
  unfold at_exit. cbn [snd].
  destruct (touched_cleanup s1 K1) as [C _].
  intros Hin. rewrite Forall_forall in C. exact (C c Hin d).
Qed.

End TouchedOnly.

(** X15.  The process runs its commands on disks of the inventory only:
    each disk it asks about, unmounts, verifies, repairs or remounts has a
    name that starts with ["/dev/disk"] and holds no blank. *)
Theorem run_touches_device_paths_only (env : Env) (args : Args) (input : list string)
        (c : call) (d : string) :
  In c (calls (snd (run_process env args input))) ->
  target c = Some d ->
  device_path d.
Proof.
  apply (run_touches_only env device_path).
  intros s l H. apply (get_external_disks_Forall env device_path l s H).
  intros out _ line _ E. apply first_word_device_path, E.
Qed.

Lemma run_touches_device_paths_only_witness : device_path "/dev/disk2".
Proof.
  apply (run_touches_device_paths_only (env_of world_healthy) flag_normal []
           (UnmountDisk "/dev/disk2") "/dev/disk2").
  - vm_compute. tauto.
  - reflexivity.
Defined.

Section Stable.

Variable env : Env.
Variable listing : string.

Hypothesis stable : forall h, world env h ListAll = Ok listing.

Lemma is_system_disk_stable (d : string) (s : State) :
  fst (is_system_disk env d s) = Ret (listed_as_system listing d).
Proof.
  unfold is_system_disk. rewrite bind_run_cmd, stable.
  unfold listed_as_system, system_partitions.
  destruct (existsb _ _); reflexivity.
Qed.

Lemma collect_disks_stable (lines acc l : list string) (s : State) :
  fst (collect_disks env lines acc s) = Ret l ->
  Forall (fun d => listed_as_system listing d = false) acc ->
  Forall (fun d => listed_as_system listing d = false) l.
Proof.
  revert acc s. induction lines as [|line rest IH]; intros acc s H A.
  - injection H as <-. exact A.
  - cbn [collect_disks] in H.
    destruct (startswith "/dev/disk" line); [|exact (IH _ _ H A)].
    rewrite (bind_fst_ret _ _ _ _ (is_system_disk_stable (first_word line) s)) in H.
    destruct (listed_as_system listing (first_word line)) eqn:E; cbn [negb] in H.
    + exact (IH _ _ H A).
    + apply (IH _ _ H). apply Forall_app. split; [exact A|].
      constructor; [exact E | constructor].
Qed.

Lemma get_external_disks_stable (l : list string) (s : State) :
  fst (get_external_disks env s) = Ret l ->
  Forall (fun d => listed_as_system listing d = false) l.
Proof.
  unfold get_external_disks. rewrite bind_run_cmd. intros H.
  destruct (world env (trace s) ListExternal) as [out|e].
  - match type of H with
    | context [bind (collect_disks env ?ls ?a) _ ?s0] =>
        destruct (collect_disks_keeps env ls a s0) as [l' Hl'];
        pose proof (collect_disks_stable ls a _ s0 Hl' (Forall_nil _)) as F;
        rewrite (bind_fst_ret _ _ _ _ Hl') in H
    end.
    rewrite bind_log_info in H. injection H as <-. exact F.
  - rewrite bind_log_error in H. injection H as <-. constructor.
Qed.

End Stable.

(** X16.  On a machine where [diskutil list] always succeeds with the
    same listing, the process runs no command on a disk that the
    system-disk test reports on that listing: such a disk is not asked
    about, unmounted, verified, repaired or remounted. *)
Theorem system_disks_are_never_touched (env : Env) (listing : string)
        (args : Args) (input : list string) (c : call) (d : string) :
  (forall h, world env h ListAll = Ok listing) ->
  In c (calls (snd (run_process env args input))) ->
  target c = Some d ->
  listed_as_system listing d = false.
Proof.
  intros St.
  apply (run_touches_only env (fun d => listed_as_system listing d = false)).
  intros s l H. exact (get_external_disks_stable env listing St l s H).
Qed.

Lemma system_disks_are_never_touched_witness :
  listed_as_system ("/dev/disk1s1 Apple_APFS Container disk3" ++ nl) "/dev/disk2" = false.
Proof.
  apply (system_disks_are_never_touched (env_of world_internal)
           ("/dev/disk1s1 Apple_APFS Container disk3" ++ nl) flag_normal []
           (UnmountDisk "/dev/disk2") "/dev/disk2").
  - intros h. reflexivity.
  - vm_compute. tauto.
  - reflexivity.
Defined.

(** ** The shape of the error log *)

Lemma closed_by_summary (s s' : State) :
  only_records s ->
  error_file s' = error_file s ++ [SummaryHeader; recommendation (error_channel s)] ->
  closed_log s'.
Proof.
  intros K E. exists (error_file s). split; [exact K|].
  assert (C : error_channel s' = error_channel s).
  { unfold error_channel at 1. rewrite E, error_channel_app.
    fold (error_channel s).
    replace (flat_map _ [SummaryHeader; recommendation (error_channel s)])
      with (@nil string); [apply app_nil_r|].
    unfold recommendation. destruct (error_channel s); reflexivity. }
  rewrite C. exact E.
Qed.

Section Unsummarised.

Variable env : Env.

Lemma unsummarised_still {A} (m : M A) :
  (forall s, error_file (snd (m s)) = error_file s /\
             CLEANUP_DONE (snd (m s)) = CLEANUP_DONE s) ->
  steps (keeps unsummarised) m.
Proof.
  intros H s [K D]. destruct (H s) as [E F]. unfold unsummarised, only_records.
  rewrite E, F. split; assumption.
Qed.

Lemma unsummarised_info (msg : string) : steps (keeps unsummarised) (log_info env msg).
Proof. apply unsummarised_still. intros s. split; reflexivity. Qed.

Lemma unsummarised_err (msg : string) : steps (keeps unsummarised) (log_error env msg).
Proof.
  intros s [K D]. split; [|exact D]. unfold only_records in *. exec.
  rewrite forallb_app, K. reflexivity.
Qed.

Lemma unsummarised_out (t : string) : steps (keeps unsummarised) (print t).
Proof. apply unsummarised_still. intros s. split; reflexivity. Qed.

Lemma unsummarised_in (l : list string) :
  steps (keeps unsummarised) (modify (set_stdin l)).
Proof. apply unsummarised_still. intros s. split; reflexivity. Qed.

Lemma unsummarised_run (c : call) : True -> steps (keeps unsummarised) (run_cmd env c).
Proof. intros _. apply unsummarised_still. intros s. split; reflexivity. Qed.

Lemma unsummarised_add (d : string) :
  True ->
  steps (keeps unsummarised)
        (modify (fun s => set_UNMOUNTED_DISKS (UNMOUNTED_DISKS s ++ [d]) s)).
Proof. intros _. apply unsummarised_still. intros s. split; reflexivity. Qed.

Lemma unsummarised_del (d : string) :
  True -> steps (keeps unsummarised) (remove_unmounted d).
Proof.
  intros _. apply unsummarised_still. intros s. unfold remove_unmounted.
  destruct (list_remove d (UNMOUNTED_DISKS s)); split; reflexivity.
Qed.

Lemma unsummarised_sweep_of_main (args : Args) :
  steps (keeps unsummarised) (sweep_of_main env args).
Proof.
  apply (walk_sweep_of_main env (keeps unsummarised) (fun _ => True) (fun _ => True));
    first [ exact (keeps_refl _) | exact (keeps_trans _)
          | exact unsummarised_info | exact unsummarised_err | exact unsummarised_out
          | exact unsummarised_in | exact unsummarised_run | exact unsummarised_add
          | exact unsummarised_del
          | exact I | intros; exact I | intros; apply any_inventory ].
Qed.

Lemma unsummarised_remount_all (l : list string) :
  steps (keeps unsummarised) (remount_all env l).
Proof.
  apply (walk_remount_all env (keeps unsummarised) (fun _ => True) (fun _ => True));
    first [ exact (keeps_refl _) | exact (keeps_trans _)
          | exact unsummarised_info | exact unsummarised_err | exact unsummarised_run
          | exact unsummarised_del
          | apply Forall_forall; intros; split; exact I ].
Qed.

(** The first [cleanup] closes the log. *)
Lemma cleanup_closes_log (s : State) :
  log_io_ok env -> unsummarised s -> closed_log (snd (cleanup env s)).
Proof.
  intros IO [K D]. unfold cleanup. rewrite bind_get, D, snd_bind_raise. cbn [negb].
  rewrite bind_log_info, bind_get.
  pose proof (unsummarised_info "Script interrupted or exiting. Performing cleanup." s
                (conj K D)) as K1.
  set (s1 := snd (log_info env "Script interrupted or exiting. Performing cleanup." s)) in *.
  destruct (remount_all_sweep env (UNMOUNTED_DISKS s1) s1 (fun x => le_n _)) as [Fr _].
  rewrite (bind_fst_ret _ _ _ _ Fr).
  pose proof (unsummarised_remount_all (UNMOUNTED_DISKS s1) s1 K1) as [K2 _].
  set (s2 := snd (remount_all env (UNMOUNTED_DISKS s1) s1)) in *.
  destruct (append_summary_ok env s2 IO) as [Fa [_ [_ [_ [E _]]]]].
  rewrite (bind_fst_ret _ _ _ _ Fa).
  apply (closed_by_summary s2); [exact K2 | exact E].
Qed.

End Unsummarised.

Lemma only_records_summaries (s : State) : only_records s -> summaries s = 0%nat.
Proof.
  unfold only_records, summaries. induction (error_file s) as [|c l IH]; [reflexivity|].
  cbn [forallb filter]. intros H. apply andb_true_iff in H. destruct H as [Hc Hl].
  destruct c; try discriminate Hc. exact (IH Hl).
Qed.

Lemma on_signal_state (env : Env) (s : State) :
  snd (on_signal env s) = snd (cleanup env s).
Proof.
  unfold on_signal. pose proof (proj2 (cleanup_exits env s)) as D.
  destruct (cleanup env s) as [r s1]. cbn [snd] in *. unfold at_exit. cbn [snd].
  rewrite (cleanup_done env s1 D). reflexivity.
Qed.

(** X17.  When the error log can be opened, a process that no signal
    interrupts leaves it in the same shape however [main] ends: the error
    records of the run, then one summary, which comes last and which
    reports issues exactly when there is at least one record.  A signal
    handled while no summary has been written and the flag is not set
    leaves the log in that shape too.  A signal handled after the summary
    of [main] and before [main] sets the flag adds a second summary. *)
Theorem error_log_ends_with_one_summary (env : Env) (args : Args) (input : list string) :
  log_io_ok env ->
  closed_log (snd (run_process env args input)) /\
  (forall s, unsummarised s -> closed_log (snd (on_signal env s))) /\
  (forall s, unsummarised s ->
             summaries (snd (on_signal env (snd (finish_summary env s)))) = 2%nat).
Proof.
  intros IO. split; [|split].
  - unfold run_process. rewrite main_as_sweep.
    assert (K0 : unsummarised (initial_state input)) by (split; reflexivity).
    pose proof (unsummarised_sweep_of_main env args (initial_state input) K0) as K1.
    unfold bind.
    destruct (sweep_of_main env args (initial_state input)) as [[[]|e] s1]; cbn [snd] in K1.
    + destruct (finish_run_outcome env s1) as [_ [D [_ [_ [_ F]]]]].
      destruct (F IO) as [_ E].
      destruct (finish_run env s1) as [r s2]. cbn [snd] in *.
      unfold at_exit. cbn [snd]. rewrite (cleanup_done env s2 D). cbn [snd].
      exact (closed_by_summary s1 s2 (proj1 K1) E).
    + unfold at_exit. cbn [snd]. exact (cleanup_closes_log env s1 IO K1).
  - intros s K. rewrite on_signal_state. exact (cleanup_closes_log env s IO K).
  - intros s [K D]. rewrite on_signal_state.
    pose proof (finish_summary_flag env s) as D1. rewrite D in D1.
    assert (S1 : summaries (snd (finish_summary env s)) = 1%nat).
    { unfold finish_summary. rewrite !bind_log_info.
      match goal with |- context [append_summary env ?s0] => set (s1 := s0) end.
      destruct (append_summary_ok env s1 IO) as [_ [_ [_ [_ [E _]]]]].
      unfold summaries. rewrite E, filter_app, length_app.
      change (List.length (filter _ (error_file s1))) with (summaries s).
      rewrite (only_records_summaries s K).
      unfold recommendation. destruct (error_channel s1); reflexivity. }
    destruct (cleanup_first env _ D1) as [_ [_ [_ [_ F]]]]. rewrite (F IO), S1.
    reflexivity.
Qed.

Lemma error_log_ends_with_one_summary_witness :
  log_io_ok (env_of world_broken) /\
  closed_log (snd (run_process (env_of world_broken) flag_normal [])).
Proof.
  split; [intros h; split; exists EmptyString; reflexivity|].
  exact (proj1 (error_log_ends_with_one_summary (env_of world_broken) flag_normal []
                  (fun h => conj (ex_intro _ EmptyString eq_refl)
                                 (ex_intro _ EmptyString eq_refl)))).
Defined.

(** ** How [main] ends *)

Section MainEnds.

Variable env : Env.

Lemma may_raise_check_required_commands :
  may_raise main_end (check_required_commands env).
Proof.
  unfold check_required_commands.
  apply may_raise_bind; [apply may_raise_find_missing|]. intros [|c l].
  - apply may_raise_ret.
  - apply may_raise_bind; [apply may_raise_log_missing|]. intros _.
    apply may_raise_bind; [apply may_raise_log_error|]. intros _.
    apply may_raise_bind; [apply may_raise_log_error|]. intros _.
    apply may_raise_raise. right. left. reflexivity.
Qed.

Lemma may_raise_ensure_root : may_raise main_end (ensure_root env).
Proof.
  unfold ensure_root. destruct (negb _); [|apply may_raise_ret].
  apply may_raise_bind; [apply may_raise_log_error|]. intros _.
  apply may_raise_raise. right. right. left. reflexivity.
Qed.

Lemma may_raise_print_all (l : list string) : may_raise main_end (print_all l).
Proof.
  induction l as [|t l IH]; cbn [print_all]; [apply may_raise_ret|].
  apply may_raise_bind; [apply may_raise_print | intros _; exact IH].
Qed.

Lemma may_raise_menu_loop (lines : list string) : may_raise main_end (menu_loop lines).
Proof.
  induction lines as [|line rest IH]; cbn [menu_loop];
    (apply may_raise_bind; [apply may_raise_print_all|]; intros _;
     apply may_raise_bind; [apply may_raise_print|]; intros _).
  - apply may_raise_raise. do 4 right. reflexivity.
  - apply may_raise_bind; [apply may_raise_modify|]. intros _.
    destruct (String.eqb (strip line) "1"); [apply may_raise_ret|].
    destruct (String.eqb (strip line) "2"); [apply may_raise_ret|].
    destruct (String.eqb (strip line) "3").
    + apply may_raise_bind; [apply may_raise_print|]. intros _.
      apply may_raise_raise. left. reflexivity.
    + apply may_raise_bind; [apply may_raise_print | intros _; exact IH].
Qed.

Lemma may_raise_select_mode (args : Args) : may_raise main_end (select_mode args).
Proof.
  unfold select_mode. destruct (non_interactive args); [apply may_raise_ret|].
  destruct (dry_run args); [apply may_raise_ret|]. unfold show_interactive_menu.
  apply may_raise_bind; [apply may_raise_get | intros l; apply may_raise_menu_loop].
Qed.

Lemma run_checks_ends (mode : run_mode) (s : State) :
  exists e, fst (run_checks env mode s) = Raise e /\ main_end e.
Proof.
  destruct (run_checks_outcome env mode s) as [[H _]|[H _]].
  - exists (SystemExit (ExitCode 0)). split; [exact H | left; reflexivity].
  - exists IndexError. split; [exact H | do 3 right; left; reflexivity].
Qed.

End MainEnds.

(** X18.  Once [parse_arguments] and [setup_logging] have returned and
    the handlers are registered, the rest of [main] (source lines 317 to
    372) never returns and never lets a [ValueError] escape: it ends in
    [sys.exit(0)], in one of the two exits with a message of the
    prerequisites, in the [IndexError] of a type line without a colon, or
    in the [EOFError] of a menu that has no more input.  The exit status
    of a process that has come that far, and that no signal interrupts,
    is 0 or 1.  The endings of the start-up itself (the exit of [argparse]
    with status 2 on a wrong command line, an [OSError] of
    [setup_logging]) come before and are not among these. *)
Theorem main_ends (env : Env) (args : Args) (s : State) (input : list string) :
  (exists e, fst (main env args s) = Raise e /\ main_end e) /\
  (fst (run_process env args input) = 0%Z \/ fst (run_process env args input) = 1%Z).
Proof.
  assert (A : forall s0, exists e, fst (main env args s0) = Raise e /\ main_end e).
  { intros s0. unfold main.
    pose proof (may_raise_check_required_commands env s0) as H1.
    unfold bind at 1. destruct (check_required_commands env s0) as [[[]|e] s1];
      [|exists e; split; [reflexivity | apply H1; reflexivity]].
    pose proof (may_raise_ensure_root env s1) as H2.
    unfold bind at 1. destruct (ensure_root env s1) as [[[]|e] s2];
      [|exists e; split; [reflexivity | apply H2; reflexivity]].
    pose proof (may_raise_select_mode args s2) as H3.
    unfold bind at 1. destruct (select_mode args s2) as [[mode|e] s3];
      [|exists e; split; [reflexivity | apply H3; reflexivity]].
    apply run_checks_ends. }
  split; [apply A|].
  unfold run_process. destruct (A (initial_state input)) as [e [He Hm]].
  destruct (main env args (initial_state input)) as [r s1]. cbn [fst] in He. subst r.
  unfold at_exit. cbn [fst].
  destruct Hm as [->|[->|[->|[->| ->]]]]; cbn; auto.
Qed.

(** ** Unmounting a disk that is not mounted *)

Lemma mounted_in_no (lines : list string) :
  (forall line, In line lines -> startswith "Mounted:" line = true ->
                contains "Yes" line = false) ->
  mounted_in lines = false.
Proof.
  induction lines as [|l lines IH]; intros H; cbn [mounted_in]; [reflexivity|].
  destruct (startswith "Mounted:" l) eqn:E.
  - apply H; [left; reflexivity | exact E].
  - apply IH. intros x Hx. apply H. right. exact Hx.
Qed.

(** X19.  A disk is taken as mounted only when a line of [diskutil info]
    starts with ["Mounted:"] and holds ["Yes"].  When no line does, in
    particular when the lines are indented, [unmount_disk] runs no
    unmount, leaves the list alone, logs no error and returns [True], in
    either mode. *)
Theorem unmount_disk_not_mounted (env : Env) (d out : string) (mode : run_mode)
        (s : State) :
  world env (trace s) (Info d) = Ok out ->
  (forall line, In line (splitlines out) -> startswith "Mounted:" line = true ->
                contains "Yes" line = false) ->
  let r := unmount_disk env d mode s in
  fst r = Ret true /\
  trace (snd r) = trace s ++ [(Info d, Ok out)] /\
  UNMOUNTED_DISKS (snd r) = UNMOUNTED_DISKS s /\
  error_channel (snd r) = error_channel s.
Proof.
  intros W H. cbv zeta. unfold unmount_disk.
  rewrite bind_run_cmd, W, (mounted_in_no _ H). repeat split; reflexivity.
Qed.

Lemma unmount_disk_not_mounted_witness :
  fst (unmount_disk (env_of world_no_partitions) "/dev/disk2" normal (initial_state [])) =
  Ret true.
Proof.
  apply (unmount_disk_not_mounted (env_of world_no_partitions) "/dev/disk2"
           (info_of "apfs" "No") normal (initial_state [])).
  - reflexivity.
  - intros line H E. vm_compute in H.
    repeat (destruct H as [<-|H]; [try discriminate E; vm_compute; reflexivity|]).
    destruct H.
Defined.

(** ** The order of the sweep *)

Section Order.

Variable env : Env.

Lemma check_classified_within (mode : run_mode) (d fs : string) (s : State) :
  within (fun c => target c = Some d) s (snd (check_classified env mode d fs s)).
Proof.
  apply (walk_check_classified env (frame_within (fun c => target c = Some d) (eq d))
           (fun c => target c = Some d) (eq d));
    first [ exact (frame_within_refl _ _) | exact (frame_within_trans _ _)
          | exact (frame_within_info env _ _) | exact (frame_within_err env _ _)
          | exact (frame_within_run env _ _) | exact (frame_within_add _ _)
          | exact (frame_within_del _ _) | reflexivity
          | repeat split; reflexivity ].
Qed.

Lemma check_disk_turn (mode : run_mode) (d : string) (s : State) :
  exists evs, trace (snd (check_disk env mode d s)) = trace s ++ evs /\ turn_of d evs.
Proof.
  destruct (check_disk_cases env mode d s) as [r [s2 [l [T [_ [_ [[e H]|[fs H]]]]]]]].
  - rewrite H. cbn [snd]. exists [(Info d, r)]. split; [exact T|].
    exists r, []. split; [reflexivity | constructor].
  - rewrite H. destruct (check_classified_within mode d fs s2) as [evs [T2 F]].
    exists ((Info d, r) :: evs). rewrite T2, T, <- app_assoc. split; [reflexivity|].
    exists r, evs. split; [reflexivity | exact F].
Qed.

Lemma check_disks_turns (mode : run_mode) (l : list string) (s : State) :
  exists blocks,
    trace (snd (check_disks env mode l s)) = trace s ++ List.concat blocks /\
    Forall2 turn_of (firstn (List.length blocks) l) blocks /\
    (fst (check_disks env mode l s) = Ret tt -> List.length blocks = List.length l).
Proof.
  revert s. induction l as [|d l IH]; intros s.
  - exists []. cbn. rewrite app_nil_r. split; [reflexivity|]. split; [constructor|].
    intros _. reflexivity.
  - cbn [check_disks]. destruct (check_disk_turn mode d s) as [evs [T Tu]].
    unfold bind. destruct (check_disk env mode d s) as [[[]|e] s1]; cbn [snd] in T.
    + destruct (IH s1) as [blocks [T' [F L]]].
      exists (evs :: blocks). cbn [List.concat List.length firstn].
      rewrite T', T, <- app_assoc. split; [reflexivity|].
      split; [constructor; assumption|]. intros H. rewrite (L H). reflexivity.
    + exists [evs]. cbn [List.concat List.length firstn snd fst].
      rewrite app_nil_r. split; [exact T|].
      split; [constructor; [exact Tu | constructor]|]. intros H. discriminate H.
Qed.

End Order.

(** X20.  The sweep takes the disks in the order of the inventory, one
    after the other: the history grows by one block of events for each
    disk, which starts with the [diskutil info] of that disk and holds
    commands on that disk only.  Every disk has its block when the sweep
    returns; the blocks stop at the disk whose turn raises. *)
Theorem check_disks_in_order (env : Env) (mode : run_mode) (l : list string) (s : State) :
  exists blocks,
    trace (snd (check_disks env mode l s)) = trace s ++ List.concat blocks /\
    Forall2 turn_of (firstn (List.length blocks) l) blocks /\
    (fst (check_disks env mode l s) = Ret tt -> List.length blocks = List.length l).
Proof. apply check_disks_turns. Qed.

(** ** A run with a flag *)

Section Unattended.

Variable env : Env.

Lemma silent_refl (s : State) : silent s s.
Proof. split; reflexivity. Qed.

Lemma silent_trans (a b c : State) : silent a b -> silent b c -> silent a c.
Proof. intros [H1 H2] [H3 H4]. split; congruence. Qed.

Lemma silent_still {A} (m : M A) :
  (forall s, stdin (snd (m s)) = stdin s /\ stdout (snd (m s)) = stdout s) ->
  steps silent m.
Proof. intros H s. exact (H s). Qed.

Lemma silent_info (msg : string) : steps silent (log_info env msg).
Proof. intros s. split; reflexivity. Qed.

Lemma silent_err (msg : string) : steps silent (log_error env msg).
Proof. intros s. split; reflexivity. Qed.

Lemma silent_run (c : call) : True -> steps silent (run_cmd env c).
Proof. intros _ s. split; reflexivity. Qed.

Lemma silent_add (d : string) :
  True ->
  steps silent (modify (fun s => set_UNMOUNTED_DISKS (UNMOUNTED_DISKS s ++ [d]) s)).
Proof. intros _ s. split; reflexivity. Qed.

Lemma silent_del (d : string) : True -> steps silent (remove_unmounted d).
Proof.
  intros _ s. unfold remove_unmounted.
  destruct (list_remove d (UNMOUNTED_DISKS s)); split; reflexivity.
Qed.

Lemma silent_write (c : chunk) : is_record c = false -> steps silent (file_write c).
Proof. intros _ s. split; reflexivity. Qed.

Lemma silent_flag : steps silent (modify (set_CLEANUP_DONE true)).
Proof. intros s. split; reflexivity. Qed.

Ltac silent_prims :=
  first [ exact silent_refl | exact silent_trans
        | exact silent_info | exact silent_err | exact silent_run
        | exact silent_add | exact silent_del | exact silent_write | exact silent_flag
        | exact I | intros; exact I | intros; apply any_inventory
        | apply Forall_forall; intros; split; exact I ].

Lemma silent_run_checks (mode : run_mode) : steps silent (run_checks env mode).
Proof.
  unfold run_checks.
  apply (steps_bind silent silent_trans); [apply silent_info|]. intros _.
  apply (steps_bind silent silent_trans).
  { apply (walk_get_external_disks env silent (fun _ => True)); silent_prims. }
  intros l. apply (steps_bind silent silent_trans).
  { apply (walk_check_all env silent (fun _ => True) (fun _ => True)); silent_prims. }
  intros _. unfold finish_run.
  apply (steps_bind silent silent_trans); [apply silent_info|]. intros _.
  apply (steps_bind silent silent_trans); [apply silent_info|]. intros _.
  apply (steps_bind silent silent_trans).
  { apply (walk_append_summary env silent (fun _ => True)); silent_prims. }
  intros _. apply (steps_bind silent silent_trans); [apply silent_flag|]. intros _.
  apply (steps_raise silent silent_refl).
Qed.

Lemma silent_main (args : Args) :
  non_interactive args = true \/ dry_run args = true ->
  steps silent (main env args).
Proof.
  intros F. unfold main.
  apply (steps_bind silent silent_trans).
  { apply (walk_check_required_commands env silent (fun _ => True)); silent_prims. }
  intros _. apply (steps_bind silent silent_trans).
  { apply (walk_ensure_root env silent); silent_prims. }
  intros _. apply (steps_bind silent silent_trans); [|intros m; apply silent_run_checks].
  unfold select_mode. destruct (non_interactive args); [apply (steps_ret silent silent_refl)|].
  destruct F as [F|F]; [discriminate F|]. rewrite F. apply (steps_ret silent silent_refl).
Qed.

Lemma silent_cleanup (s : State) : silent s (snd (cleanup env s)).
Proof.
  apply (walk_cleanup env silent (fun _ => True) (fun _ => True)); silent_prims.
Qed.

End Unattended.

(** X21.  A run given one of the two flags is unattended: it reads no
    line of the standard input and prints nothing but its log. *)
Theorem flag_run_is_unattended (env : Env) (args : Args) (input : list string) :
  non_interactive args = true \/ dry_run args = true ->
  let s := snd (run_process env args input) in
  stdin s = input /\ stdout s = [].
Proof.
  intros F. cbv zeta. unfold run_process.
  pose proof (silent_main env args F (initial_state input)) as H1.
  destruct (main env args (initial_state input)) as [r s1]. cbn [snd] in H1.
  unfold at_exit. cbn [snd].
  exact (silent_trans _ _ _ H1 (silent_cleanup env s1)).
Qed.

Lemma flag_run_is_unattended_witness :
  let s := snd (run_process (env_of world_healthy) flag_dry ["1"]) in
  stdin s = ["1"] /\ stdout s = [].
Proof.
  apply (flag_run_is_unattended (env_of world_healthy) flag_dry ["1"]).
  right. reflexivity.
Defined.
